(** * PCB Fault Guru: the analysis client, the chat client and the
      application state controller, embedded in Rocq.

    The development follows the TypeScript sources:

    - [types.ts]                      -> [Module Types]
    - [services/geminiService.ts]     -> [Module GeminiService]
    - [services/pdfService.ts]        -> [Module PdfService]
    - [components/AnalysisViewer.tsx] -> [Module AnalysisViewer]
    - [components/ResultsPanel.tsx]   -> [Module ResultsPanel]
    - [App.tsx]                       -> [Module App]

    [Module Voltage] holds the voltage test these files all write, and
    [Module App] ends with the component as a transition system: its
    handlers as actions, the promises in flight as part of the state.

    The platform functions the code calls ([String.prototype.trim],
    [JSON.parse], [String.prototype.match] and [replace] with a regular
    expression, [Number::toString]) are embedded in [Module Js],
    [Module Json] and [Module Regex] after ECMA-262 and ECMA-404. *)

From Stdlib Require Import ZArith NArith List Ascii String Bool Lia.
From Stdlib Require Import DecimalString Permutation.
Import ListNotations.

(* ================================================================== *)
(** * JavaScript strings and numbers *)
(* ================================================================== *)

Module Js.

(** A JavaScript string is a sequence of UTF-16 code units. *)
Definition code_unit := N.
Definition jsstring := list code_unit.

(** String literals of the sources are written [str "..."]. *)
Definition str (s : string) : jsstring :=
  map N_of_ascii (list_ascii_of_string s).

Definition ch (a : ascii) : code_unit := N_of_ascii a.

Definition DQUOTE : code_unit := 34%N.
Definition BACKSLASH : code_unit := 92%N.
Definition BACKTICK : code_unit := 96%N.
Definition LF : code_unit := 10%N.

(** [qq "..."] is [str "..."] with every apostrophe replaced by a double
    quote: it keeps JSON literals readable. *)
Definition qq (s : string) : jsstring :=
  map (fun c => if N.eqb c 39 then DQUOTE else c) (str s).

Definition jsstring_eqb (a b : jsstring) : bool :=
  if list_eq_dec N.eq_dec a b then true else false.

(** ** White space *)

(** ECMA-262 [WhiteSpace] and [LineTerminator]: what [trim] strips and
    what the regular-expression class [\s] matches. *)
Definition is_js_space (c : code_unit) : bool :=
  ((9 <=? c) && (c <=? 13)            (* TAB LF VT FF CR *)
   || (c =? 32) || (c =? 160)         (* SP NBSP *)
   || (c =? 5760)                     (* U+1680 *)
   || ((8192 <=? c) && (c <=? 8202))  (* U+2000 .. U+200A *)
   || (c =? 8232) || (c =? 8233)      (* U+2028 U+2029 *)
   || (c =? 8239) || (c =? 8287)      (* U+202F U+205F *)
   || (c =? 12288) || (c =? 65279))%N (* U+3000 U+FEFF *).

Fixpoint trimStart (s : jsstring) : jsstring :=
  match s with
  | c :: s' => if is_js_space c then trimStart s' else s
  | [] => []
  end.

Definition trimEnd (s : jsstring) : jsstring := rev (trimStart (rev s)).

(** [String.prototype.trim] *)
Definition trim (s : jsstring) : jsstring := trimEnd (trimStart s).

Definition all_space (s : jsstring) : bool := forallb is_js_space s.

Definition has_backtick (s : jsstring) : bool := existsb (N.eqb BACKTICK) s.

(** ** Searching and joining *)

Fixpoint startsWith (p s : jsstring) : bool :=
  match p, s with
  | [], _ => true
  | a :: p', b :: s' => N.eqb a b && startsWith p' s'
  | _ :: _, [] => false
  end.

(** [String.prototype.includes] *)
Fixpoint includes (s p : jsstring) : bool :=
  startsWith p s ||
  match s with
  | [] => false
  | _ :: s' => includes s' p
  end.

(** [Array.prototype.join] on an array of strings *)
Fixpoint join (sep : jsstring) (l : list jsstring) : jsstring :=
  match l with
  | [] => []
  | [x] => x
  | x :: l' => x ++ sep ++ join sep l'
  end.

(** ** Numbers *)

(** A Number is NaN, an infinity, or a finite value.  A finite value is
    held as the decimal [mant * 10^expo] that [Number::toString] prints
    for it, the shortest decimal that reads back as the same Number, so
    that two finite Numbers compare as their decimals do and a Number is
    zero exactly when [mant = 0] (the sign of zero is not kept: [-0] and
    [+0] are alike for [>], for truthiness and for [toString]). *)
Inductive number :=
| NaN
| Infinity (negative : bool)
| Finite (mant expo : Z).

Definition num (z : Z) : number := Finite z 0.

(** [a > b] on decimals: both are scaled to the smaller exponent. *)
Definition dec_gtb (m1 e1 m2 e2 : Z) : bool :=
  let e := Z.min e1 e2 in
  (m2 * 10 ^ (e2 - e) <? m1 * 10 ^ (e1 - e))%Z.

(** The relational operator [>] on Numbers. *)
Definition number_gt (a b : number) : bool :=
  match a, b with
  | NaN, _ | _, NaN => false
  | Infinity na, Infinity nb => negb na && nb
  | Infinity na, Finite _ _ => negb na
  | Finite _ _, Infinity nb => nb
  | Finite m1 e1, Finite m2 e2 => dec_gtb m1 e1 m2 e2
  end.

(** [ToBoolean] on a Number: [0], [-0] and [NaN] are falsy. *)
Definition number_truthy (a : number) : bool :=
  match a with
  | NaN => false
  | Infinity _ => true
  | Finite m _ => negb (m =? 0)%Z
  end.

Definition digits_of (n : N) : jsstring :=
  str (NilZero.string_of_uint (N.to_uint n)).

Definition is_zero_digit (c : code_unit) : bool := N.eqb c 48.

Fixpoint drop_zeros (s : jsstring) : jsstring :=
  match s with
  | c :: s' => if is_zero_digit c then drop_zeros s' else s
  | [] => []
  end.

Definition zeros (n : nat) : jsstring := repeat 48%N n.

(** [Number::toString(x)] in radix 10, ECMA-262 6.1.6.1.20: with [s] the
    digits of the value without trailing zeros, [k] their count and [n]
    the position of the decimal point ([value = 0.s * 10^n]). *)
Definition toString_finite_pos (m : N) (e : Z) : jsstring :=
  let all := digits_of m in
  let s := rev (drop_zeros (rev all)) in
  let k := Z.of_nat (List.length s) in
  let n := (Z.of_nat (List.length all) + e)%Z in
  if ((k <=? n) && (n <=? 21))%Z then
    s ++ zeros (Z.to_nat (n - k))
  else if ((0 <? n) && (n <=? 21))%Z then
    firstn (Z.to_nat n) s ++ str "." ++ skipn (Z.to_nat n) s
  else if ((-6 <? n) && (n <=? 0))%Z then
    str "0." ++ zeros (Z.to_nat (- n)) ++ s
  else
    let ex := (n - 1)%Z in
    let sign := if (ex <? 0)%Z then str "-" else str "+" in
    let tail := str "e" ++ sign ++ digits_of (Z.abs_N ex) in
    match s with
    | [d] => d :: tail
    | d :: ds => d :: str "." ++ ds ++ tail
    | [] => tail
    end.

Definition toString (x : number) : jsstring :=
  match x with
  | NaN => str "NaN"
  | Infinity false => str "Infinity"
  | Infinity true => str "-Infinity"
  | Finite m e =>
      if (m =? 0)%Z then str "0"
      else if (m <? 0)%Z then str "-" ++ toString_finite_pos (Z.abs_N m) e
      else toString_finite_pos (Z.abs_N m) e
  end.

End Js.

(* ================================================================== *)
(** * JSON values and [JSON.parse] *)
(* ================================================================== *)

Module Json.
Import Js.

(** The value [JSON.parse] builds.  A number keeps the exact decimal
    [mant * 10^expo] of its literal; the Number stored is the double
    nearest to it.  An object keeps its members in the order of first
    insertion (the enumeration order of integer-like keys is not
    modelled; nothing here enumerates an object). *)
#[local] Unset Elimination Schemes.
Inductive json :=
| JNull
| JBool (b : bool)
| JNum (mant expo : Z)
| JStr (s : jsstring)
| JArr (items : list json)
| JObj (members : list (jsstring * json)).
#[local] Set Elimination Schemes.

(** [CreateDataProperty]: a repeated key overwrites the earlier value. *)
Fixpoint set_member (k : jsstring) (v : json) (ms : list (jsstring * json))
  : list (jsstring * json) :=
  match ms with
  | [] => [(k, v)]
  | (k', v') :: ms' =>
      if jsstring_eqb k k' then (k', v) :: ms'
      else (k', v') :: set_member k v ms'
  end.

Fixpoint get_member (k : jsstring) (ms : list (jsstring * json))
  : option json :=
  match ms with
  | [] => None
  | (k', v) :: ms' => if jsstring_eqb k k' then Some v else get_member k ms'
  end.

(** ** The lexical grammar of ECMA-404 *)

Definition is_json_ws (c : code_unit) : bool :=
  ((c =? 9) || (c =? 10) || (c =? 13) || (c =? 32))%N.

Fixpoint skip_ws (s : jsstring) : jsstring :=
  match s with
  | c :: s' => if is_json_ws c then skip_ws s' else s
  | [] => []
  end.

Definition is_digit (c : code_unit) : bool := ((48 <=? c) && (c <=? 57))%N.

Fixpoint take_digits (s : jsstring) : jsstring * jsstring :=
  match s with
  | c :: s' =>
      if is_digit c then let (ds, r) := take_digits s' in (c :: ds, r)
      else ([], s)
  | [] => ([], [])
  end.

Definition digits_value (ds : jsstring) : Z :=
  fold_left (fun acc d => (acc * 10 + (Z.of_N d - 48))%Z) ds 0%Z.

Definition hex_value (c : code_unit) : option N :=
  if is_digit c then Some (c - 48)%N
  else if ((97 <=? c) && (c <=? 102))%N then Some (c - 87)%N
  else if ((65 <=? c) && (c <=? 70))%N then Some (c - 55)%N
  else None.

Inductive presult (A : Type) :=
| POk (a : A) (rest : jsstring)
| PSyntaxError
| POutOfFuel.
Arguments POk {A} a rest.
Arguments PSyntaxError {A}.
Arguments POutOfFuel {A}.

(** The characters of a string literal after its opening quote, with
    the escapes decoded, up to the closing quote. *)
Fixpoint parse_string (s : jsstring) : presult jsstring :=
  match s with
  | [] => PSyntaxError
  | c :: r =>
      if (c =? DQUOTE)%N then POk [] r
      else if (c <? 32)%N then PSyntaxError
      else if (c =? BACKSLASH)%N then
        match r with
        | [] => PSyntaxError
        | e :: r1 =>
            let simple (u : code_unit) :=
              match parse_string r1 with
              | POk x r2 => POk (u :: x) r2
              | other => other
              end in
            if (e =? DQUOTE)%N then simple DQUOTE
            else if (e =? BACKSLASH)%N then simple BACKSLASH
            else if (e =? 47)%N then simple 47%N       (* \/ *)
            else if (e =? 98)%N then simple 8%N        (* \b *)
            else if (e =? 102)%N then simple 12%N      (* \f *)
            else if (e =? 110)%N then simple 10%N      (* \n *)
            else if (e =? 114)%N then simple 13%N      (* \r *)
            else if (e =? 116)%N then simple 9%N       (* \t *)
            else if (e =? 117)%N then                  (* \uXXXX *)
              match r1 with
              | h1 :: h2 :: h3 :: h4 :: r2 =>
                  match hex_value h1, hex_value h2, hex_value h3, hex_value h4 with
                  | Some a, Some b, Some c', Some d =>
                      match parse_string r2 with
                      | POk x r3 => POk ((a * 4096 + b * 256 + c' * 16 + d)%N :: x) r3
                      | other => other
                      end
                  | _, _, _, _ => PSyntaxError
                  end
              | _ => PSyntaxError
              end
            else PSyntaxError
        end
      else
        match parse_string r with
        | POk x r' => POk (c :: x) r'
        | other => other
        end
  end.

(** A number literal: an optional minus sign; [0] or a digit [1-9] followed
    by digits; an optional fraction, a point and one digit or more; an
    optional exponent, [e] or [E], an optional sign and one digit or more. *)
Definition parse_sign (s : jsstring) : bool * jsstring :=
  match s with
  | c :: r => if (c =? 45)%N then (true, r) else (false, s)
  | [] => (false, s)
  end.

Definition parse_int (s : jsstring) : option (jsstring * jsstring) :=
  match s with
  | c :: r =>
      if (c =? 48)%N then Some ([c], r)
      else if is_digit c then Some (take_digits s)
      else None
  | [] => None
  end.

Definition parse_frac (s : jsstring) : option (jsstring * jsstring) :=
  match s with
  | c :: r =>
      if (c =? 46)%N then
        match take_digits r with
        | ([], _) => None
        | (fs, r') => Some (fs, r')
        end
      else Some ([], s)
  | [] => Some ([], s)
  end.

Definition parse_exp (s : jsstring) : option (Z * jsstring) :=
  match s with
  | c :: r =>
      if ((c =? 101) || (c =? 69))%N then
        let (eneg, r1) :=
          match r with
          | sg :: r' =>
              if (sg =? 45)%N then (true, r')
              else if (sg =? 43)%N then (false, r')
              else (false, r)
          | [] => (false, r)
          end in
        match take_digits r1 with
        | ([], _) => None
        | (es, r2) =>
            Some ((if eneg then - digits_value es else digits_value es)%Z, r2)
        end
      else Some (0%Z, s)
  | [] => Some (0%Z, s)
  end.

Definition parse_number (s : jsstring) : presult (Z * Z) :=
  let (negative, s1) := parse_sign s in
  match parse_int s1 with
  | None => PSyntaxError
  | Some (ds, s2) =>
      match parse_frac s2 with
      | None => PSyntaxError
      | Some (fs, s3) =>
          match parse_exp s3 with
          | None => PSyntaxError
          | Some (ex, s4) =>
              let m := digits_value (ds ++ fs) in
              POk ((if negative then - m else m)%Z,
                   (ex - Z.of_nat (List.length fs))%Z) s4
          end
      end
  end.

Definition expect (lit : jsstring) (v : json) (s : jsstring) : presult json :=
  if startsWith lit s then POk v (skipn (List.length lit) s) else PSyntaxError.

(** ** The syntactic grammar: values, arrays, objects *)

Fixpoint parse_value (fuel : nat) (s : jsstring) : presult json :=
  match fuel with
  | O => POutOfFuel
  | S fuel' =>
      match skip_ws s with
      | [] => PSyntaxError
      | c :: r =>
          if (c =? 123)%N then                         (* { *)
            match skip_ws r with
            | c2 :: r2 =>
                if (c2 =? 125)%N then POk (JObj []) r2
                else parse_members fuel' [] (c2 :: r2)
            | [] => PSyntaxError
            end
          else if (c =? 91)%N then                     (* [ *)
            match skip_ws r with
            | c2 :: r2 =>
                if (c2 =? 93)%N then POk (JArr []) r2
                else parse_elements fuel' [] (c2 :: r2)
            | [] => PSyntaxError
            end
          else if (c =? DQUOTE)%N then
            match parse_string r with
            | POk x r' => POk (JStr x) r'
            | PSyntaxError => PSyntaxError
            | POutOfFuel => POutOfFuel
            end
          else if (c =? 116)%N then expect (str "true") (JBool true) (c :: r)
          else if (c =? 102)%N then expect (str "false") (JBool false) (c :: r)
          else if (c =? 110)%N then expect (str "null") JNull (c :: r)
          else
            match parse_number (c :: r) with
            | POk (m, e) r' => POk (JNum m e) r'
            | PSyntaxError => PSyntaxError
            | POutOfFuel => POutOfFuel
            end
      end
  end

(** the elements of an array, from the first element on *)
with parse_elements (fuel : nat) (acc : list json) (s : jsstring)
  : presult json :=
  match fuel with
  | O => POutOfFuel
  | S fuel' =>
      match parse_value fuel' s with
      | POk v r =>
          match skip_ws r with
          | c :: r' =>
              if (c =? 44)%N then parse_elements fuel' (acc ++ [v]) r'
              else if (c =? 93)%N then POk (JArr (acc ++ [v])) r'
              else PSyntaxError
          | [] => PSyntaxError
          end
      | other => other
      end
  end

(** the members of an object, from the first key on (white space
    before the key already skipped) *)
with parse_members (fuel : nat) (acc : list (jsstring * json)) (s : jsstring)
  : presult json :=
  match fuel with
  | O => POutOfFuel
  | S fuel' =>
      match s with
      | q :: r =>
          if (q =? DQUOTE)%N then
            match parse_string r with
            | POk k r1 =>
                match skip_ws r1 with
                | colon :: r2 =>
                    if (colon =? 58)%N then
                      match parse_value fuel' r2 with
                      | POk v r3 =>
                          match skip_ws r3 with
                          | c :: r4 =>
                              if (c =? 44)%N then
                                parse_members fuel' (set_member k v acc) (skip_ws r4)
                              else if (c =? 125)%N then
                                POk (JObj (set_member k v acc)) r4
                              else PSyntaxError
                          | [] => PSyntaxError
                          end
                      | other => other
                      end
                    else PSyntaxError
                | [] => PSyntaxError
                end
            | PSyntaxError => PSyntaxError
            | POutOfFuel => POutOfFuel
            end
          else PSyntaxError
      | [] => PSyntaxError
      end
  end.

(** [JSON.parse(text)]: [Some v] when [text] is one JSON value between
    optional white space, [None] when it throws a [SyntaxError]. *)
Definition JSON_parse (text : jsstring) : option json :=
  match parse_value (2 * List.length text + 1) text with
  | POk v r => match skip_ws r with [] => Some v | _ :: _ => None end
  | _ => None
  end.

(** ** What the program asks of a parsed value *)

(** A parsed number is zero when its literal rounds to zero: when it is
    at most half the least positive double, [2^-1075]. *)
Definition json_number_nonzero (m e : Z) : bool :=
  if (m =? 0)%Z then false
  else if (0 <=? e)%Z then true
  else (10 ^ (- e) <? Z.abs m * 2 ^ 1075)%Z.

(** [ToBoolean] *)
Definition truthy (v : json) : bool :=
  match v with
  | JNull => false
  | JBool b => b
  | JNum m e => json_number_nonzero m e
  | JStr s => match s with [] => false | _ :: _ => true end
  | JArr _ | JObj _ => true
  end.

(** The result of reading property [k] of a value ([v.k]), for the
    property names this program reads ([components], [defects], [jumper],
    [from], [to]): none of them is defined on a built-in prototype, so an
    array, a string, a number and a boolean answer [undefined]. *)
Inductive get_result :=
| Got (v : json)
| Undefined
| ThrowsTypeError.      (* reading a property of [null] *)

Definition get (v : json) (k : jsstring) : get_result :=
  match v with
  | JNull => ThrowsTypeError
  | JObj ms => match get_member k ms with Some x => Got x | None => Undefined end
  | _ => Undefined
  end.

(** [v.k] is defined and truthy *)
Definition field_truthy (v : json) (k : jsstring) : bool :=
  match get v k with
  | Got x => truthy x
  | _ => false
  end.

Definition has_key (v : json) (k : jsstring) : bool :=
  match v with
  | JObj ms => match get_member k ms with Some _ => true | None => false end
  | _ => false
  end.

End Json.

(* ================================================================== *)
(** * Regular expressions: the backtracking matcher of ECMA-262 22.2.2 *)
(* ================================================================== *)

Module Regex.
Import Js.

(** The pattern constructs the sources use: a literal run of
    characters, a greedy [c*] and a lazy [c*?] over a character class, a
    sequence and a capture group (the patterns have one group at most). *)
Inductive regex :=
| Lit (s : jsstring)
| StarGreedy (cls : code_unit -> bool)
| StarLazy (cls : code_unit -> bool)
| Seq (r1 r2 : regex)
| Group (r : regex).

Section Matcher.
Context {R : Type}.

Fixpoint lit (p s : jsstring) (k : jsstring -> option R) : option R :=
  match p with
  | [] => k s
  | a :: p' =>
      match s with
      | b :: s' => if (a =? b)%N then lit p' s' k else None
      | [] => None
      end
  end.

(** greedy: take one more character first, fall back to the
    continuation at this position *)
Fixpoint star_greedy (cls : code_unit -> bool) (s : jsstring)
    (k : jsstring -> option R) : option R :=
  match s with
  | c :: s' =>
      if cls c then
        match star_greedy cls s' k with
        | Some r => Some r
        | None => k s
        end
      else k s
  | [] => k s
  end.

(** lazy: try the continuation first, take one more character when it
    fails *)
Fixpoint star_lazy (cls : code_unit -> bool) (s : jsstring)
    (k : jsstring -> option R) : option R :=
  match k s with
  | Some r => Some r
  | None =>
      match s with
      | c :: s' => if cls c then star_lazy cls s' k else None
      | [] => None
      end
  end.

(** [matcher r s cap k]: match [r] at the head of [s], then run the
    continuation on what is left and on the capture. *)
Fixpoint matcher (r : regex) (s : jsstring) (cap : option jsstring)
    (k : jsstring -> option jsstring -> option R) : option R :=
  match r with
  | Lit p => lit p s (fun s' => k s' cap)
  | StarGreedy c => star_greedy c s (fun s' => k s' cap)
  | StarLazy c => star_lazy c s (fun s' => k s' cap)
  | Seq a b => matcher a s cap (fun s' cap' => matcher b s' cap' k)
  | Group a =>
      matcher a s cap
        (fun s' _ => k s' (Some (firstn (List.length s - List.length s') s)))
  end.

End Matcher.

(** The match object: [index], [match[0]], [match[1]] and the input
    after the match. *)
Record match_result := {
  index : nat;
  matched : jsstring;
  group1 : option jsstring;
  after : jsstring
}.

Definition match_at (r : regex) (s : jsstring)
  : option (jsstring * option jsstring) :=
  matcher r s None (fun rest cap => Some (rest, cap)).

(** [RegExp.prototype.exec] without the [g] flag: the first start
    position, from the left, at which the pattern matches. *)
Fixpoint exec_from (r : regex) (i : nat) (s : jsstring) : option match_result :=
  match match_at r s with
  | Some (rest, cap) =>
      Some {| index := i;
              matched := firstn (List.length s - List.length rest) s;
              group1 := cap;
              after := rest |}
  | None =>
      match s with
      | [] => None
      | _ :: s' => exec_from r (S i) s'
      end
  end.

(** [s.match(r)] for a pattern without the [g] flag *)
Definition match_ (s : jsstring) (r : regex) : option match_result :=
  exec_from r 0 s.

(** [s.replace(r, '')] for a pattern without the [g] flag: the first
    match is removed. *)
Definition replace_with_empty (s : jsstring) (r : regex) : jsstring :=
  match match_ s r with
  | None => s
  | Some m => firstn (index m) s ++ after m
  end.

Definition any_char (c : code_unit) : bool := true.

(** the first character after leading white space is a backtick *)
Definition fence_after_space (s : jsstring) : bool :=
  match trimStart s with
  | c :: _ => N.eqb c BACKTICK
  | [] => false
  end.

End Regex.

(* ================================================================== *)
(** * types.ts *)
(* ================================================================== *)

Module Types.
Import Js.

Record BoundingBox := { x : number; y : number; w : number; h : number }.

Inductive Presence := Presence_missing | Presence_ok.
Inductive Condition := Condition_burnt | Condition_corroded | Condition_ok.
Definition DefectType := jsstring.

(** the string a [Presence] or a [Condition] is at run time *)
Definition Presence_str (p : Presence) : jsstring :=
  match p with Presence_missing => str "missing" | Presence_ok => str "ok" end.
Definition Condition_str (c : Condition) : jsstring :=
  match c with
  | Condition_burnt => str "burnt"
  | Condition_corroded => str "corroded"
  | Condition_ok => str "ok"
  end.

(** An optional field ([temperature?: number]) is an [option]: [None]
    is [undefined]. *)
Module Component.
Record t := {
  designator : jsstring;
  mpn : jsstring;
  bbox : BoundingBox;
  presence : Presence;
  condition : Condition;
  confidence : number;
  temperature : option number;
  datasheetUrl : option jsstring;
  maxVoltage : option number
}.
End Component.

Module Defect.
Record t := {
  id : jsstring;
  type : DefectType;
  bbox : BoundingBox;
  confidence : number;
  description : option jsstring
}.
End Defect.

Record Replacement := { r_mpn : jsstring; reason : jsstring }.
Record Alternative := { original_mpn : jsstring; replacements : list Replacement }.

Record Advice := {
  quick_actions : list jsstring;
  alternatives : list Alternative;
  next_steps : list jsstring;
  repair_cost : option number
}.

Record PcbAnalysis := {
  components : list Component.t;
  defects : list Defect.t;
  summary : jsstring;
  advice : Advice
}.

(** [JumperSuggestion]: the value held at run time is the [jumper]
    object of the parsed block, as [JSON.parse] built it. *)
Definition JumperSuggestion := Json.json.

Inductive Role := user | model.

Module ChatMessage.
Record t := {
  role : Role;
  text : jsstring;
  jumperSuggestion : option JumperSuggestion
}.
End ChatMessage.

(** The operands of [&&] and [||] in the sources are numbers, [null],
    [undefined] and booleans. *)
Inductive jsval :=
| VNull
| VUndefined
| VNumber (n : number)
| VBoolean (b : bool).

Definition ToBoolean (v : jsval) : bool :=
  match v with
  | VNull | VUndefined => false
  | VNumber n => number_truthy n
  | VBoolean b => b
  end.

End Types.

(* ================================================================== *)
(** * services/geminiService.ts *)
(* ================================================================== *)

Module GeminiService.
Import Js Json Types.

(** ** Exceptions and effects *)

(** What a promise of this module is rejected with: an [Error] (of any
    subclass) with its message, or a thrown value that is not an
    [Error]. *)
Inductive exn :=
| Error (message : jsstring)
| NotAnError.

(** What the body of the [try] block of [analyzePcbImage] can throw,
    all of it caught by its [catch]: the [SyntaxError] of [JSON.parse],
    the [TypeError] of reading a property of [null], the [Error] the body
    throws itself. *)
Inductive thrown_in_try :=
| ThrownSyntaxError
| ThrownTypeError
| ThrownError (message : jsstring).

(** The three failures of the analysis client by the name the
    specification gives them. *)
Definition ConfigurationError : exn :=
  Error (str "API_KEY environment variable not set.").
Definition MalformedResponse : exn :=
  Error (str "AI returned invalid data format. Please try again.").

Record File := { file_type : jsstring; file_base64 : jsstring }.

Record InlineData := { data : jsstring; mimeType : jsstring }.

(** The [generateContent] request; the instruction text and the response
    schema, two constants of the module, are not repeated in it. *)
Record GenerateContentRequest := {
  req_model : jsstring;
  req_image : InlineData;
  responseMimeType : jsstring;
  req_temperature : number
}.

(** What the function does to the outside, in order. *)
Inductive event :=
| NewGoogleGenAI (apiKey : jsstring)
| ReadAsDataURL (file : File)
| GenerateContent (request : GenerateContentRequest).

Definition is_network_call (e : event) : bool :=
  match e with GenerateContent _ => true | _ => false end.

(** A computation: the events performed and the value returned or the
    exception thrown. *)
Definition M (A : Type) : Type := list event * (exn + A).

Definition ret {A} (a : A) : M A := ([], inr a).
Definition throw {A} (e : exn) : M A := ([], inl e).
Definition emit (ev : event) : M unit := ([ev], inr tt).
Definition bind {A B} (m : M A) (f : A -> M B) : M B :=
  match m with
  | (t, inl e) => (t, inl e)
  | (t, inr a) => let (t', r) := f a in (t ++ t', r)
  end.

#[local] Notation "x <- m ;; k" := (bind m (fun x => k))
  (at level 61, m at next level, right associativity).
#[local] Notation "m ;;; k" := (bind m (fun _ => k))
  (at level 61, right associativity).

(** The remote model: the reply text of a request, or the rejection. *)
Definition Service := GenerateContentRequest -> exn + jsstring.

Definition fileToGenerativePart (file : File) : M InlineData :=
  emit (ReadAsDataURL file) ;;;
  ret {| data := file_base64 file; mimeType := file_type file |}.

(** [process.env.API_KEY] is a string or [undefined]; [!key] holds of
    [undefined] and of the empty string. *)
Definition key_truthy (k : option jsstring) : bool :=
  match k with
  | Some (_ :: _) => true
  | _ => false
  end.

(** The body of the [try] block: [JSON.parse], then the check of the two
    fields, with the exception each step can throw. *)
Definition parse_and_check (jsonText : jsstring) : thrown_in_try + json :=
  let missing := ThrownError (str "AI response is missing required fields.") in
  match JSON_parse jsonText with
  | None => inl ThrownSyntaxError
  | Some parsed =>
      match get parsed (str "components") with
      | ThrowsTypeError => inl ThrownTypeError
      | Undefined => inl missing
      | Got c =>
          if negb (truthy c) then inl missing
          else
            match get parsed (str "defects") with
            | ThrowsTypeError => inl ThrownTypeError
            | Undefined => inl missing
            | Got d => if negb (truthy d) then inl missing else inr parsed
            end
      end
  end.

(** [try { ... } catch (e) { throw new Error("AI returned invalid ...") }] *)
Definition validate_reply (jsonText : jsstring) : exn + json :=
  match parse_and_check jsonText with
  | inr parsed => inr parsed
  | inl _ => inl MalformedResponse
  end.

(** the argument of [ai.models.generateContent] *)
Definition analysis_request (imagePart : InlineData) : GenerateContentRequest :=
  {| req_model := str "gemini-2.5-flash";
     req_image := imagePart;
     responseMimeType := str "application/json";
     req_temperature := Finite 1 (-1) |}.

Definition analyzePcbImage (API_KEY : option jsstring) (service : Service)
    (imageFile : File) : M json :=
  if negb (key_truthy API_KEY) then throw ConfigurationError
  else
    emit (NewGoogleGenAI (match API_KEY with Some k => k | None => [] end)) ;;;
    imagePart <- fileToGenerativePart imageFile ;;
    let request := analysis_request imagePart in
    emit (GenerateContent request) ;;;
    match service request with
    | inl e => throw e
    | inr response_text =>
        let jsonText := trim response_text in
        match validate_reply jsonText with
        | inl e => throw e
        | inr parsed => ret parsed
        end
    end.

(** [analyze] on a reply: what [analyzePcbImage] returns once the
    service has answered [reply]. *)
Definition analyze_reply (reply : jsstring) : exn + json :=
  validate_reply (trim reply).

(** ** The chat client *)

Definition getStatusText (component : Component.t) : jsstring :=
  match Component.condition component with
  | Condition_burnt => str "Burnt"
  | Condition_corroded => str "Corroded"
  | Condition_ok =>
      match Component.presence component with
      | Presence_missing => str "Missing"
      | Presence_ok => str "OK"
      end
  end.

(** [context: { component?: Component; boardVoltage?: number }] *)
Record Context := {
  component : option Component.t;
  boardVoltage : option number
}.

Definition component_prefix (c : Component.t) : jsstring :=
  str "Context: I have selected component " ++ Component.designator c
  ++ str " (" ++ Component.mpn c ++ str "). Its condition is '"
  ++ getStatusText c ++ str "'." ++ [LF; LF] ++ str "My question: ".

Definition voltage_note (v : number) : jsstring :=
  [LF] ++ str "(Note: The board voltage is set to " ++ toString v ++ str "V).".

(** The text [sendMessage] hands to [chat.sendMessage]. *)
Definition contextualMessage (message : jsstring) (context : Context) : jsstring :=
  let m1 :=
    match component context with
    | Some c => component_prefix c ++ message
    | None => message
    end in
  match boardVoltage context with
  | Some v => if number_truthy v then m1 ++ voltage_note v else m1
  | None => m1
  end.

(** The chat session handle. *)
Record Chat := { chat_apiKey : jsstring; chat_id : nat }.

Record ChatRequest := { to_chat : Chat; outbound : jsstring }.

Definition sendMessage (chat : Chat) (message : jsstring) (context : Context)
  : ChatRequest :=
  {| to_chat := chat; outbound := contextualMessage message context |}.

End GeminiService.

(* ================================================================== *)
(** * The voltage test and the two component lists *)
(* ================================================================== *)

(** [boardVoltage && c.maxVoltage && boardVoltage > c.maxVoltage], the
    expression AnalysisViewer.tsx, ResultsPanel.tsx, InfoPopover.tsx and
    pdfService.ts all write: [a && b] is [a] when [a] is falsy and [b]
    otherwise. *)
Module Voltage.
Import Js Types.

Definition and_ (a : jsval) (b : jsval) : jsval :=
  if ToBoolean a then b else a.

Definition of_nullable (v : option number) : jsval :=
  match v with Some n => VNumber n | None => VNull end.

Definition of_optional (v : option number) : jsval :=
  match v with Some n => VNumber n | None => VUndefined end.

(** [ToNumber] *)
Definition ToNumber (v : jsval) : number :=
  match v with
  | VNull => num 0
  | VUndefined => NaN
  | VNumber n => n
  | VBoolean b => if b then num 1 else num 0
  end.

(** the relational operator [a > b] *)
Definition gt (a b : jsval) : jsval :=
  VBoolean (number_gt (ToNumber a) (ToNumber b)).

Definition mismatch (boardVoltage : option number) (c : Component.t) : jsval :=
  and_ (of_nullable boardVoltage)
       (and_ (of_optional (Component.maxVoltage c))
             (gt (of_nullable boardVoltage)
                 (of_optional (Component.maxVoltage c)))).

Definition is_ok_presence (p : Presence) : bool :=
  match p with Presence_ok => true | Presence_missing => false end.
Definition is_ok_condition (c : Condition) : bool :=
  match c with Condition_ok => true | _ => false end.

(** [c.presence !== 'ok' || c.condition !== 'ok' || (mismatch)] *)
Definition has_issue (boardVoltage : option number) (c : Component.t) : bool :=
  negb (is_ok_presence (Component.presence c))
  || negb (is_ok_condition (Component.condition c))
  || ToBoolean (mismatch boardVoltage c).

(** [c.presence === 'ok' && c.condition === 'ok' && !(mismatch)] *)
Definition is_ok (boardVoltage : option number) (c : Component.t) : bool :=
  is_ok_presence (Component.presence c)
  && is_ok_condition (Component.condition c)
  && negb (ToBoolean (mismatch boardVoltage c)).

End Voltage.

(* ================================================================== *)
(** * services/pdfService.ts *)
(* ================================================================== *)

Module PdfService.
Import Js Types.

Definition componentsWithIssues (analysis : PcbAnalysis)
    (boardVoltage : option number) : list Component.t :=
  filter (Voltage.has_issue boardVoltage) (components analysis).

Definition okComponents (analysis : PcbAnalysis)
    (boardVoltage : option number) : list Component.t :=
  filter (Voltage.is_ok boardVoltage) (components analysis).

End PdfService.

(* ================================================================== *)
(** * components/AnalysisViewer.tsx *)
(* ================================================================== *)

Module AnalysisViewer.
Import Js Types.

Definition hasVoltageMismatch (boardVoltage : option number)
    (component : Component.t) : jsval :=
  Voltage.mismatch boardVoltage component.

(** [showVoltageWarning={hasVoltageMismatch(component)}] *)
Definition showVoltageWarning (boardVoltage : option number)
    (component : Component.t) : bool :=
  ToBoolean (hasVoltageMismatch boardVoltage component).

(** [selectedId === id], with [selectedId : string | null] *)
Definition is_selected (selectedId : option jsstring) (id : jsstring) : bool :=
  match selectedId with
  | Some s => jsstring_eqb s id
  | None => false
  end.

(** [onClick={() => setSelectedId(selectedId === id ? null : id)}], for
    the box of a component ([id] its designator) and of a defect. *)
Definition onClick (selectedId : option jsstring) (id : jsstring)
  : option jsstring :=
  if is_selected selectedId id then None else Some id.

End AnalysisViewer.

(* ================================================================== *)
(** * components/ResultsPanel.tsx *)
(* ================================================================== *)

Module ResultsPanel.
Import Js Types.

(** the count of the [Issues] card *)
Definition componentsWithIssues (components : list Component.t)
    (boardVoltage : option number) : list Component.t :=
  filter (Voltage.has_issue boardVoltage) components.

(** [handleItemClick] of the explorer view *)
Definition handleItemClick (selectedId : option jsstring) (id : jsstring)
  : option jsstring :=
  if AnalysisViewer.is_selected selectedId id then None else Some id.

Section ExplorerView.

(** [String.prototype.toLowerCase], with the case mapping of Unicode. *)
Variable toLowerCase : jsstring -> jsstring.

(** the search filter: [searchTerm ? components.filter(...) : components] *)
Definition filtered (components : list Component.t) (searchTerm : jsstring)
  : list Component.t :=
  let lowercasedSearch := toLowerCase searchTerm in
  match searchTerm with
  | [] => components
  | _ :: _ =>
      filter (fun c =>
                includes (toLowerCase (Component.designator c)) lowercasedSearch
                || includes (toLowerCase (Component.mpn c)) lowercasedSearch)
             components
  end.

Definition explorer_componentsWithIssues (components : list Component.t)
    (searchTerm : jsstring) (boardVoltage : option number) :=
  filter (Voltage.has_issue boardVoltage) (filtered components searchTerm).

Definition explorer_okComponents (components : list Component.t)
    (searchTerm : jsstring) (boardVoltage : option number) :=
  filter (Voltage.is_ok boardVoltage) (filtered components searchTerm).

End ExplorerView.

End ResultsPanel.

(* ================================================================== *)
(** * App.tsx *)
(* ================================================================== *)

Module App.
Import Js Json Types.

(** an object URL, as [URL.createObjectURL] hands them out *)
Definition ObjectURL := nat.

(** ** The state of the component: one field per [useState] *)

Record State := {
  analysis : option PcbAnalysis;
  imageFile : option GeminiService.File;
  imageUrl : option ObjectURL;
  isLoading : bool;
  error : option jsstring;
  hoveredId : option jsstring;
  selectedId : option jsstring;
  boardVoltage : option number;
  chat : option GeminiService.Chat;
  chatHistory : list ChatMessage.t;
  isChatLoading : bool;
  jumperSuggestion : option JumperSuggestion;
  isReporting : bool
}.

Definition initial : State :=
  {| analysis := None; imageFile := None; imageUrl := None;
     isLoading := false; error := None; hoveredId := None;
     selectedId := None; boardVoltage := None; chat := None;
     chatHistory := []; isChatLoading := false;
     jumperSuggestion := None; isReporting := false |}.

(** the setters [useState] returns *)
Definition setAnalysis (v : option PcbAnalysis) (s : State) : State :=
  {| analysis := v;
     imageFile := imageFile s;
     imageUrl := imageUrl s;
     isLoading := isLoading s;
     error := error s;
     hoveredId := hoveredId s;
     selectedId := selectedId s;
     boardVoltage := boardVoltage s;
     chat := chat s;
     chatHistory := chatHistory s;
     isChatLoading := isChatLoading s;
     jumperSuggestion := jumperSuggestion s;
     isReporting := isReporting s |}.

Definition setImageFile (v : option GeminiService.File) (s : State) : State :=
  {| analysis := analysis s;
     imageFile := v;
     imageUrl := imageUrl s;
     isLoading := isLoading s;
     error := error s;
     hoveredId := hoveredId s;
     selectedId := selectedId s;
     boardVoltage := boardVoltage s;
     chat := chat s;
     chatHistory := chatHistory s;
     isChatLoading := isChatLoading s;
     jumperSuggestion := jumperSuggestion s;
     isReporting := isReporting s |}.

Definition setImageUrl (v : option ObjectURL) (s : State) : State :=
  {| analysis := analysis s;
     imageFile := imageFile s;
     imageUrl := v;
     isLoading := isLoading s;
     error := error s;
     hoveredId := hoveredId s;
     selectedId := selectedId s;
     boardVoltage := boardVoltage s;
     chat := chat s;
     chatHistory := chatHistory s;
     isChatLoading := isChatLoading s;
     jumperSuggestion := jumperSuggestion s;
     isReporting := isReporting s |}.

Definition setIsLoading (v : bool) (s : State) : State :=
  {| analysis := analysis s;
     imageFile := imageFile s;
     imageUrl := imageUrl s;
     isLoading := v;
     error := error s;
     hoveredId := hoveredId s;
     selectedId := selectedId s;
     boardVoltage := boardVoltage s;
     chat := chat s;
     chatHistory := chatHistory s;
     isChatLoading := isChatLoading s;
     jumperSuggestion := jumperSuggestion s;
     isReporting := isReporting s |}.

Definition setError (v : option jsstring) (s : State) : State :=
  {| analysis := analysis s;
     imageFile := imageFile s;
     imageUrl := imageUrl s;
     isLoading := isLoading s;
     error := v;
     hoveredId := hoveredId s;
     selectedId := selectedId s;
     boardVoltage := boardVoltage s;
     chat := chat s;
     chatHistory := chatHistory s;
     isChatLoading := isChatLoading s;
     jumperSuggestion := jumperSuggestion s;
     isReporting := isReporting s |}.

Definition setHoveredId (v : option jsstring) (s : State) : State :=
  {| analysis := analysis s;
     imageFile := imageFile s;
     imageUrl := imageUrl s;
     isLoading := isLoading s;
     error := error s;
     hoveredId := v;
     selectedId := selectedId s;
     boardVoltage := boardVoltage s;
     chat := chat s;
     chatHistory := chatHistory s;
     isChatLoading := isChatLoading s;
     jumperSuggestion := jumperSuggestion s;
     isReporting := isReporting s |}.

Definition setSelectedId (v : option jsstring) (s : State) : State :=
  {| analysis := analysis s;
     imageFile := imageFile s;
     imageUrl := imageUrl s;
     isLoading := isLoading s;
     error := error s;
     hoveredId := hoveredId s;
     selectedId := v;
     boardVoltage := boardVoltage s;
     chat := chat s;
     chatHistory := chatHistory s;
     isChatLoading := isChatLoading s;
     jumperSuggestion := jumperSuggestion s;
     isReporting := isReporting s |}.

Definition setBoardVoltage (v : option number) (s : State) : State :=
  {| analysis := analysis s;
     imageFile := imageFile s;
     imageUrl := imageUrl s;
     isLoading := isLoading s;
     error := error s;
     hoveredId := hoveredId s;
     selectedId := selectedId s;
     boardVoltage := v;
     chat := chat s;
     chatHistory := chatHistory s;
     isChatLoading := isChatLoading s;
     jumperSuggestion := jumperSuggestion s;
     isReporting := isReporting s |}.

Definition setChat (v : option GeminiService.Chat) (s : State) : State :=
  {| analysis := analysis s;
     imageFile := imageFile s;
     imageUrl := imageUrl s;
     isLoading := isLoading s;
     error := error s;
     hoveredId := hoveredId s;
     selectedId := selectedId s;
     boardVoltage := boardVoltage s;
     chat := v;
     chatHistory := chatHistory s;
     isChatLoading := isChatLoading s;
     jumperSuggestion := jumperSuggestion s;
     isReporting := isReporting s |}.

Definition setChatHistory (v : list ChatMessage.t) (s : State) : State :=
  {| analysis := analysis s;
     imageFile := imageFile s;
     imageUrl := imageUrl s;
     isLoading := isLoading s;
     error := error s;
     hoveredId := hoveredId s;
     selectedId := selectedId s;
     boardVoltage := boardVoltage s;
     chat := chat s;
     chatHistory := v;
     isChatLoading := isChatLoading s;
     jumperSuggestion := jumperSuggestion s;
     isReporting := isReporting s |}.

Definition setIsChatLoading (v : bool) (s : State) : State :=
  {| analysis := analysis s;
     imageFile := imageFile s;
     imageUrl := imageUrl s;
     isLoading := isLoading s;
     error := error s;
     hoveredId := hoveredId s;
     selectedId := selectedId s;
     boardVoltage := boardVoltage s;
     chat := chat s;
     chatHistory := chatHistory s;
     isChatLoading := v;
     jumperSuggestion := jumperSuggestion s;
     isReporting := isReporting s |}.

Definition setJumperSuggestion (v : option JumperSuggestion) (s : State) : State :=
  {| analysis := analysis s;
     imageFile := imageFile s;
     imageUrl := imageUrl s;
     isLoading := isLoading s;
     error := error s;
     hoveredId := hoveredId s;
     selectedId := selectedId s;
     boardVoltage := boardVoltage s;
     chat := chat s;
     chatHistory := chatHistory s;
     isChatLoading := isChatLoading s;
     jumperSuggestion := v;
     isReporting := isReporting s |}.

Definition setIsReporting (v : bool) (s : State) : State :=
  {| analysis := analysis s;
     imageFile := imageFile s;
     imageUrl := imageUrl s;
     isLoading := isLoading s;
     error := error s;
     hoveredId := hoveredId s;
     selectedId := selectedId s;
     boardVoltage := boardVoltage s;
     chat := chat s;
     chatHistory := chatHistory s;
     isChatLoading := isChatLoading s;
     jumperSuggestion := jumperSuggestion s;
     isReporting := v |}.

(** ** handleReset *)

(** The setters [handleReset] calls, in its order.  [isChatLoading] and
    [isReporting] are not among them. *)
Definition handleReset (s : State) : State :=
  setJumperSuggestion None
   (setChatHistory []
    (setChat None
     (setBoardVoltage None
      (setSelectedId None
       (setHoveredId None
        (setError None
         (setIsLoading false
          (setImageUrl None
           (setImageFile None
            (setAnalysis None s)))))))))).

(** [if (imageUrl) URL.revokeObjectURL(imageUrl)], on the [imageUrl] the
    closure of [handleReset] holds. *)
Definition revoked_by_reset (closure_imageUrl : option ObjectURL)
  : list ObjectURL :=
  match closure_imageUrl with Some u => [u] | None => [] end.

(** ** handleImageUpload *)

(** The part that runs before the [await]: the reset, the new image,
    the loading flag; then [analyzePcbImage(file)] is called. *)
Definition handleImageUpload_begin (s : State) (file : GeminiService.File)
    (objectUrl : ObjectURL) : State :=
  setIsLoading true
   (setImageUrl (Some objectUrl)
    (setImageFile (Some file)
     (handleReset s))).

(** [err instanceof Error ? err.message
     : 'Failed to analyze PCB image. Please try again.'] *)
Definition error_text (err : GeminiService.exn) : jsstring :=
  match err with
  | GeminiService.Error message => message
  | GeminiService.NotAnError =>
      str "Failed to analyze PCB image. Please try again."
  end.

(** The part that runs when the promise of [analyzePcbImage] settles:
    [setAnalysis(result)] or [setError(...)], then [setIsLoading(false)]
    in the [finally] block. *)
Definition handleImageUpload_settled (s : State)
    (outcome : GeminiService.exn + PcbAnalysis) : State :=
  setIsLoading false
    match outcome with
    | inr result => setAnalysis (Some result) s
    | inl err => setError (Some (error_text err)) s
    end.

(** ** downloadBOM *)

Definition headers : list jsstring :=
  [str "Designator"; str "MPN"; str "Presence"; str "Condition";
   str "Confidence"; str "Temperature (C)"; str "Max Voltage (V)";
   str "Datasheet"].

(** [c.temperature ?? 'N/A'] inside a template literal *)
Definition number_or_NA (v : option number) : jsstring :=
  match v with Some n => toString n | None => str "N/A" end.

Definition string_or_NA (v : option jsstring) : jsstring :=
  match v with Some x => x | None => str "N/A" end.

Definition row (c : Component.t) : list jsstring :=
  [Component.designator c;
   Component.mpn c;
   Presence_str (Component.presence c);
   Condition_str (Component.condition c);
   toString (Component.confidence c);
   number_or_NA (Component.temperature c);
   number_or_NA (Component.maxVoltage c);
   string_or_NA (Component.datasheetUrl c)].

Definition quoted (v : jsstring) : jsstring := [DQUOTE] ++ v ++ [DQUOTE].

Definition csvRows (components : list Component.t) : list jsstring :=
  join (str ",") headers
  :: map (fun c => join (str ",") (map quoted (row c))) components.

(** The text of [bom_report.csv]; [None] when [downloadBOM] returns at
    its first line because there is no analysis. *)
Definition csvContent (analysis : option PcbAnalysis) : option jsstring :=
  match analysis with
  | None => None
  | Some a => Some (join [LF] (csvRows (components a)))
  end.

(** ** handleSendMessage *)

(** [/```json\s*(\{[\s\S]*?\})\s*```/] *)
Definition JUMPER_JSON_REGEX : Regex.regex :=
  Regex.Seq (Regex.Lit (str "```json"))
   (Regex.Seq (Regex.StarGreedy is_js_space)
    (Regex.Seq (Regex.Group
                  (Regex.Seq (Regex.Lit (str "{"))
                   (Regex.Seq (Regex.StarLazy Regex.any_char)
                              (Regex.Lit (str "}")))))
     (Regex.Seq (Regex.StarGreedy is_js_space)
                (Regex.Lit (str "```"))))).

(** A reply with a fenced block: some text, the opening fence, white
    space, an object text between braces, white space, the closing
    fence, some text. *)
Definition fenced (before ws1 body ws2 rest : jsstring) : jsstring :=
  before ++ str "```json" ++ ws1 ++ 123%N :: body ++ 125%N :: ws2
  ++ str "```" ++ rest.

Definition has_fenced_block (reply : jsstring) : Prop :=
  exists before ws1 body ws2 rest,
    all_space ws1 = true /\ all_space ws2 = true
    /\ reply = fenced before ws1 body ws2 rest.

(** A fenced block of the reply, by its parts. *)
Definition block_at (reply before ws1 body ws2 rest : jsstring) : Prop :=
  all_space ws1 = true /\ all_space ws2 = true
  /\ reply = fenced before ws1 body ws2 rest.

(** The first fenced block of the reply: no block starts before it, and
    of the blocks that start where it starts none has a shorter text
    between the braces. *)
Definition first_block (reply before ws1 body ws2 rest : jsstring) : Prop :=
  block_at reply before ws1 body ws2 rest
  /\ forall before' ws1' body' ws2' rest',
       block_at reply before' ws1' body' ws2' rest' ->
       List.length before < List.length before'
       \/ List.length before = List.length before'
          /\ List.length body <= List.length body'.

(** [analysis?.components.find(c => c.designator === selectedId) || undefined] *)
Definition selectedComponent (s : State) : option Component.t :=
  match analysis s with
  | Some a =>
      find (fun c => AnalysisViewer.is_selected (selectedId s)
                       (Component.designator c))
           (components a)
  | None => None
  end.

(** [boardVoltage || undefined] *)
Definition voltage_or_undefined (v : option number) : option number :=
  match v with
  | Some n => if number_truthy n then Some n else None
  | None => None
  end.

Definition send_context (s : State) : GeminiService.Context :=
  {| GeminiService.component := selectedComponent s;
     GeminiService.boardVoltage := voltage_or_undefined (boardVoltage s) |}.

Definition userMessage (message : jsstring) : ChatMessage.t :=
  {| ChatMessage.role := user; ChatMessage.text := message;
     ChatMessage.jumperSuggestion := None |}.

(** The part before the [await]: [None] when the guard of the first
    line returns, else the new state and the request sent. *)
Definition handleSendMessage_begin (s : State) (message : jsstring)
  : option (State * GeminiService.ChatRequest) :=
  match chat s with
  | None => None
  | Some c =>
      if isChatLoading s then None
      else
        Some (setChatHistory (chatHistory s ++ [userMessage message])
                (setIsChatLoading true s),
              GeminiService.sendMessage c message (send_context s))
  end.

(** [v?.k], then [ToBoolean]: the operand of [&&] in
    [parsed.jumper?.from && parsed.jumper?.to]. *)
Definition optional_get_truthy (v : json) (k : jsstring) : bool :=
  match v with
  | JNull => false
  | _ => match get v k with Got x => truthy x | _ => false end
  end.

(** The inner [try] block on the text of the capture group: the
    [jumper] it yields, if any; a [SyntaxError] of [JSON.parse] and the
    [TypeError] of [null.jumper] are caught and leave [jumper] null. *)
Definition jumper_of_block (block : jsstring) : option JumperSuggestion :=
  match JSON_parse block with
  | None => None
  | Some parsed =>
      match get parsed (str "jumper") with
      | Got j =>
          if optional_get_truthy j (str "from")
             && optional_get_truthy j (str "to")
          then Some j else None
      | _ => None
      end
  end.

(** [match && match[1]], then the block above *)
Definition jumper_of_reply (responseText : jsstring) : option JumperSuggestion :=
  match Regex.match_ responseText JUMPER_JSON_REGEX with
  | Some m =>
      match Regex.group1 m with
      | Some (c :: g) => jumper_of_block (c :: g)
      | _ => None
      end
  | None => None
  end.

Definition modelMessage (responseText : jsstring) : ChatMessage.t :=
  {| ChatMessage.role := model;
     ChatMessage.text :=
       trim (Regex.replace_with_empty responseText JUMPER_JSON_REGEX);
     ChatMessage.jumperSuggestion := jumper_of_reply responseText |}.

Definition errorMessage : ChatMessage.t :=
  {| ChatMessage.role := model;
     ChatMessage.text := str "Sorry, I encountered an error. Please try again.";
     ChatMessage.jumperSuggestion := None |}.

(** The part that runs when the promise of [sendMessage] settles. *)
Definition handleSendMessage_settled (s : State)
    (outcome : GeminiService.exn + jsstring) : State :=
  setIsChatLoading false
    match outcome with
    | inr responseText =>
        let m := modelMessage responseText in
        let s1 :=
          match ChatMessage.jumperSuggestion m with
          | Some j => setJumperSuggestion (Some j) s
          | None => s
          end in
        setChatHistory (chatHistory s1 ++ [m]) s1
    | inl _ => setChatHistory (chatHistory s ++ [errorMessage]) s
    end.

(** ** handleGenerateReport *)

(** The part before the [await]: [None] when the guard of the first
    line returns. *)
Definition handleGenerateReport_begin (s : State) : option State :=
  match analysis s, imageUrl s with
  | Some _, Some _ => Some (setError None (setIsReporting true s))
  | _, _ => None
  end.

(** The part that runs when the promise of [generatePdfReport] settles. *)
Definition handleGenerateReport_settled (s : State)
    (outcome : GeminiService.exn + unit) : State :=
  setIsReporting false
    match outcome with
    | inr _ => s
    | inl (GeminiService.Error message) =>
        if jsstring_eqb message (str "SCREENSHOT_FAILED")
        then setError
               (Some (str "Screenshot failed - check the image's CORS policy.")) s
        else setError (Some (str "Could not generate PDF report.")) s
    | inl GeminiService.NotAnError =>
        setError (Some (str "Could not generate PDF report.")) s
    end.

(** ** The component as a transition system *)

(** The state of the component together with what is outside it: the
    promises of [analyzePcbImage], of [sendMessage] and of
    [generatePdfReport] that have not settled yet, the object URLs
    revoked so far, and a counter for fresh object URLs, request numbers
    and chat handles. *)
Record World := {
  ui : State;
  analysis_requests : list (nat * GeminiService.File);
  chat_requests : list (nat * GeminiService.ChatRequest);
  report_requests : list (nat * PcbAnalysis);
  revoked : list ObjectURL;
  fresh : nat
}.

Definition start : World :=
  {| ui := initial; analysis_requests := []; chat_requests := [];
     report_requests := []; revoked := []; fresh := 0 |}.

(** An event handler runs to its first [await] or to its end before
    anything else runs; the rest of an [async] handler runs when its
    promise settles.  The outcome of [analyzePcbImage] is the value it
    returns, read at the type [PcbAnalysis] it is cast to. *)
Inductive action :=
| Upload (file : GeminiService.File)       (* ImageUploader: onImageUpload *)
| StartOver                                (* Start Over, Try Again *)
| AnalysisSettles (request : nat) (outcome : GeminiService.exn + PcbAnalysis)
| Send (message : jsstring)                (* ChatView: onSendMessage *)
| ChatSettles (request : nat) (outcome : GeminiService.exn + jsstring)
| GenerateReport                           (* the Generate Report button *)
| ReportSettles (request : nat) (outcome : GeminiService.exn + unit)
| ChangeBoardVoltage (v : option number)   (* the board-voltage input *)
| Click (id : jsstring)                    (* a box of the viewer *)
| MouseEnter (id : jsstring)
| MouseLeave.

Definition is_some {A} (o : option A) : bool :=
  match o with Some _ => true | None => false end.

Definition is_pending {A} (request : nat) (l : list (nat * A)) : bool :=
  existsb (fun p => Nat.eqb (fst p) request) l.

Definition settle {A} (request : nat) (l : list (nat * A)) : list (nat * A) :=
  filter (fun p => negb (Nat.eqb (fst p) request)) l.

Definition with_ui (w : World) (s : State) : World :=
  {| ui := s; analysis_requests := analysis_requests w;
     chat_requests := chat_requests w; report_requests := report_requests w;
     revoked := revoked w; fresh := fresh w |}.

Section Run.

(** [process.env.API_KEY] *)
Variable API_KEY : option jsstring.

(** [useEffect(() => { if (analysis && !chat && process.env.API_KEY)
    setChat(createChat(process.env.API_KEY)) }, [analysis, chat])] *)
Definition useEffect_chat (w : World) : World :=
  match analysis (ui w), chat (ui w), API_KEY with
  | Some _, None, Some (c :: k) =>
      {| ui := setChat (Some {| GeminiService.chat_apiKey := c :: k;
                                GeminiService.chat_id := fresh w |}) (ui w);
         analysis_requests := analysis_requests w;
         chat_requests := chat_requests w;
         report_requests := report_requests w;
         revoked := revoked w;
         fresh := S (fresh w) |}
  | _, _, _ => w
  end.

Definition handle (w : World) (a : action) : World :=
  match a with
  | Upload file =>
      (* [handleImageUpload] is memoised with no dependency: the
         [handleReset] it calls is the one of the first render, whose
         [imageUrl] is null, and revokes nothing *)
      {| ui := handleImageUpload_begin (ui w) file (fresh w);
         analysis_requests := analysis_requests w ++ [(S (fresh w), file)];
         chat_requests := chat_requests w;
         report_requests := report_requests w;
         revoked := revoked w ++ revoked_by_reset None;
         fresh := S (S (fresh w)) |}
  | StartOver =>
      {| ui := handleReset (ui w);
         analysis_requests := analysis_requests w;
         chat_requests := chat_requests w;
         report_requests := report_requests w;
         revoked := revoked w ++ revoked_by_reset (imageUrl (ui w));
         fresh := fresh w |}
  | AnalysisSettles request outcome =>
      if is_pending request (analysis_requests w) then
        {| ui := handleImageUpload_settled (ui w) outcome;
           analysis_requests := settle request (analysis_requests w);
           chat_requests := chat_requests w;
           report_requests := report_requests w;
           revoked := revoked w;
           fresh := fresh w |}
      else w
  | Send message =>
      match handleSendMessage_begin (ui w) message with
      | Some (s, request) =>
          {| ui := s;
             analysis_requests := analysis_requests w;
             chat_requests := chat_requests w ++ [(fresh w, request)];
             report_requests := report_requests w;
             revoked := revoked w;
             fresh := S (fresh w) |}
      | None => w
      end
  | ChatSettles request outcome =>
      if is_pending request (chat_requests w) then
        {| ui := handleSendMessage_settled (ui w) outcome;
           analysis_requests := analysis_requests w;
           chat_requests := settle request (chat_requests w);
           report_requests := report_requests w;
           revoked := revoked w;
           fresh := fresh w |}
      else w
  | GenerateReport =>
      match handleGenerateReport_begin (ui w), analysis (ui w) with
      | Some s, Some a =>
          {| ui := s;
             analysis_requests := analysis_requests w;
             chat_requests := chat_requests w;
             report_requests := report_requests w ++ [(fresh w, a)];
             revoked := revoked w;
             fresh := S (fresh w) |}
      | _, _ => w
      end
  | ReportSettles request outcome =>
      if is_pending request (report_requests w) then
        {| ui := handleGenerateReport_settled (ui w) outcome;
           analysis_requests := analysis_requests w;
           chat_requests := chat_requests w;
           report_requests := settle request (report_requests w);
           revoked := revoked w;
           fresh := fresh w |}
      else w
  | ChangeBoardVoltage v => with_ui w (setBoardVoltage v (ui w))
  | Click id =>
      with_ui w (setSelectedId (AnalysisViewer.onClick (selectedId (ui w)) id)
                   (ui w))
  | MouseEnter id => with_ui w (setHoveredId (Some id) (ui w))
  | MouseLeave => with_ui w (setHoveredId None (ui w))
  end.

(** one action, then the effect of the render that follows *)
Definition step (w : World) (a : action) : World :=
  useEffect_chat (handle w a).

Definition run (w : World) (l : list action) : World := fold_left step l w.

(** What the page offers in a state: the uploader is rendered when there
    is no image, the Start Over button when there is one or a request is
    loading, Try Again with an error, the results panel and the viewer
    with an analysis and an image, the voltage input and the report
    button with an analysis; a promise can settle while it is pending. *)
Definition offered (w : World) (a : action) : bool :=
  let s := ui w in
  match a with
  | Upload _ => negb (is_some (imageUrl s))
  | StartOver => is_some (imageUrl s) || isLoading s || is_some (error s)
  | AnalysisSettles request _ => is_pending request (analysis_requests w)
  | ChatSettles request _ => is_pending request (chat_requests w)
  | ReportSettles request _ => is_pending request (report_requests w)
  | Send _ =>
      is_some (analysis s) && is_some (imageUrl s) && negb (isChatLoading s)
  | GenerateReport => is_some (analysis s) && negb (isReporting s)
  | ChangeBoardVoltage _ => is_some (analysis s)
  | Click _ | MouseEnter _ | MouseLeave =>
      is_some (analysis s) && is_some (imageUrl s)
  end.

(** every action of the list is offered in the state it is taken in *)
Fixpoint all_offered (w : World) (l : list action) : bool :=
  match l with
  | [] => true
  | a :: l' => offered w a && all_offered (step w a) l'
  end.

End Run.

End App.

(* ================================================================== *)
(** * [encodeURIComponent] and services/datasheetService.ts *)
(* ================================================================== *)

Module DatasheetService.
Import Js.

(** ECMA-262 19.2.6: the characters [encodeURIComponent] leaves as they
    are: letters, digits and [- _ . ! ~ * ' ( )]. *)
Definition is_unreserved (c : code_unit) : bool :=
  ((48 <=? c) && (c <=? 57)           (* 0-9 *)
   || (65 <=? c) && (c <=? 90)        (* A-Z *)
   || (97 <=? c) && (c <=? 122)       (* a-z *)
   || (c =? 45) || (c =? 95) || (c =? 46) || (c =? 33) || (c =? 126)
   || (c =? 42) || (c =? 39) || (c =? 40) || (c =? 41))%N.

Definition is_high_surrogate (c : code_unit) : bool :=
  ((55296 <=? c) && (c <=? 56319))%N.          (* D800 .. DBFF *)
Definition is_low_surrogate (c : code_unit) : bool :=
  ((56320 <=? c) && (c <=? 57343))%N.          (* DC00 .. DFFF *)

Definition hex_digit (n : N) : code_unit :=
  (if n <? 10 then 48 + n else 55 + n)%N.      (* 0-9, A-F *)

(** [%XX] for one octet *)
Definition percent (octet : N) : jsstring :=
  [37%N; hex_digit ((octet / 16) mod 16); hex_digit (octet mod 16)].

(** the UTF-8 octets of a code point *)
Definition utf8 (cp : N) : list N :=
  (if cp <? 128 then [cp]
   else if cp <? 2048 then [192 + cp / 64; 128 + cp mod 64]
   else if cp <? 65536 then
     [224 + cp / 4096; 128 + (cp / 64) mod 64; 128 + cp mod 64]
   else
     [240 + cp / 262144; 128 + (cp / 4096) mod 64;
      128 + (cp / 64) mod 64; 128 + cp mod 64])%N.

Definition escape (cp : N) : jsstring := flat_map percent (utf8 cp).

(** [Encode(string, unreserved)]: [None] is the [URIError] thrown at an
    unpaired surrogate. *)
Fixpoint encodeURIComponent (s : jsstring) : option jsstring :=
  match s with
  | [] => Some []
  | c :: r =>
      if is_unreserved c then option_map (cons c) (encodeURIComponent r)
      else if is_low_surrogate c then None
      else if is_high_surrogate c then
        match r with
        | d :: r' =>
            if is_low_surrogate d then
              option_map
                (app (escape ((c - 55296) * 1024 + (d - 56320) + 65536)%N))
                (encodeURIComponent r')
            else None
        | [] => None
        end
      else option_map (app (escape c)) (encodeURIComponent r)
  end.

(** [openDatasheet(mpn)]: the URL handed to [window.open], or [None]
    when the promise is rejected by the [URIError]. *)
Definition openDatasheet (mpn : jsstring) : option jsstring :=
  match encodeURIComponent (mpn ++ str " datasheet pdf") with
  | Some query => Some (str "https://duckduckgo.com/?q=" ++ query)
  | None => None
  end.

End DatasheetService.

(* ================================================================== *)
(** * components/AnalysisViewer.tsx: the boxes *)
(* ================================================================== *)

Module ViewerBoxes.
Import Js Types.

Definition getBoxStyle (presence : Presence) (condition : Condition) : jsstring :=
  match condition with
  | Condition_burnt => str "border-status-error"
  | _ =>
      match presence with
      | Presence_missing => str "border-status-warn"
      | Presence_ok => str "border-status-ok"
      end
  end.

Definition getDefectBoxStyle (type : DefectType) : jsstring :=
  if jsstring_eqb type (str "solder_bridge") then str "border-status-defect"
  else if jsstring_eqb type (str "misalignment") then str "border-status-defect"
  else if jsstring_eqb type (str "overheating") then str "border-transparent"
  else str "border-status-defect".

(** [analysis.defects.filter(d => d.type === 'overheating')], the
    defects drawn as hot zones *)
Definition thermal_layer (analysis : PcbAnalysis) : list Defect.t :=
  filter (fun d => jsstring_eqb (Defect.type d) (str "overheating"))
         (defects analysis).

(** [zIndex: isSelected ? 10 : isHovered ? 5 : 1] *)
Definition zIndex (isSelected isHovered : bool) : nat :=
  if isSelected then 10 else if isHovered then 5 else 1.

(** the boxes of the bounding-box layer, in the order they are drawn:
    id and border class *)
Definition boxes (analysis : PcbAnalysis) : list (jsstring * jsstring) :=
  map (fun c => (Component.designator c,
                 getBoxStyle (Component.presence c) (Component.condition c)))
      (components analysis)
  ++ map (fun d => (Defect.id d, getDefectBoxStyle (Defect.type d)))
         (defects analysis).

End ViewerBoxes.

(* ================================================================== *)
(** * components/InfoPopover.tsx *)
(* ================================================================== *)

Module InfoPopover.
Import Js Types.

Definition find_component (analysis : PcbAnalysis) (selectedId : jsstring)
  : option Component.t :=
  find (fun c => jsstring_eqb (Component.designator c) selectedId)
       (components analysis).

Definition find_defect (analysis : PcbAnalysis) (selectedId : jsstring)
  : option Defect.t :=
  find (fun d => jsstring_eqb (Defect.id d) selectedId) (defects analysis).

(** [const item = component || defect]: the bounding box the popover is
    placed at, [None] when the popover renders nothing. *)
Definition item_bbox (analysis : PcbAnalysis) (selectedId : jsstring)
  : option BoundingBox :=
  match find_component analysis selectedId with
  | Some c => Some (Component.bbox c)
  | None =>
      match find_defect analysis selectedId with
      | Some d => Some (Defect.bbox d)
      | None => None
      end
  end.

(** What the popover shows: nothing, or the panel of the component
    and the panel of the defect, each when found. *)
Definition panels (analysis : PcbAnalysis) (selectedId : jsstring)
  : option (option Component.t * option Defect.t) :=
  match item_bbox analysis selectedId with
  | None => None
  | Some _ =>
      Some (find_component analysis selectedId, find_defect analysis selectedId)
  end.

(** [{selectedId && <InfoPopover .../>}] in the viewer *)
Definition rendered (analysis : PcbAnalysis) (selectedId : option jsstring)
  : option (option Component.t * option Defect.t) :=
  match selectedId with
  | Some (c :: s) => panels analysis (c :: s)
  | _ => None
  end.

(** [ComponentInfo]: [hasIssue ? 'text-orange-300' : 'text-green-300'],
    with [hasIssue = status !== 'OK'] *)
Definition status_class (component : Component.t) : jsstring :=
  if jsstring_eqb (GeminiService.getStatusText component) (str "OK")
  then str "text-green-300" else str "text-orange-300".

(** [handleDatasheetClick]: the flag [isFetchingSheet] at the end and
    the URL opened, from the flag at the start.  There is no [try]: when
    [openDatasheet] rejects, the line that clears the flag is not
    reached. *)
Definition handleDatasheetClick (isFetchingSheet : bool) (component : Component.t)
  : bool * option jsstring :=
  match Component.mpn component with
  | [] => (isFetchingSheet, None)
  | _ :: _ =>
      match DatasheetService.openDatasheet (Component.mpn component) with
      | Some url => (false, Some url)
      | None => (true, None)
      end
  end.

End InfoPopover.

(* ================================================================== *)
(** * components/ResultsPanel.tsx: the items and the views *)
(* ================================================================== *)

Module PanelItems.
Import Js Types.

(** [getStatusText] is written in ResultsPanel.tsx as in
    geminiService.ts. *)
Definition getStatusText := GeminiService.getStatusText.

(** ** translateDefectType *)

(** the class [\w] *)
Definition is_word (c : code_unit) : bool :=
  ((48 <=? c) && (c <=? 57) || (65 <=? c) && (c <=? 90)
   || (97 <=? c) && (c <=? 122) || (c =? 95))%N.

(** [l.toUpperCase()] on one character of the class [\w] *)
Definition toUpperCase_word (c : code_unit) : code_unit :=
  if ((97 <=? c) && (c <=? 122))%N then (c - 32)%N else c.

(** [type.replace(/_/g, ' ')] *)
Definition underscores_to_spaces (s : jsstring) : jsstring :=
  map (fun c => if (c =? 95)%N then 32%N else c) s.

(** [s.replace(/\b\w/g, l => l.toUpperCase())]: a character of [\w]
    matches where the character before it, in the string searched, is
    not of [\w] (or there is none). *)
Fixpoint capitalize_words (after_word : bool) (s : jsstring) : jsstring :=
  match s with
  | [] => []
  | c :: r =>
      (if is_word c && negb after_word then toUpperCase_word c else c)
      :: capitalize_words (is_word c) r
  end.

Definition translateDefectType (type : DefectType) : jsstring :=
  capitalize_words false (underscores_to_spaces type).

(** ** ComponentItem *)

(** [statusIcons[component.presence === 'missing' ? 'missing'
                                                  : component.condition]] *)
Definition icon_key (component : Component.t) : jsstring :=
  match Component.presence component with
  | Presence_missing => str "missing"
  | Presence_ok => Condition_str (Component.condition component)
  end.

(** [hasIssue = status !== 'OK'] *)
Definition hasIssue (component : Component.t) : bool :=
  negb (jsstring_eqb (getStatusText component) (str "OK")).

(** [hasIssue || hasVoltageMismatch ? 'text-orange-300' : 'text-green-300'] *)
Definition status_class (boardVoltage : option number) (component : Component.t)
  : jsstring :=
  if hasIssue component || ToBoolean (Voltage.mismatch boardVoltage component)
  then str "text-orange-300" else str "text-green-300".

(** [handleDatasheetClick]: the flag [isFetchingSheet] at the end and
    the URL opened; the [finally] block clears the flag. *)
Definition handleDatasheetClick (isFetchingSheet : bool) (component : Component.t)
  : bool * option jsstring :=
  match Component.mpn component with
  | [] => (isFetchingSheet, None)
  | _ :: _ => (false, DatasheetService.openDatasheet (Component.mpn component))
  end.

(** ** ExplorerView: the filter buttons *)

Inductive ComponentFilter := Filter_all | Filter_issues | Filter_ok.

Definition displayedComponentsWithIssues (componentFilter : ComponentFilter)
    (componentsWithIssues : list Component.t) : list Component.t :=
  match componentFilter with
  | Filter_all | Filter_issues => componentsWithIssues
  | Filter_ok => []
  end.

Definition displayedOkComponents (componentFilter : ComponentFilter)
    (okComponents : list Component.t) : list Component.t :=
  match componentFilter with
  | Filter_all | Filter_ok => okComponents
  | Filter_issues => []
  end.

(** ** SummaryView *)

Definition findComponentByMpn (components : list Component.t) (mpn : jsstring)
  : option Component.t :=
  find (fun c => jsstring_eqb (Component.mpn c) mpn) components.

(** [{originalComponent?.designator || alt.original_mpn}] *)
Definition alternative_label (components : list Component.t) (alt : Alternative)
  : jsstring :=
  match findComponentByMpn components (original_mpn alt) with
  | Some c =>
      match Component.designator c with
      | [] => original_mpn alt
      | d => d
      end
  | None => original_mpn alt
  end.

(** [onClick={() => originalComponent
                      && setSelectedId(originalComponent.designator)}] *)
Definition alternative_onClick (components : list Component.t) (alt : Alternative)
    (selectedId : option jsstring) : option jsstring :=
  match findComponentByMpn components (original_mpn alt) with
  | Some c => Some (Component.designator c)
  | None => selectedId
  end.

(** ** ChatView *)

(** [handleSend]: what is handed to [onSendMessage], if anything.
    ([message.trim()] is truthy when it is not empty.) *)
Definition handleSend (message : jsstring) : option jsstring :=
  match trim message with
  | [] => None
  | c :: t => Some (c :: t)
  end.

End PanelItems.

(* ================================================================== *)
(** * services/pdfService.ts: the tables *)
(* ================================================================== *)

Module PdfTables.
Import Js Types.

(** [getComponentStatus], a closure over [boardVoltage] *)
Definition getComponentStatus (boardVoltage : option number) (c : Component.t)
  : jsstring :=
  match Component.condition c with
  | Condition_burnt => str "Burnt"
  | Condition_corroded => str "Corroded"
  | Condition_ok =>
      match Component.presence c with
      | Presence_missing => str "Missing"
      | Presence_ok =>
          if ToBoolean (Voltage.mismatch boardVoltage c) then
            str "Voltage Mismatch ("
            ++ match boardVoltage with Some v => toString v | None => str "null" end
            ++ str "V > "
            ++ match Component.maxVoltage c with
               | Some m => toString m
               | None => str "undefined"
               end
            ++ str "V)"
          else str "OK"
      end
  end.

Section Tables.

(** [x.toFixed(1)], which rounds the binary value of the Number *)
Variable toFixed1 : number -> jsstring.

(** [c.temperature?.toFixed(1) ?? 'N/A'] *)
Definition temperature_cell (c : Component.t) : jsstring :=
  match Component.temperature c with
  | Some t => toFixed1 t
  | None => str "N/A"
  end.

(** the body of the table [Component Issues] *)
Definition issues_body (analysis : PcbAnalysis) (boardVoltage : option number)
  : list (list jsstring) :=
  map (fun c => [Component.designator c; Component.mpn c;
                 getComponentStatus boardVoltage c; temperature_cell c])
      (PdfService.componentsWithIssues analysis boardVoltage).

(** the body of the table [OK Components] *)
Definition ok_body (analysis : PcbAnalysis) (boardVoltage : option number)
  : list (list jsstring) :=
  map (fun c => [Component.designator c; Component.mpn c; str "OK";
                 temperature_cell c])
      (PdfService.okComponents analysis boardVoltage).

End Tables.

(** the body of the table [Replacement Suggestions]:
    [alternatives.flatMap(alt => alt.replacements.map(rep => [...]))] *)
Definition alternatives_body (alternatives : list Alternative)
  : list (list jsstring) :=
  flat_map (fun alt =>
              map (fun rep => [original_mpn alt; r_mpn rep; reason rep])
                  (replacements alt))
           alternatives.

(** a line of the [Repair Chat Log] before it is wrapped *)
Definition chat_line (msg : ChatMessage.t) : jsstring :=
  (match ChatMessage.role msg with
   | user => str "You: "
   | model => str "Guru: "
   end) ++ ChatMessage.text msg.

End PdfTables.

(* ================================================================== *)
(** * geminiService.ts: the data of the file read *)
(* ================================================================== *)

Module DataUrl.
Import Js.

(** [s.split(',')] *)
Fixpoint split_comma (s : jsstring) : list jsstring :=
  match s with
  | [] => [[]]
  | c :: r =>
      if (c =? 44)%N then [] :: split_comma r
      else
        match split_comma r with
        | piece :: pieces => (c :: piece) :: pieces
        | [] => [[c]]
        end
  end.

(** [(reader.result as string).split(',')[1]]: [None] is [undefined] *)
Definition base64_of_result (result : jsstring) : option jsstring :=
  nth_error (split_comma result) 1.

End DataUrl.

(* ================================================================== *)
(** * components/ImageUploader.tsx and the page as a whole *)
(* ================================================================== *)

Module Page.
Import Js Types.

(** What the user and the outside can do to the page: the handlers of
    App.tsx as in [App.action], and the handlers of the components that
    call them or call the setters they are given. *)
Inductive event :=
| Handler (a : App.action)
| ChooseFiles (files : list GeminiService.File)
    (* ImageUploader: handleFileChange, handleDrop *)
| TypeAndSend (message : jsstring)      (* ChatView: handleSend *)
| ClickAlternative (alt : Alternative)  (* SummaryView: the label of a suggestion *)
| ClosePopover.                         (* InfoPopover: onClose *)

Section Run.
Variable API_KEY : option jsstring.

Definition handle (w : App.World) (e : event) : App.World :=
  match e with
  | Handler a => App.step API_KEY w a
  | ChooseFiles files =>
      (* [if (files && files[0]) onImageUpload(files[0])] *)
      match files with
      | file :: _ => App.step API_KEY w (App.Upload file)
      | [] => w
      end
  | TypeAndSend message =>
      match PanelItems.handleSend message with
      | Some text => App.step API_KEY w (App.Send text)
      | None => w
      end
  | ClickAlternative alt =>
      match App.analysis (App.ui w) with
      | Some a =>
          App.useEffect_chat API_KEY
            (App.with_ui w
               (App.setSelectedId
                  (PanelItems.alternative_onClick (components a) alt
                     (App.selectedId (App.ui w)))
                  (App.ui w)))
      | None => w
      end
  | ClosePopover =>
      App.useEffect_chat API_KEY
        (App.with_ui w (App.setSelectedId None (App.ui w)))
  end.

Definition run (w : App.World) (l : list event) : App.World :=
  fold_left handle l w.

(** What the page offers: [onSendMessage] and [onImageUpload] are
    reached through the chat input and the uploader only; the summary is
    part of the results panel; the popover can be closed when it is
    shown. *)
Definition offered (w : App.World) (e : event) : bool :=
  let s := App.ui w in
  match e with
  | Handler (App.Send _) | Handler (App.Upload _) => false
  | Handler a => App.offered w a
  | ChooseFiles _ => negb (App.is_some (App.imageUrl s))
  | TypeAndSend _ =>
      App.is_some (App.analysis s) && App.is_some (App.imageUrl s)
      && negb (App.isChatLoading s)
  | ClickAlternative alt =>
      App.is_some (App.analysis s) && App.is_some (App.imageUrl s)
  | ClosePopover =>
      App.is_some (App.imageUrl s)
      && match App.analysis s with
         | Some a => App.is_some (InfoPopover.rendered a (App.selectedId s))
         | None => false
         end
  end.

Fixpoint all_offered (w : App.World) (l : list event) : bool :=
  match l with
  | [] => true
  | e :: l' => offered w e && all_offered (handle w e) l'
  end.

End Run.

(** an event that resets the session *)
Definition is_reset (e : event) : bool :=
  match e with
  | Handler (App.Upload _) | Handler App.StartOver => true
  | ChooseFiles (_ :: _) => true
  | _ => false
  end.

(** the resets of the run are taken with no chat request in flight *)
Fixpoint chat_quiet (API_KEY : option jsstring) (w : App.World)
    (l : list event) : bool :=
  match l with
  | [] => true
  | e :: l' =>
      (negb (is_reset e)
       || match App.chat_requests w with [] => true | _ => false end)
      && chat_quiet API_KEY (handle API_KEY w e) l'
  end.

(** the resets of the run are taken with no analysis request in flight *)
Fixpoint analysis_quiet (API_KEY : option jsstring) (w : App.World)
    (l : list event) : bool :=
  match l with
  | [] => true
  | e :: l' =>
      (negb (is_reset e)
       || match App.analysis_requests w with [] => true | _ => false end)
      && analysis_quiet API_KEY (handle API_KEY w e) l'
  end.

(** the roles of a transcript alternate, from [user] when [from_user] *)
Fixpoint alternates (from_user : bool) (l : list ChatMessage.t) : bool :=
  match l with
  | [] => true
  | m :: l' =>
      match ChatMessage.role m, from_user with
      | user, true | model, false => alternates (negb from_user) l'
      | _, _ => false
      end
  end.

End Page.

(* ================================================================== *)
(** * Predicates used in the statements about the page *)
(* ================================================================== *)

Module Predicates.
Import Js Types.

(** a code unit [encodeURIComponent] can put out: an unreserved
    character, or the percent sign of an escape *)
Definition uri_safe (c : code_unit) : bool := DatasheetService.is_unreserved c || (c =? 37)%N.

(** a string with no surrogate code unit *)
Definition no_surrogate (s : jsstring) : bool :=
  forallb (fun c => negb (DatasheetService.is_high_surrogate c || DatasheetService.is_low_surrogate c)) s.

(** the string has the code unit of [_] *)
Definition has_underscore (s : jsstring) : bool := existsb (N.eqb 95) s.

(** the string has a comma *)
Definition has_comma (s : jsstring) : bool := existsb (N.eqb 44) s.

(** the string starts with white space *)
Definition head_is_space (s : jsstring) : bool :=
  match s with c :: _ => is_js_space c | [] => false end.

(** no promise is pending *)
Definition no_request {A} (l : list A) : bool :=
  match l with [] => true | _ :: _ => false end.

(** What holds of the page after any events whatever: the chat flag is
    set exactly while the one chat request is pending; the loading flag
    and the report flag are set only while a request of theirs is
    pending; a chat session needs an analysis; the image and its URL are
    set together. *)
Definition Inv (w : App.World) : Prop :=
  let s := App.ui w in
  App.isChatLoading s = negb (no_request (App.chat_requests w))
  /\ List.length (App.chat_requests w) <= 1
  /\ (App.isLoading s = true ->
      no_request (App.analysis_requests w) = false
      /\ App.analysis s = None /\ App.imageUrl s <> None)
  /\ (App.isReporting s = true -> no_request (App.report_requests w) = false)
  /\ (App.chat s <> None -> App.analysis s <> None)
  /\ (App.imageUrl s = None <-> App.imageFile s = None).

(** the effect has run: there is nothing left for it to do *)
Definition settled (key : option jsstring) (w : App.World) : Prop :=
  App.useEffect_chat key w = w.

(** an analysis has its chat session *)
Definition chat_follows (w : App.World) : Prop :=
  App.analysis (App.ui w) <> None -> App.chat (App.ui w) <> None.

(** there is no chat at all *)
Definition no_chat (w : App.World) : Prop :=
  App.chat (App.ui w) = None /\ App.chat_requests w = []
  /\ App.chatHistory (App.ui w) = [] /\ App.isChatLoading (App.ui w) = false
  /\ App.jumperSuggestion (App.ui w) = None.

(** the reply of the model with which the event settles a pending chat
    request, if it is one *)
Definition is_reply (w : App.World) (e : Page.event) : option jsstring :=
  match e with
  | Page.Handler (App.ChatSettles request (inr reply)) =>
      if App.is_pending request (App.chat_requests w) then Some reply else None
  | _ => None
  end.

(** What holds after the events the page offers: nothing is selected,
    hovered or typed as voltage without an analysis, and the report flag
    is set exactly while the one report is pending. *)
Definition Inv_offered (w : App.World) : Prop :=
  let s := App.ui w in
  (App.analysis s = None ->
     App.selectedId s = None /\ App.hoveredId s = None
     /\ App.boardVoltage s = None)
  /\ List.length (App.report_requests w) <= 1
  /\ App.isReporting s = negb (no_request (App.report_requests w)).

(** the role of a message is the one whose turn it is *)
Definition turn_matches (from_user : bool) (m : ChatMessage.t) : bool :=
  match ChatMessage.role m, from_user with
  | user, true | model, false => true
  | _, _ => false
  end.

(** What holds when no reset is taken with a chat request pending. *)
Definition Inv_chat (w : App.World) : Prop :=
  Page.alternates true (App.chatHistory (App.ui w)) = true
  /\ App.isChatLoading (App.ui w) = Nat.odd (List.length (App.chatHistory (App.ui w))).

(** What holds when no reset is taken with an analysis pending. *)
Definition Inv_analysis (w : App.World) : Prop :=
  List.length (App.analysis_requests w) <= 1
  /\ App.isLoading (App.ui w) = negb (no_request (App.analysis_requests w))
  /\ (App.analysis (App.ui w) <> None -> App.analysis_requests w = []).

(** Object URLs are numbered by the counter: no URL revoked twice, none
    made that is already revoked. *)
Definition Inv_url (w : App.World) : Prop :=
  NoDup (App.revoked w)
  /\ (forall u, In u (App.revoked w) -> u < App.fresh w)
  /\ (forall u, App.imageUrl (App.ui w) = Some u ->
        u < App.fresh w /\ ~ In u (App.revoked w)).

End Predicates.

(* ================================================================== *)
(** * The wording of the specification, and sample data *)
(* ================================================================== *)

Module Spec.
Import Js Types.

(** The predicate as the specification words it:
    [boardVoltage != null && component.maxVoltage != null
     && boardVoltage > component.maxVoltage]. *)
Definition spec_voltage_mismatch (boardVoltage : option number)
    (c : Component.t) : bool :=
  match boardVoltage, Component.maxVoltage c with
  | Some v, Some m => number_gt v m
  | _, _ => false
  end.

End Spec.

Module Samples.
Import Js Json Types.

Definition sample_component (maxVoltage : option number) : Component.t :=
  {| Component.designator := str "R17";
     Component.mpn := str "";
     Component.bbox := {| x := Finite 1 (-1); y := Finite 2 (-1);
                          w := Finite 1 (-1); h := Finite 1 (-1) |};
     Component.presence := Presence_ok;
     Component.condition := Condition_ok;
     Component.confidence := Finite 92 (-2);
     Component.temperature := None;
     Component.datasheetUrl := None;
     Component.maxVoltage := maxVoltage |}.

Definition sample_file : GeminiService.File :=
  {| GeminiService.file_type := str "image/png";
     GeminiService.file_base64 := str "iVBORw0KGgo=" |}.

Definition sample_chat : GeminiService.Chat :=
  {| GeminiService.chat_apiKey := str "key"; GeminiService.chat_id := 0 |}.

Definition sample_analysis (cs : list Component.t) : PcbAnalysis :=
  {| components := cs; defects := []; summary := str "One resistor.";
     advice := {| quick_actions := []; alternatives := [];
                  next_steps := []; repair_cost := None |} |}.

(** a state in which an analysis is shown and a chat session exists *)
Definition ready (cs : list Component.t) (sel : option jsstring)
    (bv : option number) : App.State :=
  App.setBoardVoltage bv
   (App.setSelectedId sel
    (App.setChat (Some sample_chat)
     (App.setImageUrl (Some 0)
      (App.setAnalysis (Some (sample_analysis cs)) App.initial)))).

Definition file_A : GeminiService.File :=
  {| GeminiService.file_type := str "image/png";
     GeminiService.file_base64 := str "QQ==" |}.
Definition file_B : GeminiService.File :=
  {| GeminiService.file_type := str "image/jpeg";
     GeminiService.file_base64 := str "Qg==" |}.

Definition result_A : PcbAnalysis :=
  sample_analysis [sample_component None].
Definition result_B : PcbAnalysis := sample_analysis [].

Definition the_key : option jsstring := Some (str "key").

(** a reply with a block as the system instruction of the chat shows it *)
Definition jumper_body : jsstring :=
  qq "'jumper':{'from':{'x':0.25,'y':0.35},'to':{'x':0.28,'y':0.55}}".

Definition jumper_value : json :=
  JObj [(str "from", JObj [(str "x", JNum 25 (-2)); (str "y", JNum 35 (-2))]);
        (str "to", JObj [(str "x", JNum 28 (-2)); (str "y", JNum 55 (-2))])].

(** a component whose part number ends in a lone high surrogate *)
Definition lone_surrogate_mpn : Component.t :=
  {| Component.designator := str "U1";
     Component.mpn := str "LM" ++ [55296%N];
     Component.bbox := {| x := num 0; y := num 0; w := num 1; h := num 1 |};
     Component.presence := Presence_ok;
     Component.condition := Condition_ok;
     Component.confidence := num 1;
     Component.temperature := None;
     Component.datasheetUrl := None;
     Component.maxVoltage := None |}.

(** a session: an image is chosen and analysed, a component selected, a
    voltage typed, a question asked and answered, a report begun *)
Definition sample_run : list Page.event :=
  [Page.ChooseFiles [file_A];
   Page.Handler (App.AnalysisSettles 1 (inr result_A));
   Page.Handler (App.Click (str "R17"));
   Page.Handler (App.ChangeBoardVoltage (Some (Finite 5 0)));
   Page.TypeAndSend (str " is R17 fine? ");
   Page.Handler (App.ChatSettles 3 (inr (str "Yes.")));
   Page.Handler App.GenerateReport].

(** the same session, then Start Over *)
Definition sample_run_over : list Page.event :=
  sample_run ++ [Page.Handler App.StartOver].

(** a component by its designator, part number and condition *)
Definition sample_part (designator mpn : string) (condition : Condition)
  : Component.t :=
  {| Component.designator := str designator;
     Component.mpn := str mpn;
     Component.bbox := {| x := Finite 1 (-1); y := Finite 2 (-1);
                          w := Finite 1 (-1); h := Finite 1 (-1) |};
     Component.presence := Presence_ok;
     Component.condition := condition;
     Component.confidence := Finite 9 (-1);
     Component.temperature := None;
     Component.datasheetUrl := None;
     Component.maxVoltage := None |}.

(** a board on which two components share a designator and two a part
    number *)
Definition sample_board : list Component.t :=
  [sample_part "C3" "GRM188" Condition_ok;
   sample_part "R17" "RC0603" Condition_burnt;
   sample_part "R17" "ERJ-3" Condition_ok;
   sample_part "U2" "RC0603" Condition_corroded].

End Samples.

(* ================================================================== *)
(** * Theorems *)
(* ================================================================== *)

(** ** Checks of the platform functions on concrete inputs *)

Example toString_three_point_three : Js.toString (Js.Finite 33 (-1)) = Js.str "3.3".
Proof. vm_compute. reflexivity. Qed.
Example toString_confidence : Js.toString (Js.Finite 92 (-2)) = Js.str "0.92".
Proof. vm_compute. reflexivity. Qed.
Example toString_integer : Js.toString (Js.num 5) = Js.str "5".
Proof. vm_compute. reflexivity. Qed.
Example toString_trailing_zeros : Js.toString (Js.Finite 50 1) = Js.str "500".
Proof. vm_compute. reflexivity. Qed.
Example toString_exponent_form : Js.toString (Js.Finite 1 21) = Js.str "1e+21".
Proof. vm_compute. reflexivity. Qed.
Example toString_small_exponent : Js.toString (Js.Finite 15 (-8)) = Js.str "1.5e-7".
Proof. vm_compute. reflexivity. Qed.
Example toString_negative_fraction : Js.toString (Js.Finite (-15) (-7)) = Js.str "-0.0000015".
Proof. vm_compute. reflexivity. Qed.
Example trim_both_ends : Js.trim (Js.str "  a b  ") = Js.str "a b".
Proof. vm_compute. reflexivity. Qed.
Example JSON_parse_object : Json.JSON_parse (Js.qq "{'a': [1, 2.50, -3e2, true, null], 'b': {'c': 'x\nA'}, 'a': 'z'}")
  = Some (Json.JObj [(Js.str "a", Json.JStr (Js.str "z")); (Js.str "b", Json.JObj [(Js.str "c", Json.JStr (Js.str "x" ++ [10%N; 65%N]))])]).
Proof. vm_compute. reflexivity. Qed.
Example JSON_parse_array : Json.JSON_parse (Js.qq "[1, 2.50, -3e2, true, null, [], {}, 0]")
  = Some (Json.JArr [Json.JNum 1 0; Json.JNum 250 (-2); Json.JNum (-3) 2; Json.JBool true; Json.JNull; Json.JArr []; Json.JObj []; Json.JNum 0 0]).
Proof. vm_compute. reflexivity. Qed.
Example JSON_parse_rejects : map Json.JSON_parse [Js.qq "01"; Js.qq "[1,]"; Js.qq "{'a':1,}"; Js.qq "1."; Js.qq ""; Js.qq "tru"; Js.qq "'a"; Js.qq "{} x"; Js.qq "[1 2]"; Js.qq "-"; Js.qq "1e"; Js.qq "{a:1}"; 11%N :: Js.qq "{}"]
  = repeat None 13.
Proof. vm_compute. reflexivity. Qed.
Example JSON_parse_scalars : map Json.JSON_parse [Js.qq " 0 "; Js.qq "-0"; Js.qq "null"; Js.qq "''"; Js.qq " [ ] "]
  = [Some (Json.JNum 0 0); Some (Json.JNum 0 0); Some Json.JNull; Some (Json.JStr []); Some (Json.JArr [])].
Proof. vm_compute. reflexivity. Qed.

(** ** [JSON.parse] has fuel enough *)

Section JsonFuel.
Import Js Json.

Lemma skip_ws_length (s : jsstring) : List.length (skip_ws s) <= List.length s.
Proof.
  induction s as [|c s IH]; cbn; [lia|]. destruct (is_json_ws c); cbn; lia.
Qed.

Lemma take_digits_length (s : jsstring) :
  List.length (snd (take_digits s)) <= List.length s.
Proof.
  induction s as [|c s IH]; cbn; [lia|].
  destruct (is_digit c); cbn; [|lia].
  destruct (take_digits s); cbn in *; lia.
Qed.

Ltac break_hyp H :=
  repeat match type of H with
         | context [if ?b then _ else _] => destruct b eqn:?
         | context [match ?x with _ => _ end] => destruct x eqn:?
         | context [let (_, _) := ?x in _] => destruct x eqn:?
         end.

Lemma parse_string_progress (s x r : jsstring) :
  parse_string s = POk x r -> List.length r < List.length s.
Proof.
  remember (List.length s) as n eqn:Hn. revert s x r Hn.
  induction n as [n IH] using lt_wf_ind. intros s x r Hn.
  destruct s as [|c s]; cbn [parse_string]; [discriminate|].
  intros H. break_hyp H; try discriminate; injection H as <- <-;
    subst; cbn [List.length] in *;
    try match goal with
        | E : parse_string ?t = POk _ ?r |- List.length ?r < _ =>
            let L := fresh in
            assert (L : List.length r < List.length t)
              by (eapply (IH (List.length t)); [cbn [List.length]; lia|reflexivity|exact E]);
            cbn [List.length] in *; lia
        end; lia.
Qed.

Lemma parse_string_fuel (s : jsstring) : parse_string s <> POutOfFuel.
Proof.
  remember (List.length s) as n eqn:Hn. revert s Hn.
  induction n as [n IH] using lt_wf_ind. intros s Hn.
  destruct s as [|c s]; cbn [parse_string]; [discriminate|].
  intros H. break_hyp H; try discriminate; subst; cbn [List.length] in *;
    match goal with
    | E : parse_string ?t = POutOfFuel |- _ =>
        eapply (IH (List.length t)); [cbn [List.length]; lia|reflexivity|exact E]
    end.
Qed.

Lemma take_digits_bound (s ds r : jsstring) :
  take_digits s = (ds, r) -> List.length r <= List.length s.
Proof.
  intros E. pose proof (take_digits_length s) as L. now rewrite E in L.
Qed.

Lemma parse_sign_length (s r : jsstring) (b : bool) :
  parse_sign s = (b, r) -> List.length r <= List.length s.
Proof.
  unfold parse_sign. destruct s as [|c s]; [intros [= <- <-]; cbn; lia|].
  destruct (c =? 45)%N; intros [= <- <-]; cbn; lia.
Qed.

Lemma parse_int_progress (s ds r : jsstring) :
  parse_int s = Some (ds, r) -> List.length r < List.length s.
Proof.
  unfold parse_int. destruct s as [|c s]; [discriminate|].
  destruct (c =? 48)%N; [intros [= <- <-]; cbn; lia|].
  destruct (is_digit c) eqn:Hd; [|discriminate].
  cbn [take_digits]. rewrite Hd.
  destruct (take_digits s) as [ds' r'] eqn:E. intros [= <- <-].
  apply take_digits_bound in E. cbn. lia.
Qed.

Lemma parse_frac_length (s fs r : jsstring) :
  parse_frac s = Some (fs, r) -> List.length r <= List.length s.
Proof.
  unfold parse_frac. destruct s as [|c s]; [intros [= <- <-]; cbn; lia|].
  destruct (c =? 46)%N; [|intros [= <- <-]; cbn; lia].
  destruct (take_digits s) as [[|d ds'] r'] eqn:E; [discriminate|].
  intros [= <- <-]. apply take_digits_bound in E. cbn. lia.
Qed.

Lemma parse_exp_length (s r : jsstring) (ex : Z) :
  parse_exp s = Some (ex, r) -> List.length r <= List.length s.
Proof.
  unfold parse_exp. destruct s as [|c s]; [intros [= <- <-]; cbn; lia|].
  destruct ((c =? 101) || (c =? 69))%N; [|intros [= <- <-]; cbn; lia].
  assert (H : forall b r1, (b, r1) = match s with
            | [] => (false, s)
            | sg :: r' => if (sg =? 45)%N then (true, r')
                          else if (sg =? 43)%N then (false, r') else (false, s)
            end -> List.length r1 <= List.length s).
  { intros b r1. destruct s as [|sg s']; [intros [= -> ->]; cbn; lia|].
    destruct (sg =? 45)%N; [intros [= -> ->]; cbn; lia|].
    destruct (sg =? 43)%N; intros [= -> ->]; cbn; lia. }
  destruct (match s with [] => _ | _ => _ end) as [eneg r1] eqn:E1.
  specialize (H eneg r1 eq_refl).
  destruct (take_digits r1) as [[|d ds'] r2] eqn:E; [discriminate|].
  intros [= <- <-]. apply take_digits_bound in E. cbn. lia.
Qed.

Lemma parse_number_progress (s r : jsstring) (v : Z * Z) :
  parse_number s = POk v r -> List.length r < List.length s.
Proof.
  unfold parse_number.
  destruct (parse_sign s) as [negative s1] eqn:E1.
  destruct (parse_int s1) as [[ds s2]|] eqn:E2; [|discriminate].
  destruct (parse_frac s2) as [[fs s3]|] eqn:E3; [|discriminate].
  destruct (parse_exp s3) as [[ex s4]|] eqn:E4; [|discriminate].
  intros [= <- <-].
  apply parse_sign_length in E1. apply parse_int_progress in E2.
  apply parse_frac_length in E3. apply parse_exp_length in E4. lia.
Qed.

Lemma parse_number_fuel (s : jsstring) : parse_number s <> POutOfFuel.
Proof.
  unfold parse_number.
  destruct (parse_sign s) as [negative s1].
  destruct (parse_int s1) as [[ds s2]|]; [|discriminate].
  destruct (parse_frac s2) as [[fs s3]|]; [|discriminate].
  destruct (parse_exp s3) as [[ex s4]|]; discriminate.
Qed.

Lemma expect_progress (lit : jsstring) (v v' : json) (c : code_unit) (s r : jsstring) :
  expect (c :: lit) v s = POk v' r -> List.length r < List.length s.
Proof.
  unfold expect. destruct s as [|d s]; cbn; [discriminate|].
  destruct (_ && _); [|discriminate]. intros H. injection H as <- <-.
  pose proof (length_skipn (List.length lit) s). lia.
Qed.

Lemma expect_fuel (lit : jsstring) (v : json) (s : jsstring) :
  expect lit v s <> POutOfFuel.
Proof. unfold expect. destruct (startsWith lit s); discriminate. Qed.

(** Every parser consumes at least one character. *)
Lemma parse_progress (fuel : nat) :
  (forall s v r, parse_value fuel s = POk v r -> List.length r < List.length s)
  /\ (forall acc s v r, parse_elements fuel acc s = POk v r ->
        List.length r < List.length s)
  /\ (forall acc s v r, parse_members fuel acc s = POk v r ->
        List.length r < List.length s).
Proof.
  induction fuel as [|fuel (IHv & IHe & IHm)];
    [repeat split; intros; discriminate|].
  split; [|split].
  - intros s v r. cbn [parse_value].
    pose proof (skip_ws_length s) as Ls.
    destruct (skip_ws s) as [|c t] eqn:Es; [discriminate|]. cbn [List.length] in Ls.
    destruct (c =? 123)%N.
    { pose proof (skip_ws_length t) as Lt.
      destruct (skip_ws t) as [|c2 t2]; [discriminate|]. cbn [List.length] in Lt.
      destruct (c2 =? 125)%N; [intros [= <- <-]; lia|].
      intros H. apply IHm in H. cbn [List.length] in H. lia. }
    destruct (c =? 91)%N.
    { pose proof (skip_ws_length t) as Lt.
      destruct (skip_ws t) as [|c2 t2]; [discriminate|]. cbn [List.length] in Lt.
      destruct (c2 =? 93)%N; [intros [= <- <-]; lia|].
      intros H. apply IHe in H. cbn [List.length] in H. lia. }
    destruct (c =? DQUOTE)%N.
    { destruct (parse_string t) as [x r'| |] eqn:E; try discriminate.
      intros [= <- <-]. apply parse_string_progress in E. lia. }
    destruct (c =? 116)%N.
    { intros H. apply expect_progress in H. cbn [List.length] in H. lia. }
    destruct (c =? 102)%N.
    { intros H. apply expect_progress in H. cbn [List.length] in H. lia. }
    destruct (c =? 110)%N.
    { intros H. apply expect_progress in H. cbn [List.length] in H. lia. }
    destruct (parse_number (c :: t)) as [[m e] r'| |] eqn:E; try discriminate.
    intros [= <- <-]. apply parse_number_progress in E. cbn [List.length] in E. lia.
  - intros acc s v r. cbn [parse_elements].
    destruct (parse_value fuel s) as [v0 r0| |] eqn:E; try discriminate.
    apply IHv in E. pose proof (skip_ws_length r0) as L.
    destruct (skip_ws r0) as [|c t]; [discriminate|]. cbn [List.length] in L.
    destruct (c =? 44)%N.
    { intros H. apply IHe in H. lia. }
    destruct (c =? 93)%N; [|discriminate]. intros [= <- <-]. lia.
  - intros acc s v r. cbn [parse_members].
    destruct s as [|q t]; [discriminate|].
    destruct (q =? DQUOTE)%N; [|discriminate].
    destruct (parse_string t) as [k r1| |] eqn:E1; try discriminate.
    apply parse_string_progress in E1. pose proof (skip_ws_length r1) as L1.
    destruct (skip_ws r1) as [|colon r2]; [discriminate|]. cbn [List.length] in L1.
    destruct (colon =? 58)%N; [|discriminate].
    destruct (parse_value fuel r2) as [v0 r3| |] eqn:E2; try discriminate.
    apply IHv in E2. pose proof (skip_ws_length r3) as L3.
    destruct (skip_ws r3) as [|c r4]; [discriminate|]. cbn [List.length] in L3.
    destruct (c =? 44)%N.
    { intros H. apply IHm in H. pose proof (skip_ws_length r4).
      cbn [List.length]. lia. }
    destruct (c =? 125)%N; [|discriminate]. intros [= <- <-]. cbn [List.length]. lia.
Qed.

(** Twice the length of the text is fuel enough. *)
Lemma parse_fuel (fuel : nat) :
  (forall s, 2 * List.length s < fuel -> parse_value fuel s <> POutOfFuel)
  /\ (forall acc s, 2 * List.length s + 1 < fuel ->
        parse_elements fuel acc s <> POutOfFuel)
  /\ (forall acc s, 2 * List.length s + 1 < fuel ->
        parse_members fuel acc s <> POutOfFuel).
Proof.
  induction fuel as [|fuel (IHv & IHe & IHm)];
    [repeat split; intros; lia|].
  destruct (parse_progress fuel) as (Pv & Pe & Pm).
  split; [|split].
  - intros s Hf. cbn [parse_value].
    pose proof (skip_ws_length s) as Ls.
    destruct (skip_ws s) as [|c t] eqn:Es; [discriminate|]. cbn [List.length] in Ls.
    destruct (c =? 123)%N.
    { pose proof (skip_ws_length t) as Lt.
      destruct (skip_ws t) as [|c2 t2]; [discriminate|]. cbn [List.length] in Lt.
      destruct (c2 =? 125)%N; [discriminate|].
      apply IHm. cbn [List.length]. lia. }
    destruct (c =? 91)%N.
    { pose proof (skip_ws_length t) as Lt.
      destruct (skip_ws t) as [|c2 t2]; [discriminate|]. cbn [List.length] in Lt.
      destruct (c2 =? 93)%N; [discriminate|].
      apply IHe. cbn [List.length]. lia. }
    destruct (c =? DQUOTE)%N.
    { pose proof (parse_string_fuel t).
      destruct (parse_string t); congruence. }
    destruct (c =? 116)%N; [apply expect_fuel|].
    destruct (c =? 102)%N; [apply expect_fuel|].
    destruct (c =? 110)%N; [apply expect_fuel|].
    pose proof (parse_number_fuel (c :: t)).
    destruct (parse_number (c :: t)) as [[m e] r'| |]; congruence.
  - intros acc s Hf. cbn [parse_elements].
    pose proof (IHv s ltac:(lia)) as Hv.
    destruct (parse_value fuel s) as [v0 r0| |] eqn:E; try congruence.
    apply Pv in E. pose proof (skip_ws_length r0) as L.
    destruct (skip_ws r0) as [|c t]; [discriminate|]. cbn [List.length] in L.
    destruct (c =? 44)%N; [apply IHe; lia|].
    destruct (c =? 93)%N; discriminate.
  - intros acc s Hf. cbn [parse_members].
    destruct s as [|q t]; [discriminate|]. cbn [List.length] in Hf.
    destruct (q =? DQUOTE)%N; [|discriminate].
    pose proof (parse_string_fuel t) as Hs.
    destruct (parse_string t) as [k r1| |] eqn:E1; try congruence.
    apply parse_string_progress in E1. pose proof (skip_ws_length r1) as L1.
    destruct (skip_ws r1) as [|colon r2]; [discriminate|]. cbn [List.length] in L1.
    destruct (colon =? 58)%N; [|discriminate].
    pose proof (IHv r2 ltac:(lia)) as Hv.
    destruct (parse_value fuel r2) as [v0 r3| |] eqn:E2; try congruence.
    apply Pv in E2. pose proof (skip_ws_length r3) as L3.
    destruct (skip_ws r3) as [|c r4]; [discriminate|]. cbn [List.length] in L3.
    destruct (c =? 44)%N.
    { apply IHm. pose proof (skip_ws_length r4). lia. }
    destruct (c =? 125)%N; discriminate.
Qed.

(** [JSON_parse] never answers [None] for want of fuel. *)
Lemma JSON_parse_fuel (text : jsstring) :
  parse_value (2 * List.length text + 1) text <> POutOfFuel.
Proof. apply parse_fuel. lia. Qed.

End JsonFuel.

(** ** The matcher on the pattern of the jumper block *)

Section JumperPattern.
Import Js Regex.

Section RegexFacts.
Context {R : Type}.

Lemma lit_app (p s : jsstring) (k : jsstring -> option R) :
  lit p (p ++ s) k = k s.
Proof.
  induction p as [|a p IH]; cbn; [reflexivity|]. now rewrite N.eqb_refl.
Qed.

Lemma lit_mismatch (a : code_unit) (p s : jsstring) (k : jsstring -> option R) :
  match s with c :: _ => a <> c | [] => True end ->
  lit (a :: p) s k = None.
Proof.
  destruct s as [|c s]; cbn; [reflexivity|]. intros H.
  destruct (N.eqb_spec a c); [contradiction|reflexivity].
Qed.

Lemma star_greedy_skip (cls : code_unit -> bool) (ws s : jsstring)
    (k : jsstring -> option R) (r : R) :
  Forall (fun c => cls c = true) ws ->
  match s with c :: _ => cls c = false | [] => True end ->
  k s = Some r ->
  star_greedy cls (ws ++ s) k = Some r.
Proof.
  intros Hws Hs Hk. induction Hws as [|c ws Hc _ IH]; cbn.
  - destruct s as [|c s]; cbn; [exact Hk|]. now rewrite Hs.
  - now rewrite Hc, IH.
Qed.

Lemma star_greedy_no_fence (s p : jsstring) (k : jsstring -> option R) :
  fence_after_space s = false ->
  star_greedy is_js_space s (fun s' => lit (BACKTICK :: p) s' k) = None.
Proof.
  unfold fence_after_space.
  induction s as [|c s IH]; cbn [star_greedy trimStart]; [reflexivity|].
  destruct (is_js_space c) eqn:Hc.
  - intros H. rewrite (IH H). apply lit_mismatch.
    intros <-. discriminate Hc.
  - intros H. apply lit_mismatch. intros <-. now rewrite N.eqb_refl in H.
Qed.

Lemma star_lazy_through (body rest : jsstring) (k : jsstring -> option R) (r : R) :
  (forall t1 c t2, body = t1 ++ c :: t2 -> k (c :: t2 ++ rest) = None) ->
  k rest = Some r ->
  star_lazy any_char (body ++ rest) k = Some r.
Proof.
  intros Hb Hk. induction body as [|c body IH]; cbn [app].
  - destruct rest; cbn; now rewrite Hk.
  - cbn. rewrite (Hb [] c body eq_refl).
    apply IH. intros t1 c' t2 E. apply (Hb (c :: t1) c' t2). now rewrite E.
Qed.

End RegexFacts.

Lemma no_backtick_no_fence (t x : jsstring) :
  ~ In BACKTICK t -> fence_after_space (t ++ 125%N :: x) = false.
Proof.
  unfold fence_after_space. induction t as [|c t IH]; cbn; [reflexivity|].
  intros H. destruct (is_js_space c).
  - apply IH. tauto.
  - destruct (N.eqb_spec c BACKTICK); [|reflexivity]. subst. tauto.
Qed.

Lemma firstn_app_exact {A} (a b : list A) :
  firstn (List.length (a ++ b) - List.length b) (a ++ b) = a.
Proof.
  rewrite length_app. replace (List.length a + List.length b - List.length b) with (List.length a + 0) by lia.
  rewrite firstn_app_2. cbn. apply app_nil_r.
Qed.

Lemma jumper_match_at_fence (ws1 body ws2 post : jsstring) :
  Forall (fun c => is_js_space c = true) ws1 ->
  Forall (fun c => is_js_space c = true) ws2 ->
  ~ In BACKTICK body ->
  match_at App.JUMPER_JSON_REGEX
    (str "```json" ++ ws1 ++ 123%N :: body ++ 125%N :: ws2 ++ str "```" ++ post)
  = Some (post, Some (123%N :: body ++ [125%N])).
Proof.
  intros H1 H2 Hb. unfold match_at, App.JUMPER_JSON_REGEX. cbn [matcher].
  rewrite lit_app.
  apply star_greedy_skip; [exact H1|reflexivity|].
  set (whole := 123%N :: body ++ 125%N :: ws2 ++ str "```" ++ post).
  change (str "{") with [123%N]. change (str "}") with [125%N].
  change whole with ([123%N] ++ (body ++ 125%N :: ws2 ++ str "```" ++ post)) at 1.
  rewrite lit_app.
  apply star_lazy_through.
  - intros t1 c t2 E.
    destruct (N.eqb_spec 125 c) as [<-|Hc].
    + change (125%N :: t2 ++ 125%N :: ws2 ++ str "```" ++ post)
        with ([125%N] ++ (t2 ++ 125%N :: ws2 ++ str "```" ++ post)).
      rewrite lit_app. apply star_greedy_no_fence, no_backtick_no_fence.
      intros Hin. apply Hb. rewrite E. apply in_or_app. right. now right.
    + now apply lit_mismatch.
  - change (125%N :: ws2 ++ str "```" ++ post)
      with ([125%N] ++ (ws2 ++ str "```" ++ post)).
    rewrite lit_app.
    apply star_greedy_skip; [exact H2|reflexivity|].
    rewrite lit_app. f_equal. f_equal. f_equal.
    subst whole.
    change (123%N :: body ++ 125%N :: ws2 ++ str "```" ++ post)
      with ((123%N :: body) ++ [125%N] ++ ws2 ++ str "```" ++ post).
    rewrite (app_assoc (123%N :: body)).
    apply firstn_app_exact.
Qed.

Lemma match_at_no_backtick (c : code_unit) (s : jsstring) :
  c <> BACKTICK -> match_at App.JUMPER_JSON_REGEX (c :: s) = None.
Proof.
  intros H. unfold match_at, App.JUMPER_JSON_REGEX. cbn [matcher].
  change (str "```json") with (BACKTICK :: str "``json").
  apply lit_mismatch. congruence.
Qed.

Lemma exec_from_skip (pre s : jsstring) (i : nat) :
  ~ In BACKTICK pre ->
  exec_from App.JUMPER_JSON_REGEX i (pre ++ s)
  = exec_from App.JUMPER_JSON_REGEX (i + List.length pre) s.
Proof.
  revert i. induction pre as [|c pre IH]; intros i H; cbn [app List.length].
  - now rewrite Nat.add_0_r.
  - cbn [exec_from]. rewrite match_at_no_backtick by (intros ->; apply H; now left).
    rewrite IH by (intros Hin; apply H; now right).
    f_equal. lia.
Qed.

Lemma match_no_backtick (s : jsstring) :
  ~ In BACKTICK s -> match_ s App.JUMPER_JSON_REGEX = None.
Proof.
  intros H. unfold match_. rewrite <- (app_nil_r s).
  rewrite exec_from_skip by exact H. reflexivity.
Qed.

Lemma match_fenced_block (pre ws1 body ws2 post : jsstring) :
  ~ In BACKTICK pre ->
  Forall (fun c => is_js_space c = true) ws1 ->
  Forall (fun c => is_js_space c = true) ws2 ->
  ~ In BACKTICK body ->
  let fence := str "```json" ++ ws1 ++ 123%N :: body ++ 125%N :: ws2 ++ str "```" in
  match_ (pre ++ fence ++ post) App.JUMPER_JSON_REGEX
  = Some {| index := List.length pre;
            matched := fence;
            group1 := Some (123%N :: body ++ [125%N]);
            after := post |}.
Proof.
  intros Hp H1 H2 Hb fence. unfold match_.
  rewrite exec_from_skip by exact Hp. cbn [Nat.add].
  assert (E : fence ++ post = str "```json" ++ ws1 ++ 123%N :: body ++ 125%N :: ws2 ++ str "```" ++ post).
  { subst fence. repeat (rewrite <- ?app_assoc; cbn [app]). reflexivity. }
  destruct (fence ++ post) as [|c t] eqn:Ef.
  - subst fence. discriminate Ef.
  - cbn [exec_from]. rewrite E, (jumper_match_at_fence ws1 body ws2 post H1 H2 Hb).
    rewrite <- E, <- Ef. f_equal. f_equal. apply firstn_app_exact.
Qed.

Lemma has_backtick_false (s : jsstring) :
  has_backtick s = false -> ~ In BACKTICK s.
Proof.
  unfold has_backtick. intros H Hin.
  assert (E : existsb (N.eqb BACKTICK) s = true).
  { apply existsb_exists. exists BACKTICK. split; [exact Hin|apply N.eqb_refl]. }
  congruence.
Qed.

Lemma all_space_Forall (s : jsstring) :
  all_space s = true -> Forall (fun c => is_js_space c = true) s.
Proof. unfold all_space. intros H. now apply Forall_forall, forallb_forall. Qed.

Section Sound.
Context {R : Type}.

Lemma lit_Some (p s : jsstring) (k : jsstring -> option R) (r : R) :
  lit p s k = Some r -> exists s', s = p ++ s' /\ k s' = Some r.
Proof.
  revert s. induction p as [|a p IH]; intros s; cbn [lit].
  - intros H. now exists s.
  - destruct s as [|b s]; [discriminate|].
    destruct (N.eqb_spec a b) as [<-|]; [|discriminate].
    intros H. destruct (IH s H) as (s' & -> & Hk). now exists s'.
Qed.

Lemma star_greedy_Some (cls : code_unit -> bool) (s : jsstring)
    (k : jsstring -> option R) (r : R) :
  star_greedy cls s k = Some r ->
  exists ws s', s = ws ++ s' /\ Forall (fun c => cls c = true) ws
                /\ k s' = Some r.
Proof.
  induction s as [|c s IH]; cbn [star_greedy].
  - intros H. exists [], []. auto.
  - destruct (cls c) eqn:Hc.
    + destruct (star_greedy cls s k) as [r'|] eqn:E.
      * intros [= <-]. destruct (IH eq_refl) as (ws & s' & -> & Hws & Hk).
        exists (c :: ws), s'. auto.
      * intros H. exists [], (c :: s). auto.
    + intros H. exists [], (c :: s). auto.
Qed.

Lemma star_lazy_Some (cls : code_unit -> bool) (s : jsstring)
    (k : jsstring -> option R) (r : R) :
  star_lazy cls s k = Some r ->
  exists ws s', s = ws ++ s' /\ Forall (fun c => cls c = true) ws
                /\ k s' = Some r.
Proof.
  induction s as [|c s IH]; cbn [star_lazy].
  - destruct (k []) as [r'|] eqn:E; [|discriminate].
    intros [= <-]. exists [], []. auto.
  - destruct (k (c :: s)) as [r'|] eqn:E.
    + intros [= <-]. exists [], (c :: s). auto.
    + destruct (cls c) eqn:Hc; [|discriminate].
      intros H. destruct (IH H) as (ws & s' & -> & Hws & Hk).
      exists (c :: ws), s'. auto.
Qed.

End Sound.

Lemma match_at_shape (s rest : jsstring) (cap : option jsstring) :
  match_at App.JUMPER_JSON_REGEX s = Some (rest, cap) ->
  exists ws1 body ws2,
    s = str "```json" ++ ws1 ++ 123%N :: body ++ 125%N :: ws2 ++ str "```" ++ rest
    /\ all_space ws1 = true /\ all_space ws2 = true
    /\ cap = Some (123%N :: body ++ [125%N]).
Proof.
  unfold match_at, App.JUMPER_JSON_REGEX. cbn [matcher]. intros H.
  apply lit_Some in H. destruct H as (s1 & -> & H).
  apply star_greedy_Some in H. destruct H as (ws1 & s2 & -> & Hw1 & H).
  apply lit_Some in H. destruct H as (s3 & -> & H).
  apply star_lazy_Some in H. destruct H as (body & s4 & -> & _ & H).
  apply lit_Some in H. destruct H as (s5 & -> & H).
  apply star_greedy_Some in H. destruct H as (ws2 & s6 & -> & Hw2 & H).
  apply lit_Some in H. destruct H as (s7 & -> & H).
  injection H as -> <-.
  exists ws1, body, ws2. split; [reflexivity|].
  split; [now apply forallb_forall, Forall_forall|].
  split; [now apply forallb_forall, Forall_forall|].
  f_equal.
  change (firstn (List.length (123%N :: body ++ 125%N :: ws2 ++ str "```" ++ rest)
                  - List.length (ws2 ++ str "```" ++ rest))
            (123%N :: body ++ 125%N :: ws2 ++ str "```" ++ rest)
          = 123%N :: body ++ [125%N]).
  replace (123%N :: body ++ 125%N :: ws2 ++ str "```" ++ rest)
    with ((123%N :: body ++ [125%N]) ++ (ws2 ++ str "```" ++ rest))
    by (cbn [app]; now rewrite <- app_assoc).
  apply firstn_app_exact.
Qed.

Lemma exec_from_shape (i : nat) (s : jsstring) (m : match_result) :
  exec_from App.JUMPER_JSON_REGEX i s = Some m ->
  exists before ws1 body ws2,
    s = before ++ matched m ++ after m
    /\ index m = i + List.length before
    /\ matched m = str "```json" ++ ws1 ++ 123%N :: body ++ 125%N :: ws2 ++ str "```"
    /\ all_space ws1 = true /\ all_space ws2 = true
    /\ group1 m = Some (123%N :: body ++ [125%N]).
Proof.
  revert i. induction s as [|c s IH]; intros i; cbn [exec_from].
  - discriminate.
  - destruct (match_at App.JUMPER_JSON_REGEX (c :: s)) as [[rest cap]|] eqn:E.
    + set (mt := firstn _ (c :: s)).
      intros [= <-]. cbn [matched after index group1].
      destruct (match_at_shape _ _ _ E) as (ws1 & body & ws2 & Es & H1 & H2 & Hc).
      exists [], ws1, body, ws2. cbn [app List.length].
      assert (Em : mt
                   = str "```json" ++ ws1 ++ 123%N :: body ++ 125%N :: ws2 ++ str "```").
      { subst mt. rewrite Es.
        replace (str "```json" ++ ws1 ++ 123%N :: body ++ 125%N :: ws2 ++ str "```" ++ rest)
          with ((str "```json" ++ ws1 ++ 123%N :: body ++ 125%N :: ws2 ++ str "```") ++ rest)
          by (repeat (rewrite <- ?app_assoc; cbn [app]); reflexivity).
        apply firstn_app_exact. }
      rewrite Em. repeat split; auto.
      rewrite Es. repeat (rewrite <- ?app_assoc; cbn [app]). reflexivity.
    + intros H. destruct (IH (S i) H)
        as (before & ws1 & body & ws2 & Es & Hi & Hm & H1 & H2 & Hg).
      exists (c :: before), ws1, body, ws2. cbn [app List.length].
      repeat split; auto; [now rewrite Es | lia].
Qed.

Section Complete.
Context {R : Type}.

Lemma star_lazy_complete (a b : jsstring) (k : jsstring -> option R) (r : R) :
  k b = Some r -> exists r', star_lazy any_char (a ++ b) k = Some r'.
Proof.
  intros Hk. induction a as [|c a IH]; cbn [app].
  - exists r. destruct b; cbn [star_lazy]; now rewrite Hk.
  - cbn [star_lazy]. destruct (k (c :: a ++ b)) as [r'|]; [now exists r'|].
    exact IH.
Qed.

End Complete.

Lemma match_at_complete (ws1 body ws2 rest : jsstring) :
  all_space ws1 = true -> all_space ws2 = true ->
  exists r,
    match_at App.JUMPER_JSON_REGEX
      (str "```json" ++ ws1 ++ 123%N :: body ++ 125%N :: ws2 ++ str "```" ++ rest)
    = Some r.
Proof.
  intros H1 H2. apply all_space_Forall in H1. apply all_space_Forall in H2.
  unfold match_at, App.JUMPER_JSON_REGEX. cbn [matcher].
  rewrite lit_app.
  set (whole := 123%N :: body ++ 125%N :: ws2 ++ str "```" ++ rest).
  match goal with
  | |- exists r, star_greedy _ _ ?k = Some r =>
      assert (Hk : exists r, k whole = Some r)
  end.
  { change (str "{") with [123%N]. change (str "}") with [125%N].
    change whole with ([123%N] ++ (body ++ 125%N :: ws2 ++ str "```" ++ rest)) at 1.
    rewrite lit_app.
    eapply star_lazy_complete.
    change (125%N :: ws2 ++ str "```" ++ rest)
      with ([125%N] ++ (ws2 ++ str "```" ++ rest)).
    rewrite lit_app.
    apply star_greedy_skip; [exact H2|reflexivity|].
    rewrite lit_app. reflexivity. }
  destruct Hk as (r & Hk). exists r.
  apply star_greedy_skip; [exact H1|reflexivity|exact Hk].
Qed.

Lemma exec_from_complete (before s : jsstring) (i : nat)
    (r : jsstring * option jsstring) :
  match_at App.JUMPER_JSON_REGEX s = Some r ->
  exists m, exec_from App.JUMPER_JSON_REGEX i (before ++ s) = Some m.
Proof.
  intros H. revert i. induction before as [|c before IH]; intros i; cbn [app].
  - destruct r as [rest cap]. destruct s; cbn [exec_from]; rewrite H; eauto.
  - cbn [exec_from].
    destruct (match_at App.JUMPER_JSON_REGEX (c :: before ++ s)) as [[rest cap]|];
      [eauto|apply IH].
Qed.

(** ** The match is the first block *)

Lemma star_lazy_first {R} (s : jsstring) (k : jsstring -> option R) (r : R) :
  star_lazy any_char s k = Some r ->
  exists body s',
    s = body ++ s' /\ k s' = Some r
    /\ forall b t, s = b ++ t -> List.length b < List.length body -> k t = None.
Proof.
  induction s as [|c s IH]; cbn [star_lazy].
  - destruct (k []) as [r'|] eqn:E; [|discriminate].
    intros [= <-]. exists [], []. repeat split; auto. cbn. intros; lia.
  - destruct (k (c :: s)) as [r'|] eqn:E.
    + intros [= <-]. exists [], (c :: s). repeat split; auto. cbn. intros; lia.
    + cbn [any_char]. intros H.
      destruct (IH H) as (body & s' & -> & Hk & Hmin).
      exists (c :: body), s'. repeat split; auto.
      intros b t Eb Hl. destruct b as [|c' b].
      * cbn in Eb. now rewrite <- Eb.
      * cbn in Eb. injection Eb as <- Eb. apply (Hmin b t Eb). cbn in Hl. lia.
Qed.

Lemma app_same_length {A} (a a' x x' : list A) :
  List.length a = List.length a' -> a ++ x = a' ++ x' -> a = a' /\ x = x'.
Proof.
  revert a'. induction a as [|c a IH]; intros [|c' a'] L E; try discriminate.
  - now split.
  - cbn in L, E. injection E as <- E. injection L as L.
    destruct (IH a' L E) as [-> ->]. now split.
Qed.

(** a run of white space before a character that is none ends where it ends *)
Lemma space_run_unique (ws ws' : jsstring) (c c' : code_unit) (t t' : jsstring) :
  all_space ws = true -> all_space ws' = true ->
  is_js_space c = false -> is_js_space c' = false ->
  ws ++ c :: t = ws' ++ c' :: t' -> ws = ws' /\ c :: t = c' :: t'.
Proof.
  unfold all_space. revert ws'.
  induction ws as [|a ws IH]; intros [|a' ws'] H H' Hc Hc' E; cbn in *.
  - now split.
  - injection E as -> _. apply andb_true_iff in H'. destruct H' as [H' _]. congruence.
  - injection E as -> _. apply andb_true_iff in H. destruct H as [H _]. congruence.
  - injection E as <- E. apply andb_true_iff in H. apply andb_true_iff in H'.
    destruct (IH ws' (proj2 H) (proj2 H') Hc Hc' E) as [-> E']. now split.
Qed.

(** after the closing brace of a block the pattern goes through *)
Lemma closing_fence_matches {R} (ws2 rest : jsstring)
    (k : jsstring -> jsstring -> option R) (r : R) :
  all_space ws2 = true -> k (ws2 ++ str "```" ++ rest) rest = Some r ->
  lit [125%N] (125%N :: ws2 ++ str "```" ++ rest)
    (fun s => star_greedy is_js_space s (fun s' => lit (str "```") s' (k s)))
  = Some r.
Proof.
  intros H Hk. apply all_space_Forall in H.
  change (125%N :: ws2 ++ str "```" ++ rest)
    with ([125%N] ++ (ws2 ++ str "```" ++ rest)).
  rewrite lit_app. apply star_greedy_skip; [exact H|reflexivity|].
  now rewrite lit_app.
Qed.

Lemma match_at_first (s rest : jsstring) (cap : option jsstring) :
  match_at App.JUMPER_JSON_REGEX s = Some (rest, cap) ->
  exists ws1 body ws2,
    s = str "```json" ++ ws1 ++ 123%N :: body ++ 125%N :: ws2 ++ str "```" ++ rest
    /\ all_space ws1 = true /\ all_space ws2 = true
    /\ cap = Some (123%N :: body ++ [125%N])
    /\ forall ws1' body' ws2' rest',
         all_space ws1' = true -> all_space ws2' = true ->
         s = str "```json" ++ ws1' ++ 123%N :: body' ++ 125%N :: ws2'
             ++ str "```" ++ rest' ->
         List.length body <= List.length body'.
Proof.
  unfold match_at, App.JUMPER_JSON_REGEX. cbn [matcher]. intros H.
  apply lit_Some in H. destruct H as (s1 & -> & H).
  apply star_greedy_Some in H. destruct H as (ws1 & s2 & -> & Hw1 & H).
  change (str "{") with [123%N] in H.
  apply lit_Some in H. destruct H as (s3 & -> & H).
  apply star_lazy_first in H. destruct H as (body & s4 & -> & H & Hmin).
  change (str "}") with [125%N] in H, Hmin.
  apply lit_Some in H. destruct H as (s5 & -> & H).
  apply star_greedy_Some in H. destruct H as (ws2 & s6 & -> & Hw2 & H).
  apply lit_Some in H. destruct H as (s7 & -> & H).
  injection H as -> <-.
  assert (H1 : all_space ws1 = true) by (now apply forallb_forall, Forall_forall).
  assert (H2 : all_space ws2 = true) by (now apply forallb_forall, Forall_forall).
  exists ws1, body, ws2. split; [reflexivity|].
  split; [exact H1|]. split; [exact H2|]. split.
  { f_equal.
    change (firstn (List.length (123%N :: body ++ 125%N :: ws2 ++ str "```" ++ rest)
                    - List.length (ws2 ++ str "```" ++ rest))
              (123%N :: body ++ 125%N :: ws2 ++ str "```" ++ rest)
            = 123%N :: body ++ [125%N]).
    replace (123%N :: body ++ 125%N :: ws2 ++ str "```" ++ rest)
      with ((123%N :: body ++ [125%N]) ++ (ws2 ++ str "```" ++ rest))
      by (cbn [app]; now rewrite <- app_assoc).
    apply firstn_app_exact. }
  intros ws1' body' ws2' rest' H1' H2' E'.
  apply app_inv_head in E'.
  destruct (space_run_unique ws1 ws1' 123%N 123%N _ _ H1 H1' eq_refl eq_refl E')
    as [_ E3].
  injection E3 as E3.
  destruct (Nat.le_gt_cases (List.length body) (List.length body')) as [L|L];
    [exact L|exfalso].
  specialize (Hmin body' (125%N :: ws2' ++ str "```" ++ rest') E3 L).
  cbv beta in Hmin.
  match type of Hmin with
  | lit _ _ (fun s => star_greedy _ s (fun s' => lit _ s' (@?k s))) = None =>
      rewrite (closing_fence_matches ws2' rest' k _ H2' eq_refl) in Hmin
  end.
  discriminate.
Qed.

Lemma exec_from_first (i : nat) (s : jsstring) (m : match_result) :
  exec_from App.JUMPER_JSON_REGEX i s = Some m ->
  exists before ws1 body ws2,
    App.first_block s before ws1 body ws2 (after m)
    /\ index m = i + List.length before
    /\ group1 m = Some (123%N :: body ++ [125%N]).
Proof.
  revert i. induction s as [|c s IH]; intros i; cbn [exec_from].
  - discriminate.
  - destruct (match_at App.JUMPER_JSON_REGEX (c :: s)) as [[rest cap]|] eqn:E.
    + set (mt := firstn _ (c :: s)).
      intros [= <-]. cbn [matched after index group1].
      destruct (match_at_first _ _ _ E)
        as (ws1 & body & ws2 & Es & H1 & H2 & Hc & Hmin).
      exists [], ws1, body, ws2. cbn [app List.length].
      split; [|split; [lia|exact Hc]].
      split; [split; [exact H1|split; [exact H2|exact Es]]|].
      intros before' ws1' body' ws2' rest' (H1' & H2' & E').
      destruct before' as [|c' before']; [right|left; cbn; lia].
      split; [reflexivity|]. exact (Hmin ws1' body' ws2' rest' H1' H2' E').
    + intros H. destruct (IH (S i) H)
        as (before & ws1 & body & ws2 & ((H1 & H2 & Es) & Hmin) & Hi & Hg).
      exists (c :: before), ws1, body, ws2. cbn [app List.length].
      split; [|split; [lia|exact Hg]].
      split; [split; [exact H1|split; [exact H2|]]|].
      { unfold App.fenced in *. cbn [app]. now rewrite <- Es. }
      intros before' ws1' body' ws2' rest' (H1' & H2' & E').
      destruct before' as [|c' before'].
      * exfalso. unfold App.fenced in E'. cbn [app] in E'.
        destruct (match_at_complete ws1' body' ws2' rest' H1' H2') as (r & Hr).
        rewrite <- E' in Hr. congruence.
      * unfold App.fenced in E'. cbn [app] in E'. injection E' as _ E'.
        destruct (Hmin before' ws1' body' ws2' rest') as [L|[L1 L2]].
        { split; [exact H1'|split; [exact H2'|exact E']]. }
        { left. cbn [List.length]. lia. }
        { right. cbn [List.length]. split; [lia|exact L2]. }
Qed.

Lemma first_block_unique (reply b w1 bd w2 r b' w1' bd' w2' r' : jsstring) :
  App.first_block reply b w1 bd w2 r -> App.first_block reply b' w1' bd' w2' r' ->
  b = b' /\ w1 = w1' /\ bd = bd' /\ w2 = w2' /\ r = r'.
Proof.
  intros [B M] [B' M'].
  pose proof (M _ _ _ _ _ B') as L. pose proof (M' _ _ _ _ _ B) as L'.
  assert (Lb : List.length b = List.length b') by lia.
  assert (Lbd : List.length bd = List.length bd') by lia.
  destruct B as (H1 & H2 & E). destruct B' as (H1' & H2' & E').
  rewrite E in E'. unfold App.fenced in E'.
  destruct (app_same_length _ _ _ _ Lb E') as [<- E1].
  apply app_inv_head in E1.
  destruct (space_run_unique w1 w1' 123%N 123%N _ _ H1 H1' eq_refl eq_refl E1)
    as [<- E2].
  injection E2 as E2.
  destruct (app_same_length _ _ _ _ Lbd E2) as [<- E3].
  injection E3 as E3.
  destruct (space_run_unique w2 w2' BACKTICK BACKTICK _ _ H2 H2' eq_refl eq_refl E3)
    as [<- E4].
  change (BACKTICK :: str "``" ++ r = BACKTICK :: str "``" ++ r') in E4.
  injection E4 as E4.
  repeat split; reflexivity || assumption.
Qed.

End JumperPattern.

(* ================================================================== *)
(** * Selection *)
(* ================================================================== *)

Section Selection.
Import Js Types.

Lemma jsstring_eqb_refl (a : jsstring) : jsstring_eqb a a = true.
Proof. unfold jsstring_eqb. destruct (list_eq_dec N.eq_dec a a); congruence. Qed.

Lemma jsstring_eqb_neq (a b : jsstring) : a <> b -> jsstring_eqb a b = false.
Proof. unfold jsstring_eqb. destruct (list_eq_dec N.eq_dec a b); congruence. Qed.

Lemma jsstring_eqb_eq (a b : jsstring) : jsstring_eqb a b = true <-> a = b.
Proof.
  unfold jsstring_eqb. destruct (list_eq_dec N.eq_dec a b); split; congruence.
Qed.

Lemma jsstring_eqb_false (a b : jsstring) : a <> b -> jsstring_eqb a b = false.
Proof.
  intros H. destruct (jsstring_eqb a b) eqn:E; [|reflexivity].
  apply jsstring_eqb_eq in E. contradiction.
Qed.

(** The two click handlers are the same function of the selection. *)
Lemma handleItemClick_onClick (sel : option jsstring) (id : jsstring) :
  ResultsPanel.handleItemClick sel id = AnalysisViewer.onClick sel id.
Proof. reflexivity. Qed.



End Selection.

(* ================================================================== *)
(** * The voltage test and the partition of the components *)
(* ================================================================== *)

Section VoltageFacts.
Import Js Types Spec Samples.

Lemma mismatch_truthy_iff (bv : option number) (c : Component.t) :
  ToBoolean (Voltage.mismatch bv c) = true <->
  exists v m, bv = Some v /\ Component.maxVoltage c = Some m
              /\ number_truthy v = true /\ number_truthy m = true
              /\ number_gt v m = true.
Proof.
  unfold Voltage.mismatch, Voltage.and_, Voltage.gt.
  destruct bv as [v|]; cbn.
  - destruct (number_truthy v) eqn:Hv; cbn.
    + destruct (Component.maxVoltage c) as [m|]; cbn.
      * destruct (number_truthy m) eqn:Hm; cbn.
        -- split.
           ++ intros H. exists v, m. repeat split; assumption.
           ++ intros (v' & m' & E1 & E2 & _ & _ & H).
              injection E1 as <-. injection E2 as <-. exact H.
        -- rewrite Hm. split; [discriminate|].
           intros (v' & m' & _ & E2 & _ & Hm' & _).
           injection E2 as <-. congruence.
      * split; [discriminate|].
        intros (v' & m' & _ & E2 & _). discriminate.
    + rewrite Hv. split; [discriminate|].
      intros (v' & m' & E1 & _ & Hv' & _). injection E1 as <-. congruence.
  - split; [discriminate|]. intros (v' & m' & E1 & _). discriminate.
Qed.

(** C5, the claim refuted: with a board voltage of 5 V and a component
    whose [maxVoltage] is 0, the predicate of the specification holds
    (neither value is null and 5 > 0) and the component is not classified
    as mismatched, in the viewer as in the issue list. *)
Lemma voltage_mismatch_null_test_counterexample :
  let c := sample_component (Some (num 0)) in
  spec_voltage_mismatch (Some (num 5)) c = true
  /\ AnalysisViewer.showVoltageWarning (Some (num 5)) c = false
  /\ ResultsPanel.componentsWithIssues [c] (Some (num 5)) = [].
Proof. vm_compute. repeat split; reflexivity. Qed.

(** C5, amended.  A component is classified as voltage-mismatched, by
    the warning of the viewer and by the third disjunct of the issue
    filter, exactly when the board voltage is set and is not zero (nor
    NaN), the component has a [maxVoltage] that is not zero, and the board
    voltage is greater than it.  With 5 V against 3.3 V it is mismatched;
    with no board voltage no component is, whatever its [maxVoltage]. *)
Theorem voltage_mismatch_truthiness (bv : option number) (c : Component.t) :
  (AnalysisViewer.showVoltageWarning bv c = true <->
   exists v m, bv = Some v /\ Component.maxVoltage c = Some m
               /\ number_truthy v = true /\ number_truthy m = true
               /\ number_gt v m = true)
  /\ Voltage.has_issue bv c
     = negb (Voltage.is_ok_presence (Component.presence c))
       || negb (Voltage.is_ok_condition (Component.condition c))
       || AnalysisViewer.showVoltageWarning bv c
  /\ AnalysisViewer.showVoltageWarning (Some (num 5))
       (sample_component (Some (Finite 33 (-1)))) = true
  /\ AnalysisViewer.showVoltageWarning None c = false.
Proof.
  split; [apply mismatch_truthy_iff|].
  split; [reflexivity|]. split; reflexivity.
Qed.

(** The two filters test complementary predicates. *)
Lemma is_ok_negb_has_issue (bv : option number) (c : Component.t) :
  Voltage.is_ok bv c = negb (Voltage.has_issue bv c).
Proof.
  unfold Voltage.is_ok, Voltage.has_issue.
  destruct (Voltage.is_ok_presence _), (Voltage.is_ok_condition _),
    (ToBoolean _); reflexivity.
Qed.

Section Partition.
Context {A : Type}.
Variables p q : A -> bool.
Hypothesis complementary : forall a, q a = negb (p a).

Lemma filter_partition_perm (l : list A) :
  Permutation (filter p l ++ filter q l) l.
Proof.
  induction l as [|a l IH]; cbn; [constructor|].
  rewrite (complementary a). destruct (p a); cbn.
  - now constructor.
  - apply Permutation_sym, Permutation_cons_app, Permutation_sym, IH.
Qed.

Lemma filter_partition_length (l : list A) :
  List.length (filter p l) + List.length (filter q l) = List.length l.
Proof.
  rewrite <- length_app. apply Permutation_length, filter_partition_perm.
Qed.

Lemma filter_partition_disjoint (l : list A) (a : A) :
  In a (filter p l) -> In a (filter q l) -> False.
Proof.
  rewrite !filter_In, complementary. intros [_ H1] [_ H2].
  rewrite H1 in H2. discriminate.
Qed.

Lemma filter_partition_cover (l : list A) (a : A) :
  In a l -> In a (filter p l) \/ In a (filter q l).
Proof.
  intros H. rewrite !filter_In, complementary.
  destruct (p a); [left | right]; split; auto.
Qed.

End Partition.

(** C10. Whatever the components, the search term and the board
    voltage, the components with issues followed by the OK components are
    a rearrangement of the (search-filtered) components; no component is
    in both lists and every component is in one; the two lengths add up.
    This holds of the explorer view, for any case mapping
    [toLowerCase], and of the PDF report. *)
Theorem issues_ok_partition
    (toLowerCase : jsstring -> jsstring) (analysis : PcbAnalysis)
    (searchTerm : jsstring) (boardVoltage : option number) :
  let shown := ResultsPanel.filtered toLowerCase (components analysis) searchTerm in
  let issues := ResultsPanel.explorer_componentsWithIssues toLowerCase
                  (components analysis) searchTerm boardVoltage in
  let oks := ResultsPanel.explorer_okComponents toLowerCase
               (components analysis) searchTerm boardVoltage in
  let pdf_issues := PdfService.componentsWithIssues analysis boardVoltage in
  let pdf_oks := PdfService.okComponents analysis boardVoltage in
  (Permutation (issues ++ oks) shown
   /\ List.length issues + List.length oks = List.length shown
   /\ forall c, (In c shown <-> In c issues \/ In c oks)
                /\ ~ (In c issues /\ In c oks))
  /\ (Permutation (pdf_issues ++ pdf_oks) (components analysis)
      /\ List.length pdf_issues + List.length pdf_oks
         = List.length (components analysis)
      /\ forall c, (In c (components analysis) <-> In c pdf_issues \/ In c pdf_oks)
                   /\ ~ (In c pdf_issues /\ In c pdf_oks)).
Proof.
  cbv zeta.
  unfold ResultsPanel.explorer_componentsWithIssues,
    ResultsPanel.explorer_okComponents, PdfService.componentsWithIssues,
    PdfService.okComponents.
  pose proof (is_ok_negb_has_issue boardVoltage) as Hc.
  split; (split; [apply filter_partition_perm, Hc|];
          split; [apply filter_partition_length, Hc|];
          intros c; split;
          [ split;
            [ apply filter_partition_cover, Hc
            | intros [H|H]; apply filter_In in H; tauto ]
          | intros [H1 H2];
            exact (filter_partition_disjoint _ _ Hc _ _ H1 H2) ]).
Qed.

End VoltageFacts.

(* ================================================================== *)
(** * The analysis client *)
(* ================================================================== *)

Section AnalysisClient.
Import Js Json Types GeminiService Samples.

(** C9. When [process.env.API_KEY] is undefined or empty,
    [analyzePcbImage] throws the configuration error, whatever the image
    and the service, and has performed nothing by then: no client built,
    no file read, no request sent. *)
Theorem analyze_without_key (API_KEY : option jsstring) (service : Service)
    (imageFile : File) :
  key_truthy API_KEY = false ->
  analyzePcbImage API_KEY service imageFile = ([], inl ConfigurationError)
  /\ existsb is_network_call (fst (analyzePcbImage API_KEY service imageFile))
     = false.
Proof.
  intros H. unfold analyzePcbImage. rewrite H. cbn. split; reflexivity.
Qed.

Lemma analyze_without_key_witness :
  key_truthy None = false
  /\ analyzePcbImage None (fun _ => inr (qq "{}")) sample_file
     = ([], inl ConfigurationError).
Proof.
  split; [reflexivity|].
  exact (proj1 (analyze_without_key None (fun _ => inr (qq "{}")) sample_file
                  eq_refl)).
Defined.

(** With a key, the request is sent once, after the client is built and
    the file is read, and the result is that of [analyze_reply] on the
    reply. *)
Lemma analyze_with_key (k : jsstring) (c : code_unit) (service : Service)
    (imageFile : File) :
  let request :=
    analysis_request {| data := file_base64 imageFile;
                        mimeType := file_type imageFile |} in
  fst (analyzePcbImage (Some (c :: k)) service imageFile)
  = [NewGoogleGenAI (c :: k); ReadAsDataURL imageFile; GenerateContent request]
  /\ snd (analyzePcbImage (Some (c :: k)) service imageFile)
     = match service request with
       | inl e => inl e
       | inr reply => analyze_reply reply
       end.
Proof.
  intros request. unfold analyzePcbImage, analyze_reply.
  cbn -[analysis_request]. fold request.
  destruct (service request) as [e|reply]; cbn.
  - split; reflexivity.
  - destruct (validate_reply (trim reply)); cbn; split; reflexivity.
Qed.

Lemma field_truthy_has_key (v : json) (k : jsstring) :
  field_truthy v k = true -> has_key v k = true.
Proof.
  unfold field_truthy, has_key, get. destruct v; try discriminate.
  destruct (get_member k members); [reflexivity|discriminate].
Qed.

Lemma parse_and_check_spec (jsonText : jsstring) :
  parse_and_check jsonText =
  match JSON_parse jsonText with
  | None => inl ThrownSyntaxError
  | Some v =>
      if field_truthy v (str "components") && field_truthy v (str "defects")
      then inr v
      else match v with
           | JNull => inl ThrownTypeError
           | _ => inl (ThrownError (str "AI response is missing required fields."))
           end
  end.
Proof.
  unfold parse_and_check, field_truthy.
  destruct (JSON_parse jsonText) as [v|]; [|reflexivity].
  generalize (str "components") (str "defects"). intros kc kd.
  destruct v; try reflexivity.
  cbn. destruct (get_member kc members) as [x|]; [|reflexivity].
  destruct (truthy x); [|reflexivity]. cbn.
  destruct (get_member kd members) as [d|]; [|reflexivity].
  destruct (truthy d); reflexivity.
Qed.

(** C1, the claim refuted: this reply parses as JSON and has the two
    top-level keys [components] and [defects], and [analyze] fails with
    [MalformedResponse] instead of returning the parsed value, because the
    value under [components] is [null]. *)
Lemma analyze_keys_present_counterexample :
  let reply := qq "{'components':null,'defects':[]}" in
  exists v,
    JSON_parse reply = Some v
    /\ has_key v (str "components") = true
    /\ has_key v (str "defects") = true
    /\ analyze_reply reply = inl MalformedResponse
    /\ analyze_reply reply <> inr v.
Proof.
  eexists. split; [vm_compute; reflexivity|].
  split; [reflexivity|]. split; [reflexivity|].
  split; [vm_compute; reflexivity|]. vm_compute. discriminate.
Qed.

(** The text is trimmed before it is parsed, and [trim] strips more
    than the white space of JSON: this reply, a vertical tab and an
    object, is not JSON text and [analyze] returns the object. *)
Example analyze_trims_first :
  let reply := 11%N :: qq "{'components':[1],'defects':[2]}" in
  JSON_parse reply = None
  /\ analyze_reply reply
     = inr (JObj [(str "components", JArr [JNum 1 0]);
                  (str "defects", JArr [JNum 2 0])]).
Proof. vm_compute. split; reflexivity. Qed.

(** C1, amended.  For every reply text, [analyze] returns the value the
    trimmed reply parses to when that value has a truthy [components]
    and a truthy [defects] (present, and not [null], [false], [0] or the
    empty string); in every other case, the trimmed reply not being JSON
    text among them, it fails with [MalformedResponse].  What it returns
    is never a part of the parsed value: it is that value.  Through
    [analyzePcbImage], with a key and a service that answers [reply], the
    outcome is the same. *)
Theorem analyze_reply_spec (reply : jsstring) :
  analyze_reply reply =
    match JSON_parse (trim reply) with
    | Some v =>
        if field_truthy v (str "components") && field_truthy v (str "defects")
        then inr v else inl MalformedResponse
    | None => inl MalformedResponse
    end
  /\ (forall v, analyze_reply reply = inr v -> JSON_parse (trim reply) = Some v)
  /\ (forall v, analyze_reply reply = inr v ->
        has_key v (str "components") = true /\ has_key v (str "defects") = true)
  /\ (forall e, analyze_reply reply = inl e -> e = MalformedResponse)
  /\ (forall k c file,
        snd (analyzePcbImage (Some (c :: k)) (fun _ => inr reply) file)
        = analyze_reply reply).
Proof.
  assert (E : analyze_reply reply =
    match JSON_parse (trim reply) with
    | Some v =>
        if field_truthy v (str "components") && field_truthy v (str "defects")
        then inr v else inl MalformedResponse
    | None => inl MalformedResponse
    end).
  { unfold analyze_reply, validate_reply. rewrite parse_and_check_spec.
    destruct (JSON_parse (trim reply)) as [v|]; [|reflexivity].
    destruct (field_truthy v (str "components") && field_truthy v (str "defects"));
      [reflexivity|]. destruct v; reflexivity. }
  split; [exact E|].
  assert (Hret : forall v, analyze_reply reply = inr v ->
            JSON_parse (trim reply) = Some v
            /\ field_truthy v (str "components") = true
            /\ field_truthy v (str "defects") = true).
  { intros v. rewrite E. destruct (JSON_parse (trim reply)) as [v0|];
      [|discriminate].
    destruct (field_truthy v0 (str "components")) eqn:Hc;
      destruct (field_truthy v0 (str "defects")) eqn:Hd; cbn;
      try discriminate.
    intros H. injection H as <-. auto. }
  split; [intros v H; apply (Hret v H)|].
  split.
  { intros v H. destruct (Hret v H) as (_ & Hc & Hd).
    split; now apply field_truthy_has_key. }
  split.
  { intros e. rewrite E. destruct (JSON_parse (trim reply)) as [v0|].
    - destruct (field_truthy v0 (str "components") && field_truthy v0 (str "defects"));
        [discriminate|]. intros H. now injection H as <-.
    - intros H. now injection H as <-. }
  intros k c file.
  exact (proj2 (analyze_with_key k c (fun _ => inr reply) file)).
Qed.

End AnalysisClient.

(* ================================================================== *)
(** * The first element of a list that passes a test *)
(* ================================================================== *)

Section FirstFound.
Context {A : Type}.

(** [find] returns the first element that passes the test *)
Lemma find_first (p : A -> bool) (l : list A) (x : A) :
  find p l = Some x <->
  exists l1 l2, l = l1 ++ x :: l2 /\ p x = true
                /\ forall y, In y l1 -> p y = false.
Proof.
  split.
  - induction l as [|a l IH]; cbn [find]; [discriminate|].
    destruct (p a) eqn:Pa.
    + intros [= <-]. exists [], l. repeat split; auto. intros y [].
    + intros H. destruct (IH H) as (l1 & l2 & -> & Px & Hl).
      exists (a :: l1), l2. repeat split; auto.
      intros y [<-|Hy]; auto.
  - intros (l1 & l2 & -> & Px & Hl).
    induction l1 as [|a l1 IH]; cbn [app find].
    + now rewrite Px.
    + rewrite (Hl a (or_introl eq_refl)). apply IH.
      intros y Hy. apply Hl. now right.
Qed.

Lemma find_none_iff (p : A -> bool) (l : list A) :
  find p l = None <-> forall y, In y l -> p y = false.
Proof.
  split; [apply find_none|].
  induction l as [|a l IH]; cbn [find]; [reflexivity|].
  intros H. rewrite (H a (or_introl eq_refl)). apply IH.
  intros y Hy. apply H. now right.
Qed.

End FirstFound.

(* ================================================================== *)
(** * The chat client: what is sent and what is stored *)
(* ================================================================== *)

Section ChatSend.
Import Js Json Types Samples.

(** C7, the claim refuted: the board voltage is set to 0 (the input
    shows 0, the state holds the number 0, not null), no component is
    selected, and the message goes out as typed, without the note on the
    board voltage the claim says is appended. *)
Lemma send_zero_voltage_counterexample :
  let s := ready [] None (Some (num 0)) in
  App.boardVoltage s = Some (num 0)
  /\ exists s' request,
       App.handleSendMessage_begin s (str "Is it safe?") = Some (s', request)
       /\ GeminiService.outbound request = str "Is it safe?"
       /\ GeminiService.outbound request
          <> str "Is it safe?" ++ GeminiService.voltage_note (num 0).
Proof.
  split; [reflexivity|]. eexists. eexists.
  split; [reflexivity|]. split; [reflexivity|]. vm_compute. discriminate.
Qed.

(** C7, amended.  When a chat session exists and no send is in flight,
    [handleSendMessage] appends to the transcript a [user] entry whose
    text is the message as it was given, and sends the message between a
    prefix and a note.  When the selection is the designator of a
    component of the analysis, the prefix is the description of the first
    such component: its designator, its part number and its condition
    ([Burnt], [Corroded], [Missing] or [OK]), then [My question: ]; when
    no component of the analysis has the selection as designator (or
    nothing is selected, or there is no analysis) the prefix is empty.
    The note gives the board voltage when it is set and is not zero (nor
    NaN); with a board voltage of zero, as with none, there is no note. *)
Theorem send_decorates_outbound_only (s : App.State) (c : GeminiService.Chat)
    (message : jsstring) :
  App.chat s = Some c ->
  App.isChatLoading s = false ->
  exists s' request prefix,
    App.handleSendMessage_begin s message = Some (s', request)
    /\ App.chatHistory s'
       = App.chatHistory s
         ++ [{| ChatMessage.role := user; ChatMessage.text := message;
                ChatMessage.jumperSuggestion := None |}]
    /\ GeminiService.to_chat request = c
    /\ GeminiService.outbound request
       = prefix ++ message
         ++ match App.boardVoltage s with
            | None | Some NaN | Some (Finite 0 _) => []
            | Some v =>
                [LF] ++ str "(Note: The board voltage is set to "
                ++ toString v ++ str "V)."
            end
    /\ (forall a id l1 comp l2,
          App.analysis s = Some a -> App.selectedId s = Some id ->
          components a = l1 ++ comp :: l2 ->
          Component.designator comp = id ->
          (forall x, In x l1 -> Component.designator x <> id) ->
          prefix
          = str "Context: I have selected component " ++ id
            ++ str " (" ++ Component.mpn comp ++ str "). Its condition is '"
            ++ match Component.condition comp, Component.presence comp with
               | Condition_burnt, _ => str "Burnt"
               | Condition_corroded, _ => str "Corroded"
               | Condition_ok, Presence_missing => str "Missing"
               | Condition_ok, Presence_ok => str "OK"
               end
            ++ str "'." ++ [LF; LF] ++ str "My question: ")
    /\ ((forall a id comp,
           App.analysis s = Some a -> App.selectedId s = Some id ->
           In comp (components a) -> Component.designator comp <> id) ->
        prefix = []).
Proof.
  intros Hc Hl. unfold App.handleSendMessage_begin. rewrite Hc, Hl.
  exists (App.setChatHistory
            (App.chatHistory s ++ [App.userMessage message])
            (App.setIsChatLoading true s)),
         (GeminiService.sendMessage c message (App.send_context s)),
         (match App.selectedComponent s with
          | Some comp => GeminiService.component_prefix comp
          | None => []
          end).
  split; [reflexivity|]. split; [reflexivity|]. split; [reflexivity|].
  split; [|split].
  - cbn [GeminiService.sendMessage GeminiService.outbound].
    unfold GeminiService.contextualMessage, App.send_context,
      App.voltage_or_undefined, GeminiService.voltage_note.
    cbn [GeminiService.component GeminiService.boardVoltage].
    destruct (App.selectedComponent s) as [comp|];
      destruct (App.boardVoltage s) as [[| |[| |] ?]|]; cbn [number_truthy];
      cbn [app Z.eqb negb]; rewrite ?app_nil_r, <- ?app_assoc; reflexivity.
  - intros a id l1 comp l2 Ha Hid Hcs Hd Hfirst.
    assert (F : App.selectedComponent s = Some comp).
    { unfold App.selectedComponent. rewrite Ha, Hid. apply find_first.
      exists l1, l2. split; [exact Hcs|].
      unfold AnalysisViewer.is_selected. split.
      - rewrite Hd. apply jsstring_eqb_refl.
      - intros y Hy. apply jsstring_eqb_false. intros E. now apply (Hfirst y Hy). }
    rewrite F. unfold GeminiService.component_prefix, GeminiService.getStatusText.
    rewrite Hd.
    destruct (Component.condition comp), (Component.presence comp);
      repeat (rewrite <- ?app_assoc; cbn [app]); reflexivity.
  - intros Hnone. unfold App.selectedComponent.
    destruct (App.analysis s) as [a|] eqn:Ha; [|reflexivity].
    destruct (find _ (components a)) as [comp|] eqn:F; [|reflexivity].
    exfalso. apply find_some in F. destruct F as [Hin Hsel].
    unfold AnalysisViewer.is_selected in Hsel.
    destruct (App.selectedId s) as [id|] eqn:Hid; [|discriminate].
    apply jsstring_eqb_eq in Hsel.
    exact (Hnone a id comp eq_refl eq_refl Hin (eq_sym Hsel)).
Qed.

Lemma send_decorates_outbound_only_witness :
  let s := ready sample_board (Some (str "R17")) (Some (num 5)) in
  exists s' request,
    App.handleSendMessage_begin s (str "Is it safe?") = Some (s', request)
    /\ GeminiService.outbound request
       = str "Context: I have selected component R17 (RC0603). Its condition is 'Burnt'."
         ++ [LF; LF] ++ str "My question: Is it safe?"
         ++ [LF] ++ str "(Note: The board voltage is set to 5V).".
Proof.
  destruct (send_decorates_outbound_only
              (ready sample_board (Some (str "R17")) (Some (num 5)))
              sample_chat (str "Is it safe?") eq_refl eq_refl)
    as (s' & request & prefix & H1 & _ & _ & H2 & H3 & _).
  exists s', request. split; [exact H1|]. rewrite H2.
  rewrite (H3 (sample_analysis sample_board) (str "R17")
              [sample_part "C3" "GRM188" Condition_ok]
              (sample_part "R17" "RC0603" Condition_burnt)
              [sample_part "R17" "ERJ-3" Condition_ok;
               sample_part "U2" "RC0603" Condition_corroded]
              eq_refl eq_refl eq_refl eq_refl).
  - vm_compute. reflexivity.
  - intros x [<-|[]]. vm_compute. discriminate.
Defined.

End ChatSend.

(* ================================================================== *)
(** * The bill of materials *)
(* ================================================================== *)

Section Bom.
Import Js Json Types Samples.

(** C8, the claim refuted: for the analysis with the one component
    R17 whose [mpn] is the empty string, the file has the header row and
    one data row, and the MPN field of that row is the empty string
    between its two quotes, not a placeholder; the header names three
    columns otherwise than the claim does and is not quoted. *)
Lemma bom_empty_mpn_counterexample :
  let a := sample_analysis [sample_component None] in
  App.csvContent (Some a)
  = Some (str "Designator,MPN,Presence,Condition,Confidence,Temperature (C),Max Voltage (V),Datasheet"
          ++ [LF]
          ++ qq "'R17','','ok','ok','0.92','N/A','N/A','N/A'")
  /\ nth 1 (map App.quoted (App.row (sample_component None))) [] = qq "''"
  /\ nth 1 (map App.quoted (App.row (sample_component None))) []
     <> App.quoted (str "N/A").
Proof.
  split; [vm_compute; reflexivity|].
  split; [vm_compute; reflexivity|]. vm_compute. discriminate.
Qed.

(** C8, amended.  With an analysis, the file is the header row
    [Designator,MPN,Presence,Condition,Confidence,Temperature (C),
    Max Voltage (V),Datasheet], not quoted, followed by one row for each
    component, in order, the rows joined by line feeds.  A row is the
    eight values of the component, each between double quotes, joined by
    commas; [temperature], [maxVoltage] and [datasheetUrl] are rendered
    as [N/A] when they are missing; [mpn] is rendered as it is, the empty
    string as an empty field.  Without an analysis nothing is exported. *)
Theorem bom_csv_layout (a : PcbAnalysis) :
  App.csvContent None = None
  /\ App.csvContent (Some a)
     = Some (join [LF]
               (str "Designator,MPN,Presence,Condition,Confidence,Temperature (C),Max Voltage (V),Datasheet"
                :: map (fun c => join (str ",") (map App.quoted (App.row c)))
                     (components a)))
  /\ List.length (App.csvRows (components a)) = 1 + List.length (components a)
  /\ forall c,
       join (str ",") (map App.quoted (App.row c))
       = qq "'" ++ Component.designator c
         ++ qq "','" ++ Component.mpn c
         ++ qq "','" ++ Presence_str (Component.presence c)
         ++ qq "','" ++ Condition_str (Component.condition c)
         ++ qq "','" ++ toString (Component.confidence c)
         ++ qq "','" ++ match Component.temperature c with
                        | Some t => toString t | None => str "N/A" end
         ++ qq "','" ++ match Component.maxVoltage c with
                        | Some v => toString v | None => str "N/A" end
         ++ qq "','" ++ match Component.datasheetUrl c with
                        | Some u => u | None => str "N/A" end
         ++ qq "'".
Proof.
  split; [reflexivity|]. split; [reflexivity|].
  split; [unfold App.csvRows; cbn; now rewrite length_map|].
  intros c. unfold App.row, App.quoted, App.number_or_NA, App.string_or_NA.
  cbn [map join]. change (str ",") with [44%N]. change (qq "','") with [34%N; 44%N; 34%N].
  change (qq "'") with [34%N]. unfold DQUOTE.
  repeat (rewrite <- ?app_assoc; cbn [app]). reflexivity.
Qed.

End Bom.

(* ================================================================== *)
(** * Uploads, resets and the requests in flight *)
(* ================================================================== *)

Section Sessions.
Import Js Json Types Samples.

(** C2, the claim refuted: image A is uploaded, Start Over is
    clicked while its request is pending, image B is uploaded, and the
    reply for A arrives first.  Every action is one the page offers.  The
    reply for A is not ignored: it becomes the analysis of the session of
    image B, whose own request is still pending, and it clears the
    loading flag.  When the reply for B arrives first and the one for A
    after it, the analysis of B is overwritten by that of A. *)
Lemma stale_response_counterexample :
  let l := [App.Upload file_A; App.StartOver; App.Upload file_B;
            App.AnalysisSettles 1 (inr result_A)] in
  let w := App.run the_key App.start l in
  App.all_offered the_key App.start l = true
  /\ App.imageFile (App.ui w) = Some file_B
  /\ App.analysis_requests w = [(3, file_B)]
  /\ App.analysis (App.ui w) = Some result_A
  /\ App.isLoading (App.ui w) = false
  /\ App.analysis
       (App.ui (App.run the_key App.start
                  [App.Upload file_A; App.StartOver; App.Upload file_B;
                   App.AnalysisSettles 3 (inr result_B);
                   App.AnalysisSettles 1 (inr result_A)]))
     = Some result_A.
Proof. vm_compute. repeat split; reflexivity. Qed.

Lemma useEffect_chat_analysis (key : option jsstring) (w : App.World) :
  App.analysis (App.ui (App.useEffect_chat key w)) = App.analysis (App.ui w)
  /\ App.isLoading (App.ui (App.useEffect_chat key w)) = App.isLoading (App.ui w)
  /\ App.error (App.ui (App.useEffect_chat key w)) = App.error (App.ui w)
  /\ App.imageFile (App.ui (App.useEffect_chat key w)) = App.imageFile (App.ui w)
  /\ App.analysis_requests (App.useEffect_chat key w) = App.analysis_requests w.
Proof.
  unfold App.useEffect_chat.
  destruct w as [s rs cs ps rv n]. destruct s. cbn.
  destruct analysis, chat, key as [[|c0 k]|]; repeat split; reflexivity.
Qed.

Lemma settle_not_pending {A} (request : nat) (l : list (nat * A)) :
  App.is_pending request (App.settle request l) = false.
Proof.
  unfold App.is_pending, App.settle.
  induction l as [|[i f] l IH]; [reflexivity|].
  cbn. destruct (Nat.eqb i request) eqn:E; cbn; [exact IH|].
  rewrite E. exact IH.
Qed.

(** C2, amended.  There is no guard: when a pending analysis request
    settles, superseded or not, its result becomes the analysis of the
    current state (its failure, the error shown), the loading flag is
    cleared, and the image of the current session stays; the request that
    settles is not looked at. *)
Theorem stale_response_is_stored (key : option jsstring) (w : App.World)
    (request : nat) (result : PcbAnalysis) (err : GeminiService.exn) :
  App.is_pending request (App.analysis_requests w) = true ->
  let w_ok := App.step key w (App.AnalysisSettles request (inr result)) in
  let w_ko := App.step key w (App.AnalysisSettles request (inl err)) in
  App.analysis (App.ui w_ok) = Some result
  /\ App.isLoading (App.ui w_ok) = false
  /\ App.imageFile (App.ui w_ok) = App.imageFile (App.ui w)
  /\ App.error (App.ui w_ko) = Some (App.error_text err)
  /\ App.isLoading (App.ui w_ko) = false
  /\ App.is_pending request (App.analysis_requests w_ok) = false.
Proof.
  intros Hp w_ok w_ko. subst w_ok w_ko. unfold App.step.
  destruct (useEffect_chat_analysis key
              (App.handle w (App.AnalysisSettles request (inr result))))
    as (-> & -> & _ & -> & ->).
  destruct (useEffect_chat_analysis key
              (App.handle w (App.AnalysisSettles request (inl err))))
    as (_ & -> & -> & _ & _).
  cbn [App.handle]. rewrite Hp. cbn.
  repeat split; try reflexivity. apply settle_not_pending.
Qed.

Lemma stale_response_is_stored_witness :
  let w := App.run the_key App.start
             [App.Upload file_A; App.StartOver; App.Upload file_B] in
  App.is_pending 1 (App.analysis_requests w) = true
  /\ App.imageFile (App.ui w) = Some file_B
  /\ App.analysis
       (App.ui (App.step the_key w (App.AnalysisSettles 1 (inr result_A))))
     = Some result_A.
Proof.
  split; [reflexivity|]. split; [reflexivity|].
  exact (proj1 (stale_response_is_stored the_key
                  (App.run the_key App.start
                     [App.Upload file_A; App.StartOver; App.Upload file_B])
                  1 result_A GeminiService.NotAnError eq_refl)).
Defined.

(** C4, the claim refuted: an analysis is shown, a chat message is
    sent and a report is asked for and, before either is done, Start Over
    is clicked and a new image is uploaded.  Every action is one the page
    offers.  The chat-busy flag and the report-busy flag of the prior
    session are still set in the new one. *)
Lemma upload_keeps_busy_flag_counterexample :
  let l := [App.Upload file_A; App.AnalysisSettles 1 (inr result_A);
            App.Send (str "Is it safe?"); App.GenerateReport;
            App.StartOver; App.Upload file_B] in
  let w := App.run the_key App.start l in
  App.all_offered the_key App.start l = true
  /\ App.imageFile (App.ui w) = Some file_B
  /\ App.isChatLoading (App.ui w) = true
  /\ App.isReporting (App.ui w) = true
  /\ App.isChatLoading App.initial = false
  /\ App.isReporting App.initial = false.
Proof. vm_compute. repeat split; reflexivity. Qed.

(** When the reply to that message arrives, it is appended to the
    transcript of the new session. *)
Example stale_chat_reply_in_new_transcript :
  let w := App.run the_key App.start
             [App.Upload file_A; App.AnalysisSettles 1 (inr result_A);
              App.Send (str "Is it safe?"); App.StartOver;
              App.Upload file_B; App.ChatSettles 3 (inr (str "Yes."))] in
  App.imageFile (App.ui w) = Some file_B
  /\ App.chatHistory (App.ui w)
     = [{| ChatMessage.role := model; ChatMessage.text := str "Yes.";
           ChatMessage.jumperSuggestion := None |}]
  /\ App.isChatLoading (App.ui w) = false.
Proof. vm_compute. repeat split; reflexivity. Qed.

(** C4, amended.  From any state, the part of [handleImageUpload] that
    runs before the request is made leaves the analysis, the chat
    transcript, the chat session, the board voltage, the selection, the
    hover and the jumper suggestion cleared, the error cleared, the new
    file and its URL in place and the loading flag set: every field is
    fixed by the new upload alone, except the two busy flags
    [isChatLoading] and [isReporting], which keep the value they had.  On
    the page, the upload leaves the new request pending in that state
    (the effect that creates a chat session does not run, as there is no
    analysis), and Start Over alone clears the same fields. *)
Theorem upload_resets_session (key : option jsstring) (w : App.World)
    (file : GeminiService.File) :
  let s := App.ui w in
  let cleared (image : option GeminiService.File) (url : option App.ObjectURL)
              (loading : bool) :=
    {| App.analysis := None; App.imageFile := image; App.imageUrl := url;
       App.isLoading := loading; App.error := None; App.hoveredId := None;
       App.selectedId := None; App.boardVoltage := None; App.chat := None;
       App.chatHistory := []; App.isChatLoading := App.isChatLoading s;
       App.jumperSuggestion := None; App.isReporting := App.isReporting s |} in
  (forall url, App.handleImageUpload_begin s file url
               = cleared (Some file) (Some url) true)
  /\ App.handleReset s = cleared None None false
  /\ App.ui (App.step key w (App.Upload file))
     = cleared (Some file) (Some (App.fresh w)) true
  /\ App.analysis_requests (App.step key w (App.Upload file))
     = App.analysis_requests w ++ [(S (App.fresh w), file)]
  /\ App.ui (App.step key w App.StartOver) = cleared None None false.
Proof.
  cbv zeta. repeat split; try reflexivity.
Qed.

End Sessions.

(* ================================================================== *)
(** * The chat client: the reply and the jumper block *)
(* ================================================================== *)

Section ChatReply.
Import Js Json Types Regex Samples.

Lemma optional_get_truthy_field (v : json) (k : jsstring) :
  App.optional_get_truthy v k = field_truthy v k.
Proof. destruct v; reflexivity. Qed.

(** The block yields a jumper exactly when it is JSON text whose value
    has a [jumper] with a truthy [from] and a truthy [to]. *)
Lemma jumper_of_block_Some (block : jsstring) (j : json) :
  App.jumper_of_block block = Some j <->
  exists parsed,
    JSON_parse block = Some parsed
    /\ get parsed (str "jumper") = Got j
    /\ field_truthy j (str "from") = true
    /\ field_truthy j (str "to") = true.
Proof.
  unfold App.jumper_of_block.
  generalize (str "jumper") (str "from") (str "to"). intros kj kf kt.
  destruct (JSON_parse block) as [parsed|].
  - destruct (get parsed kj) as [j0| |] eqn:G.
    + rewrite !optional_get_truthy_field.
      destruct (field_truthy j0 kf) eqn:Hf, (field_truthy j0 kt) eqn:Ht; cbn;
        (split;
         [ intros H; try discriminate; injection H as <-; exists parsed; auto
         | intros (parsed' & E & G' & Hf' & Ht'); injection E as <-;
           rewrite G in G'; injection G' as <-; congruence ]).
    + split; [discriminate|].
      intros (parsed' & E & G' & _). injection E as <-. congruence.
    + split; [discriminate|].
      intros (parsed' & E & G' & _). injection E as <-. congruence.
  - split; [discriminate|]. intros (parsed' & E & _). discriminate.
Qed.

(** C3, the claim refuted.  The block of the first reply is not JSON:
    the extraction is skipped and yet the block does not stay in the text
    shown, it is removed as a well-formed one is.  The second reply has no
    block and the text shown is not the raw reply: it is trimmed. *)
Lemma malformed_block_counterexample :
  let reply := str "Bridge the pads. ```json {'jumper': oops} ``` Then retest." in
  let plain := str "  Replace C4." ++ [LF] in
  ChatMessage.jumperSuggestion (App.modelMessage reply) = None
  /\ ChatMessage.text (App.modelMessage reply)
     = str "Bridge the pads.  Then retest."
  /\ ChatMessage.text (App.modelMessage reply) <> reply
  /\ match_ plain App.JUMPER_JSON_REGEX = None
  /\ ChatMessage.text (App.modelMessage plain) = str "Replace C4."
  /\ ChatMessage.text (App.modelMessage plain) <> plain.
Proof.
  split; [vm_compute; reflexivity|]. split; [vm_compute; reflexivity|].
  split; [vm_compute; discriminate|]. split; [vm_compute; reflexivity|].
  split; [vm_compute; reflexivity|]. vm_compute; discriminate.
Qed.

Lemma match_some_fenced (reply : jsstring) (m : match_result) :
  match_ reply App.JUMPER_JSON_REGEX = Some m ->
  exists before ws1 body ws2,
    all_space ws1 = true /\ all_space ws2 = true
    /\ reply = App.fenced before ws1 body ws2 (after m)
    /\ App.modelMessage reply
       = {| ChatMessage.role := model;
            ChatMessage.text := trim (before ++ after m);
            ChatMessage.jumperSuggestion :=
              App.jumper_of_block (123%N :: body ++ [125%N]) |}.
Proof.
  intros M. destruct (exec_from_shape 0 reply m M)
    as (before & ws1 & body & ws2 & E & Hi & Hm & H1 & H2 & Hg).
  exists before, ws1, body, ws2. split; [exact H1|]. split; [exact H2|].
  assert (Er : reply = App.fenced before ws1 body ws2 (after m)).
  { rewrite E, Hm. unfold App.fenced.
    repeat (rewrite <- ?app_assoc; cbn [app]). reflexivity. }
  split; [exact Er|].
  unfold App.modelMessage, App.jumper_of_reply, replace_with_empty.
  rewrite M, Hg. cbn [Nat.add] in Hi. rewrite Hi. f_equal.
  rewrite E at 1. rewrite firstn_app, firstn_all, Nat.sub_diag. cbn [firstn].
  now rewrite app_nil_r.
Qed.

Lemma fenced_some_match (before ws1 body ws2 rest : jsstring) :
  all_space ws1 = true -> all_space ws2 = true ->
  exists m,
    match_ (App.fenced before ws1 body ws2 rest) App.JUMPER_JSON_REGEX = Some m.
Proof.
  intros H1 H2.
  destruct (match_at_complete ws1 body ws2 rest H1 H2) as (r & Hr).
  exact (exec_from_complete before _ 0 r Hr).
Qed.

Lemma match_first_block (reply : jsstring) (m : match_result) :
  match_ reply App.JUMPER_JSON_REGEX = Some m ->
  exists before ws1 body ws2,
    App.first_block reply before ws1 body ws2 (after m)
    /\ App.modelMessage reply
       = {| ChatMessage.role := model;
            ChatMessage.text := trim (before ++ after m);
            ChatMessage.jumperSuggestion :=
              App.jumper_of_block (123%N :: body ++ [125%N]) |}.
Proof.
  intros M. destruct (exec_from_first 0 reply m M)
    as (before & ws1 & body & ws2 & F & Hi & Hg).
  exists before, ws1, body, ws2. split; [exact F|].
  unfold App.modelMessage, App.jumper_of_reply, replace_with_empty.
  rewrite M, Hg. cbn [Nat.add] in Hi. rewrite Hi. f_equal.
  destruct F as [(_ & _ & E) _]. rewrite E at 1. unfold App.fenced.
  rewrite firstn_app, firstn_all, Nat.sub_diag. cbn [firstn].
  now rewrite app_nil_r.
Qed.

Lemma no_backtick_first_block (pre ws1 body ws2 post : jsstring) :
  has_backtick pre = false -> all_space ws1 = true ->
  all_space ws2 = true -> has_backtick body = false ->
  App.first_block (App.fenced pre ws1 body ws2 post) pre ws1 body ws2 post.
Proof.
  intros Hp H1 H2 Hb.
  destruct (fenced_some_match pre ws1 body ws2 post H1 H2) as (m & M).
  destruct (exec_from_first 0 _ m M) as (b & w1 & bd & w2 & F & Hi & Hg).
  pose proof (match_fenced_block pre ws1 body ws2 post
                (has_backtick_false _ Hp) (all_space_Forall _ H1)
                (all_space_Forall _ H2) (has_backtick_false _ Hb)) as M'.
  cbv zeta in M'.
  replace (pre ++ (str "```json" ++ ws1 ++ 123%N :: body ++ 125%N :: ws2 ++ str "```")
           ++ post)
    with (App.fenced pre ws1 body ws2 post) in M'
    by (unfold App.fenced; repeat (rewrite <- ?app_assoc; cbn [app]); reflexivity).
  rewrite M in M'. injection M' as ->. cbn [index group1 after] in *.
  injection Hg as Hg. apply app_inv_tail in Hg. subst bd.
  split; [split; [exact H1|split; [exact H2|reflexivity]]|].
  intros b' w1' bd' w2' r' B'.
  destruct (proj2 F _ _ _ _ _ B') as [L|[L1 L2]]; [left; lia|right; split; [lia|exact L2]].
Qed.

(** C3, amended.  For every reply: when it has no fenced block, the
    stored model message has the trimmed reply as text and no
    [jumperSuggestion]; when it has one, it has a first one, the one
    that starts leftmost and, where it starts, is the shortest; the text
    is the reply with the first block removed, then trimmed, whether the
    block is well-formed JSON or not, and the [jumperSuggestion] is what
    the first block yields: this holds of every way of reading the first
    block off the reply, and there is only one.  When no backtick stands
    before a block nor inside it, that block is the first.  A block
    yields its [jumper] when it is JSON text whose [jumper] has a truthy
    [from] and a truthy [to], and nothing otherwise.  The message is
    appended to the transcript as it is. *)
Theorem model_message_of_reply (reply : jsstring) (s : App.State) :
  (~ App.has_fenced_block reply ->
   App.modelMessage reply
   = {| ChatMessage.role := model; ChatMessage.text := trim reply;
        ChatMessage.jumperSuggestion := None |})
  /\ (App.has_fenced_block reply ->
      exists before ws1 body ws2 rest,
        App.first_block reply before ws1 body ws2 rest
        /\ App.modelMessage reply
           = {| ChatMessage.role := model;
                ChatMessage.text := trim (before ++ rest);
                ChatMessage.jumperSuggestion :=
                  App.jumper_of_block (123%N :: body ++ [125%N]) |})
  /\ (forall pre ws1 body ws2 post,
        has_backtick pre = false -> all_space ws1 = true ->
        all_space ws2 = true -> has_backtick body = false ->
        reply = App.fenced pre ws1 body ws2 post ->
        App.modelMessage reply
        = {| ChatMessage.role := model;
             ChatMessage.text := trim (pre ++ post);
             ChatMessage.jumperSuggestion :=
               App.jumper_of_block (123%N :: body ++ [125%N]) |})
  /\ (forall block j,
        App.jumper_of_block block = Some j <->
        exists parsed,
          JSON_parse block = Some parsed
          /\ get parsed (str "jumper") = Got j
          /\ field_truthy j (str "from") = true
          /\ field_truthy j (str "to") = true)
  /\ App.chatHistory (App.handleSendMessage_settled s (inr reply))
     = App.chatHistory s ++ [App.modelMessage reply]
  /\ (forall before ws1 body ws2 rest,
        App.first_block reply before ws1 body ws2 rest ->
        App.modelMessage reply
        = {| ChatMessage.role := model;
             ChatMessage.text := trim (before ++ rest);
             ChatMessage.jumperSuggestion :=
               App.jumper_of_block (123%N :: body ++ [125%N]) |})
  /\ (forall before ws1 body ws2 rest before' ws1' body' ws2' rest',
        App.first_block reply before ws1 body ws2 rest ->
        App.first_block reply before' ws1' body' ws2' rest' ->
        before = before' /\ ws1 = ws1' /\ body = body' /\ ws2 = ws2'
        /\ rest = rest').
Proof.
  assert (F : forall before ws1 body ws2 rest,
             App.first_block reply before ws1 body ws2 rest ->
             App.modelMessage reply
             = {| ChatMessage.role := model;
                  ChatMessage.text := trim (before ++ rest);
                  ChatMessage.jumperSuggestion :=
                    App.jumper_of_block (123%N :: body ++ [125%N]) |}).
  { intros before ws1 body ws2 rest Hf.
    destruct Hf as [(H1 & H2 & E) Hmin].
    destruct (fenced_some_match before ws1 body ws2 rest H1 H2) as (m & M).
    rewrite <- E in M.
    destruct (match_first_block reply m M) as (b & w1 & bd & w2 & Hf' & T).
    destruct (first_block_unique reply before ws1 body ws2 rest b w1 bd w2 (after m)
                (conj (conj H1 (conj H2 E)) Hmin) Hf')
      as (Eb & _ & Ebd & _ & Er).
    rewrite Eb, Ebd, Er. exact T. }
  split.
  { intros Hno. unfold App.modelMessage, App.jumper_of_reply, replace_with_empty.
    destruct (match_ reply App.JUMPER_JSON_REGEX) as [m|] eqn:M; [|reflexivity].
    exfalso. apply Hno.
    destruct (match_some_fenced reply m M)
      as (before & ws1 & body & ws2 & H1 & H2 & E & _).
    exists before, ws1, body, ws2, (after m). auto. }
  split.
  { intros (before & ws1 & body & ws2 & rest & H1 & H2 & E).
    destruct (fenced_some_match before ws1 body ws2 rest H1 H2) as (m & M).
    rewrite <- E in M.
    destruct (match_first_block reply m M) as (b & w1 & bd & w2 & Hf & T).
    exists b, w1, bd, w2, (after m). auto. }
  split.
  { intros pre ws1 body ws2 post Hp H1 H2 Hb E.
    apply (F pre ws1 body ws2 post). rewrite E.
    now apply no_backtick_first_block. }
  split; [intros block j; apply jumper_of_block_Some|].
  split.
  { unfold App.handleSendMessage_settled.
    destruct (ChatMessage.jumperSuggestion (App.modelMessage reply)); reflexivity. }
  split; [exact F|].
  intros. eapply first_block_unique; eassumption.
Qed.

Lemma model_message_of_reply_witness :
  let reply := App.fenced (str "Add a wire." ++ [LF]) [LF] jumper_body [LF] [] in
  has_backtick jumper_body = false
  /\ App.modelMessage reply
     = {| ChatMessage.role := model;
          ChatMessage.text := str "Add a wire.";
          ChatMessage.jumperSuggestion := Some jumper_value |}.
Proof.
  split; [reflexivity|].
  etransitivity.
  - exact (proj1 (proj2 (proj2
             (model_message_of_reply
                (App.fenced (str "Add a wire." ++ [LF]) [LF] jumper_body [LF] [])
                App.initial)))
             (str "Add a wire." ++ [LF]) [LF] jumper_body [LF] []
             eq_refl eq_refl eq_refl eq_refl eq_refl).
  - vm_compute. reflexivity.
Defined.

(** Inline code, then two blocks: the first one is removed and read, the
    second stays in the text. *)
Example first_of_two_blocks :
  let reply :=
    str "Check `R17`. ```json {" ++ jumper_body ++ str "} ``` or ```json {} ```" in
  App.modelMessage reply
  = {| ChatMessage.role := model;
       ChatMessage.text := str "Check `R17`.  or ```json {} ```";
       ChatMessage.jumperSuggestion := Some jumper_value |}.
Proof. vm_compute. reflexivity. Qed.

(** The block of the system instruction, spread over lines and
    indented, is extracted as well. *)
Example jumper_block_of_the_instruction :
  let reply :=
    str "Bypass R17:" ++ [LF] ++ str "```json" ++ [LF]
    ++ str "{" ++ [LF] ++ qq "  'jumper': {" ++ [LF]
    ++ qq "    'from': { 'x': 0.25, 'y': 0.35 }," ++ [LF]
    ++ qq "    'to': { 'x': 0.28, 'y': 0.55 }" ++ [LF]
    ++ str "  }" ++ [LF] ++ str "}" ++ [LF] ++ str "```" ++ [LF]
    ++ str "Solder it on the bottom side." in
  App.modelMessage reply
  = {| ChatMessage.role := model;
       ChatMessage.text := str "Bypass R17:" ++ [LF; LF]
                           ++ str "Solder it on the bottom side.";
       ChatMessage.jumperSuggestion := Some jumper_value |}.
Proof. vm_compute. reflexivity. Qed.

End ChatReply.

(* ================================================================== *)
(** * The rest of the page: the functions around the handlers *)
(* ================================================================== *)

Section Encoding.
Import Js DatasheetService Predicates.


Lemma hex_digit_safe (n : N) : (n < 16)%N -> uri_safe (hex_digit n) = true.
Proof.
  intros H. unfold hex_digit, uri_safe, is_unreserved.
  destruct (N.ltb_spec n 10) as [L|L].
  - assert (A : (48 <=? 48 + n)%N = true) by (apply N.leb_le; lia).
    assert (B : (48 + n <=? 57)%N = true) by (apply N.leb_le; lia).
    rewrite A, B. reflexivity.
  - assert (A : (65 <=? 55 + n)%N = true) by (apply N.leb_le; lia).
    assert (B : (55 + n <=? 90)%N = true) by (apply N.leb_le; lia).
    rewrite A, B. cbn [andb]. rewrite orb_true_r. reflexivity.
Qed.

Lemma percent_safe (octet : N) : forallb uri_safe (percent octet) = true.
Proof.
  unfold percent. cbn [forallb].
  rewrite !hex_digit_safe by (apply N.mod_lt; discriminate). reflexivity.
Qed.

Lemma escape_safe (cp : N) : forallb uri_safe (escape cp) = true.
Proof.
  unfold escape. induction (utf8 cp) as [|o l IH]; [reflexivity|].
  cbn [flat_map]. now rewrite forallb_app, percent_safe, IH.
Qed.

Lemma encode_cases (c : code_unit) (r : jsstring) :
  encodeURIComponent (c :: r)
  = if is_unreserved c then option_map (cons c) (encodeURIComponent r)
    else if is_low_surrogate c then None
    else if is_high_surrogate c then
      match r with
      | d :: r' =>
          if is_low_surrogate d then
            option_map
              (app (escape ((c - 55296) * 1024 + (d - 56320) + 65536)%N))
              (encodeURIComponent r')
          else None
      | [] => None
      end
    else option_map (app (escape c)) (encodeURIComponent r).
Proof. reflexivity. Qed.

(** induction on a string two characters at a time *)
Lemma pair_induction (P : jsstring -> Prop) :
  P [] -> (forall c, P [c]) ->
  (forall c r, P r -> (forall d r', r = d :: r' -> P r') -> P (c :: r)) ->
  forall s, P s.
Proof.
  intros H0 H1 H2. 
  assert (H : forall s, P s /\ (forall d r', s = d :: r' -> P r')).
  { induction s as [|c r [IH1 IH2]].
    - split; [exact H0|discriminate].
    - split.
      + apply H2; assumption.
      + intros d r' [= <- <-]. exact IH1. }
  intros s. apply H.
Qed.

Lemma encode_safe (s out : jsstring) :
  encodeURIComponent s = Some out -> forallb uri_safe out = true.
Proof.
  revert out. induction s as [| c | c r IH IH2] using pair_induction; intros out.
  - intros [= <-]. reflexivity.
  - rewrite encode_cases. cbn [encodeURIComponent option_map].
    destruct (is_unreserved c) eqn:U.
    + intros [= <-]. cbn. unfold uri_safe. now rewrite U.
    + destruct (is_low_surrogate c); [discriminate|].
      destruct (is_high_surrogate c); [discriminate|].
      intros [= <-]. rewrite app_nil_r. apply escape_safe.
  - rewrite encode_cases. destruct (is_unreserved c) eqn:U.
    + destruct (encodeURIComponent r) as [o|]; [|discriminate].
      intros [= <-]. cbn [forallb]. unfold uri_safe at 1. rewrite U.
      now apply IH.
    + destruct (is_low_surrogate c); [discriminate|].
      destruct (is_high_surrogate c).
      * destruct r as [|d r']; [discriminate|].
        destruct (is_low_surrogate d); [|discriminate].
        destruct (encodeURIComponent r') as [o|] eqn:E; [|discriminate].
        intros [= <-]. rewrite forallb_app, escape_safe.
        now apply (IH2 d r' eq_refl).
      * destruct (encodeURIComponent r) as [o|]; [|discriminate].
        intros [= <-]. rewrite forallb_app, escape_safe. now apply IH.
Qed.


Lemma unreserved_not_surrogate (c : code_unit) :
  is_unreserved c = true -> is_high_surrogate c = false /\ is_low_surrogate c = false.
Proof.
  unfold is_unreserved, is_high_surrogate, is_low_surrogate. intros H.
  split; apply not_true_is_false; intros K;
    repeat (apply andb_prop in K; destruct K as [K ?]);
    repeat match goal with
           | E : (_ <=? _)%N = true |- _ => apply N.leb_le in E
           end;
    repeat (apply orb_prop in H; destruct H as [H|H]);
    repeat (apply andb_prop in H; destruct H as [H ?]);
    repeat match goal with
           | E : (_ <=? _)%N = true |- _ => apply N.leb_le in E
           | E : (_ =? _)%N = true |- _ => apply N.eqb_eq in E
           end; lia.
Qed.

Lemma encode_app (a b x : jsstring) :
  encodeURIComponent a = Some x ->
  encodeURIComponent (a ++ b) = option_map (app x) (encodeURIComponent b).
Proof.
  revert x. induction a as [| c | c r IH IH2] using pair_induction; intros x.
  - intros [= <-]. cbn. destruct (encodeURIComponent b); reflexivity.
  - rewrite encode_cases. cbn [encodeURIComponent option_map]. cbn [app].
    rewrite encode_cases.
    destruct (is_unreserved c) eqn:U.
    + intros [= <-]. destruct (encodeURIComponent b); reflexivity.
    + destruct (is_low_surrogate c); [discriminate|].
      destruct (is_high_surrogate c); [discriminate|].
      intros [= <-]. rewrite app_nil_r.
      destruct (encodeURIComponent b); reflexivity.
  - cbn [app]. rewrite !encode_cases. destruct (is_unreserved c) eqn:U.
    + destruct (encodeURIComponent r) as [o|]; [|discriminate].
      intros [= <-]. rewrite (IH o eq_refl).
      destruct (encodeURIComponent b); reflexivity.
    + destruct (is_low_surrogate c); [discriminate|].
      destruct (is_high_surrogate c).
      * destruct r as [|d r']; [discriminate|]. cbn [app].
        destruct (is_low_surrogate d); [|discriminate].
        destruct (encodeURIComponent r') as [o|] eqn:E; [|discriminate].
        intros [= <-]. rewrite (IH2 d r' eq_refl o E).
        destruct (encodeURIComponent b); cbn; [now rewrite app_assoc|reflexivity].
      * destruct (encodeURIComponent r) as [o|]; [|discriminate].
        intros [= <-]. rewrite (IH o eq_refl).
        destruct (encodeURIComponent b); cbn; [now rewrite app_assoc|reflexivity].
Qed.

Lemma encode_app_none (a b : jsstring) :
  encodeURIComponent a = None ->
  match b with d :: _ => is_low_surrogate d = false | [] => True end ->
  encodeURIComponent (a ++ b) = None.
Proof.
  intros H Hb. induction a as [| c | c r IH IH2] using pair_induction.
  - discriminate.
  - revert H. rewrite encode_cases. cbn [encodeURIComponent option_map].
    cbn [app]. rewrite encode_cases.
    destruct (is_unreserved c); [discriminate|].
    destruct (is_low_surrogate c); [reflexivity|].
    destruct (is_high_surrogate c); [|discriminate].
    intros _. destruct b as [|d b']; [reflexivity|]. now rewrite Hb.
  - revert H. cbn [app]. rewrite !encode_cases. destruct (is_unreserved c).
    + destruct (encodeURIComponent r) as [o|]; [discriminate|].
      intros _. now rewrite IH.
    + destruct (is_low_surrogate c); [reflexivity|].
      destruct (is_high_surrogate c).
      * destruct r as [|d r']; [cbn [app]|].
        -- intros _. destruct b as [|d b']; [reflexivity|]. now rewrite Hb.
        -- cbn [app]. destruct (is_low_surrogate d); [|reflexivity].
           destruct (encodeURIComponent r') as [o|] eqn:E; [discriminate|].
           intros _. now rewrite (IH2 d r' eq_refl E).
      * destruct (encodeURIComponent r) as [o|]; [discriminate|].
        intros _. now rewrite IH.
Qed.

Lemma encode_no_surrogate (s : jsstring) :
  no_surrogate s = true -> exists out, encodeURIComponent s = Some out.
Proof.
  unfold no_surrogate. induction s as [|c r IH]; [now exists []|].
  cbn [forallb]. intros H. apply andb_prop in H. destruct H as [Hc Hr].
  apply negb_true_iff, orb_false_iff in Hc. destruct Hc as [Hh Hl].
  destruct (IH Hr) as (o & E). rewrite encode_cases, E, Hh, Hl.
  destruct (is_unreserved c); eexists; reflexivity.
Qed.

Lemma encode_unreserved (s : jsstring) :
  forallb is_unreserved s = true -> encodeURIComponent s = Some s.
Proof.
  induction s as [|c r IH]; [reflexivity|]. cbn [forallb]. intros H.
  apply andb_prop in H. destruct H as [Hc Hr].
  now rewrite encode_cases, Hc, (IH Hr).
Qed.

End Encoding.

Section Datasheet.
Import Js Types DatasheetService Predicates Samples.


Lemma suffix_encoded :
  encodeURIComponent (str " datasheet pdf") = Some (str "%20datasheet%20pdf").
Proof. vm_compute. reflexivity. Qed.

Lemma openDatasheet_url_aux (mpn : jsstring) :
  (openDatasheet mpn = None <-> encodeURIComponent mpn = None)
  /\ (forall q, encodeURIComponent mpn = Some q ->
       openDatasheet mpn
       = Some (str "https://duckduckgo.com/?q=" ++ q ++ str "%20datasheet%20pdf")).
Proof.
  unfold openDatasheet.
  destruct (encodeURIComponent mpn) as [q|] eqn:E.
  - rewrite (encode_app mpn _ q E), suffix_encoded. cbn [option_map].
    split; [split; discriminate|]. now intros q' [= <-].
  - rewrite (encode_app_none mpn _ E) by reflexivity.
    split; [split; reflexivity|discriminate].
Qed.

(** X1. [openDatasheet] fails (the [URIError] of [encodeURIComponent])
    exactly when the part number cannot be encoded, and never for a part
    number without surrogate code units.  When it opens a URL, the URL is
    the DuckDuckGo prefix, the encoded part number and
    [%20datasheet%20pdf]; the query is made of unreserved characters and
    percent signs only; a part number of unreserved characters appears in
    it as it is. *)
Theorem openDatasheet_url (mpn : jsstring) :
  (openDatasheet mpn = None <-> encodeURIComponent mpn = None)
  /\ (forall url, openDatasheet mpn = Some url ->
        exists q, encodeURIComponent mpn = Some q
                  /\ url = str "https://duckduckgo.com/?q=" ++ q
                           ++ str "%20datasheet%20pdf"
                  /\ forallb uri_safe (q ++ str "%20datasheet%20pdf") = true)
  /\ (no_surrogate mpn = true -> openDatasheet mpn <> None)
  /\ (forallb is_unreserved mpn = true ->
      openDatasheet mpn
      = Some (str "https://duckduckgo.com/?q=" ++ mpn ++ str "%20datasheet%20pdf")).
Proof.
  unfold openDatasheet.
  destruct (encodeURIComponent mpn) as [q|] eqn:E.
  - rewrite (encode_app mpn _ q E), suffix_encoded. cbn [option_map].
    split; [split; discriminate|].
    split.
    { intros url [= <-]. exists q. split; [reflexivity|]. split; [reflexivity|].
      rewrite forallb_app, (encode_safe mpn q E). reflexivity. }
    split; [discriminate|].
    intros U. rewrite (encode_unreserved mpn U) in E. now injection E as <-.
  - rewrite (encode_app_none mpn _ E) by reflexivity.
    split; [split; reflexivity|].
    split; [discriminate|].
    split.
    { intros Hs. destruct (encode_no_surrogate mpn Hs) as (o & Eo). congruence. }
    intros U. rewrite (encode_unreserved mpn U) in E. discriminate.
Qed.

(** X2. For a component with a part number, the datasheet button of the
    results panel and the one of the popover open the same URL, that of
    [openDatasheet] on the part number.  The panel's handler clears its
    fetching flag in a [finally] block, whatever happens; the popover's
    handler has no [try], and leaves its flag set exactly when the part
    number cannot be encoded. *)
Theorem datasheet_click_flag (flag : bool) (c : Component.t) :
  Component.mpn c <> [] ->
  snd (PanelItems.handleDatasheetClick flag c) = openDatasheet (Component.mpn c)
  /\ snd (InfoPopover.handleDatasheetClick flag c) = openDatasheet (Component.mpn c)
  /\ fst (PanelItems.handleDatasheetClick flag c) = false
  /\ (fst (InfoPopover.handleDatasheetClick flag c) = true
      <-> encodeURIComponent (Component.mpn c) = None).
Proof.
  intros H. unfold PanelItems.handleDatasheetClick, InfoPopover.handleDatasheetClick.
  destruct (Component.mpn c) as [|a m] eqn:E; [contradiction|].
  split; [reflexivity|].
  pose proof (proj1 (openDatasheet_url_aux (a :: m))) as K.
  destruct (openDatasheet (a :: m)) as [url|] eqn:O; cbn [fst snd].
  - split; [reflexivity|]. split; [reflexivity|].
    split; [discriminate|]. intros N. apply K in N. discriminate.
  - split; [reflexivity|]. split; [reflexivity|].
    split; [intros _; now apply K|reflexivity].
Qed.

Lemma datasheet_click_flag_witness :
  Component.mpn lone_surrogate_mpn <> []
  /\ InfoPopover.handleDatasheetClick false lone_surrogate_mpn = (true, None)
  /\ PanelItems.handleDatasheetClick false lone_surrogate_mpn = (false, None).
Proof.
  assert (H : Component.mpn lone_surrogate_mpn <> []) by discriminate.
  split; [exact H|].
  destruct (datasheet_click_flag false lone_surrogate_mpn H)
    as (S1 & S2 & F1 & F2).
  split; apply injective_projections; cbn [fst snd].
  - now apply F2.
  - now rewrite S2.
  - exact F1.
  - now rewrite S1.
Defined.

End Datasheet.

Section StatusViews.
Import Js Types.

Lemma getStatusText_OK (c : Component.t) :
  jsstring_eqb (GeminiService.getStatusText c) (str "OK")
  = Voltage.is_ok_presence (Component.presence c)
    && Voltage.is_ok_condition (Component.condition c).
Proof.
  unfold GeminiService.getStatusText.
  destruct (Component.condition c), (Component.presence c); reflexivity.
Qed.

(** X3. The views agree on the status of a component: the status text
    of the results panel is green exactly when the component has no issue
    at the board voltage, that of the popover exactly when it has none
    with no board voltage; the check-mark icon is drawn, and the status
    text reads [OK], exactly when presence and condition are ok. *)
Theorem status_views_agree (boardVoltage : option number) (c : Component.t) :
  PanelItems.status_class boardVoltage c
  = (if Voltage.has_issue boardVoltage c
     then str "text-orange-300" else str "text-green-300")
  /\ InfoPopover.status_class c
     = (if Voltage.has_issue None c
        then str "text-orange-300" else str "text-green-300")
  /\ jsstring_eqb (PanelItems.icon_key c) (str "ok")
     = negb (Voltage.has_issue None c)
  /\ jsstring_eqb (PanelItems.getStatusText c) (str "OK")
     = negb (Voltage.has_issue None c).
Proof.
  unfold PanelItems.status_class, InfoPopover.status_class, PanelItems.hasIssue,
    PanelItems.getStatusText, PanelItems.icon_key, Voltage.has_issue.
  rewrite getStatusText_OK.
  destruct (Component.presence c), (Component.condition c);
    cbn; repeat split; try reflexivity;
    destruct (ToBoolean (Voltage.mismatch boardVoltage c)); reflexivity.
Qed.

Lemma voltage_text_not_OK (a b : jsstring) :
  jsstring_eqb (str "Voltage Mismatch (" ++ a ++ str "V > " ++ b ++ str "V)")
               (str "OK") = false.
Proof. apply jsstring_eqb_neq. discriminate. Qed.

Lemma getComponentStatus_OK (bv : option number) (c : Component.t) :
  jsstring_eqb (PdfTables.getComponentStatus bv c) (str "OK") = Voltage.is_ok bv c.
Proof.
  unfold PdfTables.getComponentStatus, Voltage.is_ok.
  destruct (Component.condition c), (Component.presence c); try reflexivity.
  cbn [Voltage.is_ok_presence Voltage.is_ok_condition andb].
  destruct (ToBoolean (Voltage.mismatch bv c)); [|reflexivity].
  apply voltage_text_not_OK.
Qed.

(** X4. In the PDF report, [getComponentStatus] reads [OK] exactly for
    the components without issue; no row of the issues table has the
    status [OK]; the status [OK] written in every row of the other table
    is the status of its component; and the two tables together have one
    row per component. *)
Theorem report_status_column (toFixed1 : number -> jsstring)
    (analysis : PcbAnalysis) (boardVoltage : option number) :
  let status (row : list jsstring) := nth 2 row [] in
  (forall c, PdfTables.getComponentStatus boardVoltage c = str "OK"
             <-> Voltage.is_ok boardVoltage c = true)
  /\ Forall (fun row => status row <> str "OK")
            (PdfTables.issues_body toFixed1 analysis boardVoltage)
  /\ map status (PdfTables.ok_body toFixed1 analysis boardVoltage)
     = map (PdfTables.getComponentStatus boardVoltage)
           (PdfService.okComponents analysis boardVoltage)
  /\ List.length (PdfTables.issues_body toFixed1 analysis boardVoltage)
     + List.length (PdfTables.ok_body toFixed1 analysis boardVoltage)
     = List.length (components analysis).
Proof.
  intros status.
  assert (H : forall c, PdfTables.getComponentStatus boardVoltage c = str "OK"
                        <-> Voltage.is_ok boardVoltage c = true).
  { intros c. rewrite <- getComponentStatus_OK. apply iff_sym, jsstring_eqb_eq. }
  split; [exact H|]. split; [|split].
  - unfold PdfTables.issues_body, PdfService.componentsWithIssues.
    apply Forall_forall. intros row Hin. apply in_map_iff in Hin.
    destruct Hin as (c & <- & Hc). apply filter_In in Hc. destruct Hc as [_ Hc].
    subst status. cbn [nth]. intros E. apply H in E.
    rewrite is_ok_negb_has_issue, Hc in E. discriminate.
  - unfold PdfTables.ok_body, PdfService.okComponents. rewrite map_map.
    apply map_ext_in. intros c Hc. apply filter_In in Hc. destruct Hc as [_ Hc].
    subst status. cbn [nth]. symmetry. now apply H.
  - unfold PdfTables.issues_body, PdfTables.ok_body,
      PdfService.componentsWithIssues, PdfService.okComponents.
    rewrite !length_map.
    apply filter_partition_length, is_ok_negb_has_issue.
Qed.

End StatusViews.

Section Boxes.
Import Js Types ViewerBoxes.

(** X5. A defect box has a transparent border exactly when the defect
    type is [overheating], and the defect border otherwise; the thermal
    layer draws a hot zone for exactly the defects of the analysis whose
    box is transparent. *)
Theorem defect_box_or_hot_zone (analysis : PcbAnalysis) (d : Defect.t) :
  jsstring_eqb (getDefectBoxStyle (Defect.type d)) (str "border-transparent")
  = jsstring_eqb (Defect.type d) (str "overheating")
  /\ jsstring_eqb (getDefectBoxStyle (Defect.type d)) (str "border-status-defect")
     = negb (jsstring_eqb (Defect.type d) (str "overheating"))
  /\ (In d (thermal_layer analysis)
      <-> In d (defects analysis)
          /\ getDefectBoxStyle (Defect.type d) = str "border-transparent").
Proof.
  assert (A : jsstring_eqb (getDefectBoxStyle (Defect.type d)) (str "border-transparent")
              = jsstring_eqb (Defect.type d) (str "overheating")
              /\ jsstring_eqb (getDefectBoxStyle (Defect.type d)) (str "border-status-defect")
                 = negb (jsstring_eqb (Defect.type d) (str "overheating"))).
  { unfold getDefectBoxStyle.
    destruct (jsstring_eqb (Defect.type d) (str "solder_bridge")) eqn:E1.
    { apply jsstring_eqb_eq in E1. rewrite E1. split; reflexivity. }
    destruct (jsstring_eqb (Defect.type d) (str "misalignment")) eqn:E2.
    { apply jsstring_eqb_eq in E2. rewrite E2. split; reflexivity. }
    destruct (jsstring_eqb (Defect.type d) (str "overheating")); split; reflexivity. }
  destruct A as [A1 A2]. split; [exact A1|]. split; [exact A2|].
  unfold thermal_layer. rewrite filter_In, <- A1, jsstring_eqb_eq. reflexivity.
Qed.

(** X6. The border of a component box is the error one exactly for a
    burnt component, the warning one exactly for a missing component that
    is not burnt, and the ok one for the rest: a component with the ok
    border has an issue exactly when it is corroded, or is in order and
    the viewer shows the voltage warning on it. *)
Theorem component_border (boardVoltage : option number) (c : Component.t) :
  let border := getBoxStyle (Component.presence c) (Component.condition c) in
  (border = str "border-status-error"
   <-> Component.condition c = Condition_burnt)
  /\ (border = str "border-status-warn"
      <-> Component.presence c = Presence_missing
          /\ Component.condition c <> Condition_burnt)
  /\ (border = str "border-status-ok" /\ Voltage.has_issue boardVoltage c = true
      <-> Component.presence c = Presence_ok
          /\ (Component.condition c = Condition_corroded
              \/ Component.condition c = Condition_ok
                 /\ AnalysisViewer.showVoltageWarning boardVoltage c = true)).
Proof.
  unfold getBoxStyle, Voltage.has_issue, AnalysisViewer.showVoltageWarning,
    AnalysisViewer.hasVoltageMismatch.
  destruct (Component.presence c), (Component.condition c); cbn;
    repeat split; try discriminate; try congruence; try tauto;
    try (intros [? ?]; discriminate); try (intros [? ?]; congruence);
    intuition (try discriminate; try congruence).
Qed.

End Boxes.

Section DefectNames.
Import Js Types PanelItems Predicates.

Ltac cases_N :=
  repeat match goal with
         | |- context [(?a <=? ?b)%N] => destruct (N.leb_spec a b)
         | |- context [(?a =? ?b)%N] => destruct (N.eqb_spec a b)
         end;
  cbn in *; try reflexivity; try lia; try (exfalso; lia).

Lemma is_word_upper (c : code_unit) : is_word (toUpperCase_word c) = is_word c.
Proof. unfold toUpperCase_word, is_word. cases_N. Qed.

Lemma toUpperCase_word_idem (c : code_unit) :
  toUpperCase_word (toUpperCase_word c) = toUpperCase_word c.
Proof. unfold toUpperCase_word. cases_N. Qed.

Lemma toUpperCase_word_underscore (c : code_unit) :
  (toUpperCase_word c =? 95)%N = (c =? 95)%N.
Proof. unfold toUpperCase_word. cases_N. Qed.

Lemma capitalize_words_length (b : bool) (s : jsstring) :
  List.length (capitalize_words b s) = List.length s.
Proof. revert b. induction s as [|c r IH]; intros b; cbn; [|rewrite IH]; reflexivity. Qed.

Lemma capitalize_words_idem (b : bool) (s : jsstring) :
  capitalize_words b (capitalize_words b s) = capitalize_words b s.
Proof.
  revert b. induction s as [|c r IH]; intros b; [reflexivity|].
  cbn [capitalize_words].
  assert (W : is_word (if is_word c && negb b then toUpperCase_word c else c)
              = is_word c)
    by (destruct (is_word c && negb b); [apply is_word_upper|reflexivity]).
  rewrite W, IH. f_equal.
  destruct (is_word c && negb b); [apply toUpperCase_word_idem|reflexivity].
Qed.


Lemma underscores_to_spaces_clean (s : jsstring) :
  has_underscore (underscores_to_spaces s) = false.
Proof.
  unfold has_underscore, underscores_to_spaces.
  induction s as [|c r IH]; [reflexivity|]. cbn [map existsb]. rewrite IH.
  destruct (N.eqb_spec c 95) as [->|H]; [reflexivity|].
  destruct (N.eqb_spec 95 c); [congruence|reflexivity].
Qed.

Lemma underscores_to_spaces_id (s : jsstring) :
  has_underscore s = false -> underscores_to_spaces s = s.
Proof.
  unfold has_underscore, underscores_to_spaces.
  induction s as [|c r IH]; [reflexivity|]. cbn [map existsb]. intros H.
  apply orb_false_iff in H. destruct H as [H1 H2].
  rewrite (IH H2), N.eqb_sym, H1. reflexivity.
Qed.

Lemma capitalize_words_clean (b : bool) (s : jsstring) :
  has_underscore (capitalize_words b s) = has_underscore s.
Proof.
  unfold has_underscore. revert b.
  induction s as [|c r IH]; intros b; [reflexivity|].
  cbn [capitalize_words existsb]. rewrite IH. f_equal.
  destruct (is_word c && negb b); [|reflexivity].
  rewrite N.eqb_sym, toUpperCase_word_underscore. apply N.eqb_sym.
Qed.

(** X7. [translateDefectType] keeps the length of the type name, leaves
    no underscore in it, and is idempotent; on a name without underscore
    it only capitalises the words. *)
Theorem translateDefectType_facts (type : DefectType) :
  List.length (translateDefectType type) = List.length type
  /\ has_underscore (translateDefectType type) = false
  /\ translateDefectType (translateDefectType type) = translateDefectType type
  /\ (has_underscore type = false ->
      translateDefectType type = capitalize_words false type)
  /\ List.length (underscores_to_spaces type) = List.length type
  /\ has_underscore (underscores_to_spaces type) = false.
Proof.
  unfold translateDefectType.
  assert (C : has_underscore (capitalize_words false (underscores_to_spaces type))
              = false)
    by (rewrite capitalize_words_clean; apply underscores_to_spaces_clean).
  split; [rewrite capitalize_words_length; apply length_map|].
  split; [exact C|].
  split; [rewrite (underscores_to_spaces_id _ C); apply capitalize_words_idem|].
  split; [intros H; now rewrite underscores_to_spaces_id|].
  split; [apply length_map|apply underscores_to_spaces_clean].
Qed.

Example translateDefectType_solder_bridge :
  translateDefectType (str "solder_bridge") = str "Solder Bridge"
  /\ translateDefectType (str "open-circuit_2x") = str "Open-Circuit 2x".
Proof. vm_compute. split; reflexivity. Qed.

End DefectNames.

Section Trimming.
Import Js Predicates.


Lemma trimStart_head (s : jsstring) : head_is_space (trimStart s) = false.
Proof.
  induction s as [|c r IH]; [reflexivity|]. cbn [trimStart].
  destruct (is_js_space c) eqn:E; [exact IH|]. cbn. exact E.
Qed.

Lemma trimStart_fixed (s : jsstring) :
  head_is_space s = false -> trimStart s = s.
Proof. destruct s as [|c r]; [reflexivity|]. cbn. now intros ->. Qed.

Lemma trimStart_suffix (s : jsstring) :
  exists ws, s = ws ++ trimStart s /\ forallb is_js_space ws = true.
Proof.
  induction s as [|c r (ws & E & H)]; [now exists []|]. cbn [trimStart].
  destruct (is_js_space c) eqn:C.
  - exists (c :: ws). cbn [app forallb]. rewrite C, H. now rewrite <- E.
  - now exists [].
Qed.

Lemma trimEnd_prefix (s : jsstring) :
  exists ws, s = trimEnd s ++ ws /\ forallb is_js_space ws = true.
Proof.
  unfold trimEnd. destruct (trimStart_suffix (rev s)) as (ws & E & H).
  exists (rev ws). split.
  - rewrite <- rev_app_distr, <- E. symmetry. apply rev_involutive.
  - rewrite forallb_forall in *. intros c Hc. apply H. now apply in_rev.
Qed.

Lemma trimEnd_idem (s : jsstring) : trimEnd (trimEnd s) = trimEnd s.
Proof.
  unfold trimEnd. rewrite rev_involutive.
  now rewrite (trimStart_fixed _ (trimStart_head (rev s))).
Qed.

Lemma trimEnd_head (s : jsstring) :
  head_is_space s = false -> head_is_space (trimEnd s) = false.
Proof.
  intros H. destruct (trimEnd_prefix s) as (ws & E & _).
  destruct (trimEnd s) as [|c t]; [reflexivity|].
  rewrite E in H. exact H.
Qed.

Lemma trim_idem (s : jsstring) : trim (trim s) = trim s.
Proof.
  unfold trim.
  rewrite (trimStart_fixed (trimEnd (trimStart s)))
    by (apply trimEnd_head, trimStart_head).
  apply trimEnd_idem.
Qed.

Lemma trim_ends (s : jsstring) :
  head_is_space (trim s) = false /\ head_is_space (rev (trim s)) = false.
Proof.
  unfold trim. split; [apply trimEnd_head, trimStart_head|].
  unfold trimEnd. rewrite rev_involutive. apply trimStart_head.
Qed.

Lemma trim_all_space (s : jsstring) :
  trim s = [] <-> forallb is_js_space s = true.
Proof.
  unfold trim. destruct (trimStart_suffix s) as (ws & E & H).
  destruct (trimEnd_prefix (trimStart s)) as (ws' & E' & H').
  split.
  - intros T. rewrite T in E'. cbn in E'. rewrite E, E', forallb_app, H, H'.
    reflexivity.
  - intros A. assert (T : trimStart s = []).
    { clear - A. induction s as [|c r IH]; [reflexivity|]. cbn in *.
      apply andb_prop in A. destruct A as [-> A]. now apply IH. }
    rewrite T. reflexivity.
Qed.

(** X8. The chat input sends nothing exactly when the text typed is empty
    or white space only; what it sends otherwise is the text trimmed,
    which is not empty, neither starts nor ends with white space, and
    would be sent as it is if typed again. *)
Theorem handleSend_sends_trimmed (message : jsstring) :
  (PanelItems.handleSend message = None
   <-> forallb is_js_space message = true)
  /\ (forall text, PanelItems.handleSend message = Some text ->
        text = trim message /\ text <> []
        /\ head_is_space text = false /\ head_is_space (rev text) = false
        /\ PanelItems.handleSend text = Some text).
Proof.
  unfold PanelItems.handleSend. split.
  - rewrite <- trim_all_space. destruct (trim message); split; congruence.
  - intros text H. pose proof (trim_idem message) as I.
    pose proof (trim_ends message) as [E1 E2].
    destruct (trim message) as [|c t] eqn:T; [discriminate|].
    injection H as <-. rewrite I.
    repeat split; try assumption; discriminate.
Qed.

End Trimming.

Section DataUrls.
Import Js DataUrl Predicates.


Lemma split_comma_nonempty (s : jsstring) : split_comma s <> [].
Proof.
  induction s as [|c r IH]; cbn; [discriminate|].
  destruct (c =? 44)%N; [discriminate|]. destruct (split_comma r); discriminate.
Qed.

Lemma split_comma_plain (s : jsstring) :
  has_comma s = false -> split_comma s = [s].
Proof.
  unfold has_comma. induction s as [|c r IH]; [reflexivity|].
  cbn [existsb split_comma]. intros H. apply orb_false_iff in H.
  destruct H as [H1 H2]. rewrite N.eqb_sym, H1, (IH H2). reflexivity.
Qed.

Lemma split_comma_app (a b : jsstring) :
  has_comma a = false -> split_comma (a ++ 44%N :: b) = a :: split_comma b.
Proof.
  unfold has_comma. induction a as [|c r IH]; [reflexivity|].
  cbn [existsb app split_comma]. intros H. apply orb_false_iff in H.
  destruct H as [H1 H2]. rewrite N.eqb_sym, H1, (IH H2). reflexivity.
Qed.

(** X9. [fileToGenerativePart] takes from the data URL the text between
    the first comma and the second (or the end): for a header and a
    payload without comma, the payload, whether or not more follows after
    a second comma; a text without comma has no such part
    ([undefined]). *)
Theorem base64_of_data_url (header payload more : jsstring) :
  has_comma header = false ->
  has_comma payload = false ->
  base64_of_result (header ++ [44%N] ++ payload) = Some payload
  /\ base64_of_result (header ++ [44%N] ++ payload ++ [44%N] ++ more)
     = Some payload
  /\ base64_of_result header = None.
Proof.
  intros Hh Hp. unfold base64_of_result. cbn [app].
  rewrite !split_comma_app by assumption.
  rewrite (split_comma_plain payload Hp), (split_comma_plain header Hh).
  repeat split; reflexivity.
Qed.

Lemma base64_of_data_url_witness :
  base64_of_result (str "data:image/png;base64,iVBORw0KGgo=")
  = Some (str "iVBORw0KGgo=").
Proof.
  exact (proj1 (base64_of_data_url (str "data:image/png;base64")
                  (str "iVBORw0KGgo=") [] eq_refl eq_refl)).
Defined.

End DataUrls.

Section Explorer.
Import Js Types.

Lemma filter_comm {A} (p q : A -> bool) (l : list A) :
  filter p (filter q l) = filter q (filter p l).
Proof.
  induction l as [|a l IH]; [reflexivity|]. cbn.
  destruct (p a) eqn:P, (q a) eqn:Q; cbn; rewrite ?P, ?Q, IH; reflexivity.
Qed.

Lemma filter_length_le {A} (p : A -> bool) (l : list A) :
  List.length (filter p l) <= List.length l.
Proof. induction l as [|a l IH]; cbn; [lia|]. destruct (p a); cbn; lia. Qed.

(** X10. The components the explorer holds as having issues are the ones
    counted in the header of the panel, filtered by the search term, and
    all of them when the search term is empty; the ones it shows are among
    those of the header and never more; the two lists shown never have
    more items than there are components, and with the filter [all] as
    many as pass the search. *)
Theorem explorer_issues_within_header (toLowerCase : jsstring -> jsstring)
    (components : list Component.t) (searchTerm : jsstring)
    (boardVoltage : option number) (componentFilter : PanelItems.ComponentFilter) :
  let header := ResultsPanel.componentsWithIssues components boardVoltage in
  let issues := ResultsPanel.explorer_componentsWithIssues toLowerCase
                  components searchTerm boardVoltage in
  let oks := ResultsPanel.explorer_okComponents toLowerCase
               components searchTerm boardVoltage in
  let shown_issues := PanelItems.displayedComponentsWithIssues componentFilter issues in
  let shown_oks := PanelItems.displayedOkComponents componentFilter oks in
  issues = ResultsPanel.filtered toLowerCase header searchTerm
  /\ List.length shown_issues <= List.length header
  /\ (forall c, In c shown_issues -> In c header)
  /\ ResultsPanel.explorer_componentsWithIssues toLowerCase components []
       boardVoltage = header
  /\ List.length shown_issues + List.length shown_oks
     <= List.length components
  /\ (componentFilter = PanelItems.Filter_all ->
      List.length shown_issues + List.length shown_oks
      = List.length (ResultsPanel.filtered toLowerCase components searchTerm)).
Proof.
  cbv zeta.
  unfold ResultsPanel.explorer_componentsWithIssues,
    ResultsPanel.explorer_okComponents, ResultsPanel.componentsWithIssues.
  assert (E : filter (Voltage.has_issue boardVoltage)
                (ResultsPanel.filtered toLowerCase components searchTerm)
              = ResultsPanel.filtered toLowerCase
                  (filter (Voltage.has_issue boardVoltage) components) searchTerm).
  { unfold ResultsPanel.filtered. destruct searchTerm; [reflexivity|].
    apply filter_comm. }
  assert (L : List.length (ResultsPanel.filtered toLowerCase components searchTerm)
              <= List.length components).
  { unfold ResultsPanel.filtered. destruct searchTerm; [lia|].
    apply filter_length_le. }
  pose proof (filter_partition_length _ _ (is_ok_negb_has_issue boardVoltage)
                (ResultsPanel.filtered toLowerCase components searchTerm)) as P.
  split; [exact E|].
  split.
  { rewrite E. destruct componentFilter; cbn; try lia;
      unfold ResultsPanel.filtered; destruct searchTerm; try lia;
      apply filter_length_le. }
  split.
  { intros c Hc. assert (Hi : In c (filter (Voltage.has_issue boardVoltage)
                 (ResultsPanel.filtered toLowerCase components searchTerm)))
      by (destruct componentFilter; cbn in Hc; tauto).
    rewrite E in Hi. unfold ResultsPanel.filtered in Hi.
    destruct searchTerm; [exact Hi|]. now apply filter_In in Hi. }
  split; [reflexivity|].
  split.
  { destruct componentFilter; cbn; lia. }
  intros ->. cbn. exact P.
Qed.

End Explorer.

Section Popover.
Import Js Types Samples.

(** X11. With nothing selected, a click on the box of a component of the
    analysis selects its designator.  When the designator is not empty
    the popover is then rendered, with the panel of the first component
    of the analysis that has that designator, placed at this component's
    box, and with the panel of the first defect that has it as id, if
    there is one.  When the designator is empty the popover renders
    nothing. *)
Theorem click_then_popover (analysis : PcbAnalysis) (c : Component.t) :
  In c (components analysis) ->
  let id := Component.designator c in
  let sel := AnalysisViewer.onClick None id in
  sel = Some id
  /\ (id = [] -> InfoPopover.rendered analysis sel = None)
  /\ (id <> [] ->
      exists l1 c' l2 d,
        components analysis = l1 ++ c' :: l2
        /\ Component.designator c' = id
        /\ (forall x, In x l1 -> Component.designator x <> id)
        /\ InfoPopover.rendered analysis sel = Some (Some c', d)
        /\ InfoPopover.item_bbox analysis id = Some (Component.bbox c')
        /\ match d with
           | Some d0 =>
               exists m1 m2,
                 defects analysis = m1 ++ d0 :: m2 /\ Defect.id d0 = id
                 /\ forall y, In y m1 -> Defect.id y <> id
           | None => forall y, In y (defects analysis) -> Defect.id y <> id
           end).
Proof.
  intros Hin id sel. subst sel. unfold AnalysisViewer.onClick. cbn.
  split; [reflexivity|]. split.
  - intros E. unfold InfoPopover.rendered. now rewrite E.
  - intros Hne.
    destruct (find (fun x => jsstring_eqb (Component.designator x) id)
                (components analysis)) as [c'|] eqn:F.
    + pose proof F as F'. apply find_first in F'.
      destruct F' as (l1 & l2 & Ecs & Pc & Hl1).
      apply jsstring_eqb_eq in Pc.
      exists l1, c', l2, (InfoPopover.find_defect analysis id).
      split; [exact Ecs|]. split; [exact Pc|]. split.
      { intros x Hx E. specialize (Hl1 x Hx). cbv beta in Hl1.
        rewrite E, jsstring_eqb_refl in Hl1. discriminate. }
      unfold InfoPopover.rendered, InfoPopover.panels, InfoPopover.item_bbox,
        InfoPopover.find_component.
      destruct id as [|a r] eqn:D; [contradiction|]. rewrite F.
      split; [reflexivity|]. split; [reflexivity|].
      unfold InfoPopover.find_defect.
      destruct (find _ (defects analysis)) as [d0|] eqn:Fd.
      * apply find_first in Fd. destruct Fd as (m1 & m2 & Ed & Pd & Hm1).
        exists m1, m2. split; [exact Ed|]. split; [now apply jsstring_eqb_eq|].
        intros y Hy E. specialize (Hm1 y Hy). cbv beta in Hm1.
        rewrite E, jsstring_eqb_refl in Hm1. discriminate.
      * intros y Hy E. apply (find_none _ _ Fd) in Hy. cbv beta in Hy.
        rewrite E, jsstring_eqb_refl in Hy. discriminate.
    + exfalso. apply (find_none _ _ F) in Hin. cbv beta in Hin.
      subst id. now rewrite jsstring_eqb_refl in Hin.
Qed.

Lemma click_then_popover_witness :
  In (sample_part "R17" "ERJ-3" Condition_ok)
     (components (sample_analysis sample_board))
  /\ exists l1 c' l2 d,
       sample_board = l1 ++ c' :: l2
       /\ Component.designator c' = str "R17"
       /\ (forall x, In x l1 -> Component.designator x <> str "R17")
       /\ InfoPopover.rendered (sample_analysis sample_board)
            (AnalysisViewer.onClick None (str "R17"))
          = Some (Some c', d).
Proof.
  assert (H : In (sample_part "R17" "ERJ-3" Condition_ok)
                 (components (sample_analysis sample_board)))
    by (right; right; left; reflexivity).
  split; [exact H|].
  destruct (click_then_popover (sample_analysis sample_board)
              (sample_part "R17" "ERJ-3" Condition_ok) H)
    as (_ & _ & K).
  destruct K as (l1 & c' & l2 & d & A & B & C & R & _); [discriminate|].
  exists l1, c', l2, d. split; [exact A|]. split; [exact B|].
  split; [exact C|exact R].
Defined.

(** X12. The popover renders nothing exactly when nothing is selected,
    the selection is the empty string, or no component has the selection
    as designator and no defect has it as id. *)
Theorem popover_nothing (analysis : PcbAnalysis) (selectedId : option jsstring) :
  InfoPopover.rendered analysis selectedId = None
  <-> match selectedId with
      | None | Some [] => True
      | Some id =>
          (forall c, In c (components analysis) -> Component.designator c <> id)
          /\ (forall d, In d (defects analysis) -> Defect.id d <> id)
      end.
Proof.
  unfold InfoPopover.rendered. destruct selectedId as [[|a r]|]; try tauto.
  unfold InfoPopover.panels, InfoPopover.item_bbox, InfoPopover.find_component,
    InfoPopover.find_defect.
  destruct (find _ (components analysis)) as [c|] eqn:Fc.
  - split; [discriminate|]. intros [H _]. apply find_some in Fc.
    destruct Fc as [Hin E]. apply jsstring_eqb_eq in E. now apply H in Hin.
  - destruct (find _ (defects analysis)) as [d|] eqn:Fd.
    + split; [discriminate|]. intros [_ H]. apply find_some in Fd.
      destruct Fd as [Hin E]. apply jsstring_eqb_eq in E. now apply H in Hin.
    + split; [|reflexivity]. intros _. split.
      * intros c Hin E. apply (find_none _ _ Fc) in Hin. cbv beta in Hin.
        apply jsstring_eqb_eq in E. congruence.
      * intros d Hin E. apply (find_none _ _ Fd) in Hin. cbv beta in Hin.
        apply jsstring_eqb_eq in E. congruence.
Qed.

(** X27. A click on the label of a replacement suggestion never
    toggles: a second click leaves the selection of the first.  When
    components have the part number of the suggestion, the click selects
    the designator of the first of them in the analysis; if that
    designator is not empty it is the label, and the popover is rendered
    with the panel of the first component of that designator; if it is
    empty the label is the part number and the popover renders nothing.
    When no component has the part number, the label is the part number
    and the click changes nothing. *)
Theorem alternative_click_selects (analysis : PcbAnalysis) (alt : Alternative)
    (selectedId : option jsstring) :
  let cs := components analysis in
  let sel := PanelItems.alternative_onClick cs alt selectedId in
  PanelItems.alternative_onClick cs alt sel = sel
  /\ (forall l1 c l2,
        cs = l1 ++ c :: l2 -> Component.mpn c = original_mpn alt ->
        (forall x, In x l1 -> Component.mpn x <> original_mpn alt) ->
        sel = Some (Component.designator c)
        /\ (Component.designator c = [] ->
            PanelItems.alternative_label cs alt = original_mpn alt
            /\ InfoPopover.rendered analysis sel = None)
        /\ (Component.designator c <> [] ->
            PanelItems.alternative_label cs alt = Component.designator c
            /\ exists k1 c' k2 d,
                 cs = k1 ++ c' :: k2
                 /\ Component.designator c' = Component.designator c
                 /\ (forall x, In x k1 ->
                       Component.designator x <> Component.designator c)
                 /\ InfoPopover.rendered analysis sel = Some (Some c', d)))
  /\ ((forall c, In c cs -> Component.mpn c <> original_mpn alt) ->
      sel = selectedId
      /\ PanelItems.alternative_label cs alt = original_mpn alt).
Proof.
  cbv zeta. unfold PanelItems.alternative_onClick, PanelItems.alternative_label,
    PanelItems.findComponentByMpn.
  split; [|split].
  - destruct (find _ (components analysis)); reflexivity.
  - intros l1 c l2 Ecs Hm Hl1.
    assert (F : find (fun x => jsstring_eqb (Component.mpn x) (original_mpn alt))
                  (components analysis) = Some c).
    { apply find_first. exists l1, l2. split; [exact Ecs|]. split.
      - rewrite Hm. apply jsstring_eqb_refl.
      - intros y Hy. apply jsstring_eqb_false. now apply Hl1. }
    rewrite F. split; [reflexivity|]. split.
    + intros E. rewrite E. split; reflexivity.
    + intros Hne.
      destruct (Component.designator c) as [|a r] eqn:D; [contradiction|].
      split; [reflexivity|].
      assert (Hin : In c (components analysis))
        by (rewrite Ecs; apply in_or_app; right; now left).
      destruct (find (fun x => jsstring_eqb (Component.designator x) (a :: r))
                  (components analysis)) as [c'|] eqn:Fd.
      * pose proof Fd as Fd'. apply find_first in Fd'.
        destruct Fd' as (k1 & k2 & Ek & Pc & Hk1).
        exists k1, c', k2, (InfoPopover.find_defect analysis (a :: r)).
        split; [exact Ek|]. split; [now apply jsstring_eqb_eq|]. split.
        { intros x Hx E. specialize (Hk1 x Hx). cbv beta in Hk1.
          rewrite E, jsstring_eqb_refl in Hk1. discriminate. }
        unfold InfoPopover.rendered, InfoPopover.panels, InfoPopover.item_bbox,
          InfoPopover.find_component.
        now rewrite Fd.
      * exfalso. apply (find_none _ _ Fd) in Hin. cbv beta in Hin.
        now rewrite D, jsstring_eqb_refl in Hin.
  - intros Hnone.
    assert (F : find (fun x => jsstring_eqb (Component.mpn x) (original_mpn alt))
                  (components analysis) = None).
    { apply find_none_iff. intros y Hy. apply jsstring_eqb_false.
      now apply Hnone. }
    rewrite F. split; reflexivity.
Qed.

Lemma alternative_click_selects_witness :
  let alt := {| original_mpn := str "RC0603"; replacements := [] |} in
  PanelItems.alternative_onClick sample_board alt None = Some (str "R17")
  /\ PanelItems.alternative_label sample_board alt = str "R17".
Proof.
  destruct (alternative_click_selects (sample_analysis sample_board)
              {| original_mpn := str "RC0603"; replacements := [] |} None)
    as (_ & K & _).
  destruct (K [sample_part "C3" "GRM188" Condition_ok]
              (sample_part "R17" "RC0603" Condition_burnt)
              [sample_part "R17" "ERJ-3" Condition_ok;
               sample_part "U2" "RC0603" Condition_corroded]
              eq_refl eq_refl) as (S & _ & L).
  - intros x [<-|[]]. vm_compute. discriminate.
  - split; [exact S|]. apply L. discriminate.
Defined.

End Popover.

Section Alternatives.
Import Js Types.

(** X13. The replacement table of the report has one row per
    replacement of every alternative (none exactly when no alternative has
    a replacement); every row has three cells, the first being the part
    number of an alternative of the advice. *)
Theorem alternatives_body_rows (alternatives : list Alternative) :
  List.length (PdfTables.alternatives_body alternatives)
  = list_sum (map (fun alt => List.length (replacements alt)) alternatives)
  /\ (PdfTables.alternatives_body alternatives = []
      <-> Forall (fun alt => replacements alt = []) alternatives)
  /\ Forall (fun row => List.length row = 3
                        /\ exists alt, In alt alternatives
                                       /\ nth 0 row [] = original_mpn alt)
            (PdfTables.alternatives_body alternatives).
Proof.
  unfold PdfTables.alternatives_body. split; [|split].
  - induction alternatives as [|a l IH]; [reflexivity|].
    cbn [flat_map map list_sum]. now rewrite length_app, length_map, IH.
  - induction alternatives as [|a l IH]; [split; constructor|].
    cbn [flat_map]. split.
    + intros H. apply app_eq_nil in H. destruct H as [H1 H2].
      constructor; [|now apply IH].
      destruct (replacements a); [reflexivity|discriminate].
    + intros H. inversion H as [|? ? H1 H2]; subst. rewrite H1. cbn.
      now apply IH.
  - apply Forall_forall. intros row H. apply in_flat_map in H.
    destruct H as (alt & Ha & Hr). apply in_map_iff in Hr.
    destruct Hr as (rep & <- & _). split; [reflexivity|]. now exists alt.
Qed.

End Alternatives.

(* ================================================================== *)
(** * The page as a transition system: what holds along its runs *)
(* ================================================================== *)

Section PageInvariants.
Import Js Json Types Predicates.



Lemma settle_single {A} (request : nat) (l : list (nat * A)) :
  List.length l <= 1 -> App.is_pending request l = true ->
  App.settle request l = [].
Proof.
  destruct l as [|[i x] [|? ?]]; cbn; try discriminate; try lia.
  intros _. rewrite orb_false_r. now intros ->.
Qed.

Lemma no_request_app {A} (l : list A) (x : A) : no_request (l ++ [x]) = false.
Proof. destruct l; reflexivity. Qed.

Lemma Inv_start : Inv App.start.
Proof. unfold Inv. cbn. intuition (try discriminate; try lia). Qed.

Lemma Inv_useEffect (key : option jsstring) (w : App.World) :
  Inv w -> Inv (App.useEffect_chat key w).
Proof.
  unfold Inv, App.useEffect_chat. destruct w as [s ar cr rr rv n]. destruct s.
  cbn. destruct analysis, chat, key as [[|? ?]|]; cbn; try tauto;
    intuition (try discriminate; try congruence).
Qed.

Lemma Inv_handle (w : App.World) (a : App.action) : Inv w -> Inv (App.handle w a).
Proof.
  unfold Inv. destruct w as [s ar cr rr rv n]. destruct s.
  cbn. intros H.
  destruct a; cbn [App.handle App.ui App.analysis_requests App.chat_requests
                   App.report_requests].
  - (* Upload *) rewrite no_request_app. revert H. cbn.
    intuition (try discriminate; try congruence).
  - (* StartOver *) revert H. cbn. intuition (try discriminate; try congruence).
  - (* AnalysisSettles *)
    destruct (App.is_pending request ar); [|exact H].
    revert H. destruct outcome; cbn; intuition (try discriminate; try congruence).
  - (* Send *)
    unfold App.handleSendMessage_begin. cbn.
    destruct chat as [?|]; cbn; [|exact H].
    destruct isChatLoading eqn:L; cbn; [exact H|].
    destruct H as (H1 & H2 & H3). destruct cr; [|discriminate]. cbn.
    intuition (try discriminate; try congruence; try lia).
  - (* ChatSettles *)
    destruct (App.is_pending request cr) eqn:P; [|exact H].
    destruct H as (H1 & H2 & H3).
    cbn [App.ui App.chat_requests]. rewrite (settle_single _ _ H2 P).
    unfold App.handleSendMessage_settled.
    destruct outcome as [?|reply]; cbn;
      [|destruct (App.jumper_of_reply reply); cbn];
      intuition (try discriminate; try congruence; try lia).
  - (* GenerateReport *)
    unfold App.handleGenerateReport_begin. cbn.
    destruct analysis as [?|]; cbn; [|exact H].
    destruct imageUrl as [?|]; cbn; [|exact H].
    rewrite no_request_app. revert H.
    intuition (try discriminate; try congruence).
  - (* ReportSettles *)
    destruct (App.is_pending request rr); [|exact H].
    unfold App.handleGenerateReport_settled. revert H.
    destruct outcome as [[m|]|?]; cbn;
      try destruct (jsstring_eqb m _); cbn;
      intuition (try discriminate; try congruence).
  - exact H.
  - exact H.
  - exact H.
  - exact H.
Qed.

Lemma Inv_step (key : option jsstring) (w : App.World) (a : App.action) :
  Inv w -> Inv (App.step key w a).
Proof. intros H. apply Inv_useEffect, Inv_handle, H. Qed.

Lemma Inv_with_selection (w : App.World) (sel : option jsstring) :
  Inv w -> Inv (App.with_ui w (App.setSelectedId sel (App.ui w))).
Proof. unfold Inv. destruct w as [s ar cr rr rv n]. destruct s. cbn. tauto. Qed.

Lemma Inv_page (key : option jsstring) (w : App.World) (e : Page.event) :
  Inv w -> Inv (Page.handle key w e).
Proof.
  intros H. destruct e as [a|files|message|alt|]; cbn [Page.handle].
  - now apply Inv_step.
  - destruct files; [exact H|now apply Inv_step].
  - destruct (PanelItems.handleSend message); [now apply Inv_step|exact H].
  - destruct (App.analysis (App.ui w)); [|exact H].
    now apply Inv_useEffect, Inv_with_selection.
  - now apply Inv_useEffect, Inv_with_selection.
Qed.

Lemma run_invariant (P : App.World -> Prop) (key : option jsstring) :
  (forall w e, P w -> P (Page.handle key w e)) ->
  forall l w, P w -> P (Page.run key w l).
Proof.
  intros Hstep l. induction l as [|e l IH]; intros w Hw; [exact Hw|].
  cbn. apply IH, Hstep, Hw.
Qed.

Lemma Inv_run (key : option jsstring) (l : list Page.event) :
  Inv (Page.run key App.start l).
Proof. apply run_invariant; [apply Inv_page|apply Inv_start]. Qed.


Lemma useEffect_cases (key : option jsstring) (w : App.World) :
  App.useEffect_chat key w = w
  \/ exists c,
       App.analysis (App.ui w) <> None /\ App.chat (App.ui w) = None
       /\ GeminiService.key_truthy key = true
       /\ App.useEffect_chat key w =
          {| App.ui := App.setChat (Some c) (App.ui w);
             App.analysis_requests := App.analysis_requests w;
             App.chat_requests := App.chat_requests w;
             App.report_requests := App.report_requests w;
             App.revoked := App.revoked w;
             App.fresh := S (App.fresh w) |}.
Proof.
  unfold App.useEffect_chat.
  destruct (App.analysis (App.ui w)) eqn:A; [|now left].
  destruct (App.chat (App.ui w)) eqn:C; [now left|].
  destruct key as [[|c k]|]; [now left| |now left].
  right. eexists. repeat split. discriminate.
Qed.


Lemma useEffect_settled (key : option jsstring) (w : App.World) :
  settled key (App.useEffect_chat key w).
Proof.
  unfold settled. destruct (useEffect_cases key w) as [E|(c & A & C & K & E)].
  - now rewrite E.
  - rewrite E. unfold App.useEffect_chat. cbn.
    destruct (App.analysis (App.ui w)); reflexivity.
Qed.

Lemma settled_page (key : option jsstring) (w : App.World) (e : Page.event) :
  settled key w -> settled key (Page.handle key w e).
Proof.
  intros H. destruct e as [a|files|message|alt|]; cbn [Page.handle].
  - apply useEffect_settled.
  - destruct files; [exact H|apply useEffect_settled].
  - destruct (PanelItems.handleSend message); [apply useEffect_settled|exact H].
  - destruct (App.analysis (App.ui w)); [apply useEffect_settled|exact H].
  - apply useEffect_settled.
Qed.

Lemma settled_run (key : option jsstring) (l : list Page.event) :
  settled key (Page.run key App.start l).
Proof. apply run_invariant; [apply settled_page|reflexivity]. Qed.

Lemma busy_chat_pending (w : App.World) :
  Inv w ->
  (App.isChatLoading (App.ui w) = true <-> App.chat_requests w <> []).
Proof.
  intros (H1 & _). rewrite H1.
  destruct (App.chat_requests w); cbn; split; congruence.
Qed.

(** X14. After any events, at most one chat request is pending, the chat
    flag is set exactly when one is, and while one is pending a further
    message, through the chat input or straight to [handleSendMessage],
    changes nothing. *)
Theorem one_chat_request_in_flight (key : option jsstring) (l : list Page.event) :
  let w := Page.run key App.start l in
  List.length (App.chat_requests w) <= 1
  /\ (App.isChatLoading (App.ui w) = true <-> App.chat_requests w <> [])
  /\ (forall message, App.chat_requests w <> [] ->
        Page.handle key w (Page.TypeAndSend message) = w
        /\ Page.handle key w (Page.Handler (App.Send message)) = w).
Proof.
  cbv zeta. pose proof (Inv_run key l) as HI. pose proof (settled_run key l) as HS.
  set (w := Page.run key App.start l) in *.
  split; [apply HI|]. split; [now apply busy_chat_pending|].
  intros message Hne.
  assert (L : App.isChatLoading (App.ui w) = true) by now apply busy_chat_pending.
  assert (S : forall m, App.step key w (App.Send m) = w).
  { intros m. unfold App.step. cbn [App.handle].
    unfold App.handleSendMessage_begin. rewrite L.
    destruct (App.chat (App.ui w)); exact HS. }
  split; [|apply S].
  cbn [Page.handle]. destruct (PanelItems.handleSend message); [apply S|reflexivity].
Qed.

(** X15. After any events, the loading flag is set only while an
    analysis request is pending, there is no analysis and an image is
    shown; the report flag is set only while a report is pending; the
    image URL and the image file are set or null together. *)
Theorem busy_flags_have_requests (key : option jsstring) (l : list Page.event) :
  let w := Page.run key App.start l in
  let s := App.ui w in
  (App.isLoading s = true ->
     App.analysis_requests w <> [] /\ App.analysis s = None
     /\ App.imageUrl s <> None)
  /\ (App.isReporting s = true -> App.report_requests w <> [])
  /\ (App.imageUrl s = None <-> App.imageFile s = None).
Proof.
  cbv zeta. destruct (Inv_run key l) as (_ & _ & H3 & H4 & _ & H6).
  split; [|split; [|exact H6]].
  - intros L. destruct (H3 L) as (A & B & C). split; [|now split].
    intros E. now rewrite E in A.
  - intros R. specialize (H4 R). intros E. now rewrite E in H4.
Qed.


Lemma settled_chat_follows (c : N) (k : jsstring) (w : App.World) :
  settled (Some (c :: k)) w -> chat_follows w.
Proof.
  unfold settled, chat_follows. intros H A C.
  destruct (useEffect_cases (Some (c :: k)) w) as [E|(c' & _ & _ & _ & E)].
  - unfold App.useEffect_chat in H.
    destruct (App.analysis (App.ui w)); [|congruence].
    rewrite C in H. apply (f_equal App.fresh) in H. cbn in H. lia.
  - rewrite H in E. apply (f_equal App.fresh) in E. cbn in E. lia.
Qed.

(** X16. With an API key, after any events, the page has a chat session
    exactly when it has an analysis. *)
Theorem chat_session_iff_analysis (c : N) (k : jsstring) (l : list Page.event) :
  let w := Page.run (Some (c :: k)) App.start l in
  App.chat (App.ui w) <> None <-> App.analysis (App.ui w) <> None.
Proof.
  cbv zeta. split.
  - apply (Inv_run (Some (c :: k)) l).
  - apply (settled_chat_follows c k), settled_run.
Qed.


Lemma useEffect_no_key (key : option jsstring) (w : App.World) :
  GeminiService.key_truthy key = false -> App.useEffect_chat key w = w.
Proof.
  intros K. unfold App.useEffect_chat.
  destruct (App.analysis (App.ui w)), (App.chat (App.ui w)), key as [[|? ?]|];
    try reflexivity; discriminate.
Qed.

Lemma no_chat_handle (w : App.World) (a : App.action) :
  no_chat w -> no_chat (App.handle w a).
Proof.
  unfold no_chat. destruct w as [s ar cr rr rv n]. destruct s.
  intros H. cbn in H. destruct H as (H1 & H2 & H3 & H4 & H5). subst.
  destruct a; cbn [App.handle App.ui App.analysis_requests App.chat_requests
                   App.report_requests]; try solve [cbn; intuition].
  - destruct (App.is_pending request ar); cbn; [|intuition].
    destruct outcome; cbn; intuition.
  - unfold App.handleGenerateReport_begin. cbn.
    destruct analysis; cbn; [|intuition]. destruct imageUrl; cbn; intuition.
  - destruct (App.is_pending request rr); cbn; [|intuition].
    unfold App.handleGenerateReport_settled.
    destruct outcome as [[m|]|?]; cbn; try destruct (jsstring_eqb m _); cbn; intuition.
Qed.

Lemma no_chat_selection (w : App.World) (sel : option jsstring) :
  no_chat w -> no_chat (App.with_ui w (App.setSelectedId sel (App.ui w))).
Proof. unfold no_chat. destruct w as [s ar cr rr rv n]. destruct s. cbn. tauto. Qed.

Lemma no_chat_page (key : option jsstring) (w : App.World) (e : Page.event) :
  GeminiService.key_truthy key = false ->
  no_chat w -> no_chat (Page.handle key w e).
Proof.
  intros K H. destruct e as [a|files|message|alt|]; cbn [Page.handle];
    unfold App.step; rewrite ?(useEffect_no_key key _ K).
  - now apply no_chat_handle.
  - destruct files; [exact H|]. unfold App.step.
    rewrite (useEffect_no_key key _ K). now apply no_chat_handle.
  - destruct (PanelItems.handleSend message); [|exact H]. unfold App.step.
    rewrite (useEffect_no_key key _ K). now apply no_chat_handle.
  - destruct (App.analysis (App.ui w)); [|exact H].
    rewrite (useEffect_no_key key _ K). now apply no_chat_selection.
  - now apply no_chat_selection.
Qed.

(** X17. Without an API key, whatever happens, no chat session is made,
    no chat request is sent, the transcript stays empty, the chat flag is
    never set and no jumper is suggested. *)
Theorem no_key_no_chat (key : option jsstring) (l : list Page.event) :
  GeminiService.key_truthy key = false ->
  let w := Page.run key App.start l in
  App.chat (App.ui w) = None /\ App.chat_requests w = []
  /\ App.chatHistory (App.ui w) = [] /\ App.isChatLoading (App.ui w) = false
  /\ App.jumperSuggestion (App.ui w) = None.
Proof.
  intros K. cbv zeta.
  apply (run_invariant no_chat key).
  - intros w e. now apply no_chat_page.
  - unfold no_chat. cbn. tauto.
Qed.


(** ** Single steps: the transcript and the jumper suggestion *)

Lemma useEffect_ui (key : option jsstring) (w : App.World) :
  exists c, App.ui (App.useEffect_chat key w) = App.setChat c (App.ui w).
Proof.
  destruct (useEffect_cases key w) as [E|(c & _ & _ & _ & E)].
  - rewrite E. exists (App.chat (App.ui w)). now destruct (App.ui w).
  - rewrite E. now exists (Some c).
Qed.

Lemma useEffect_chatHistory (key : option jsstring) (w : App.World) :
  App.chatHistory (App.ui (App.useEffect_chat key w)) = App.chatHistory (App.ui w).
Proof. destruct (useEffect_ui key w) as (c & ->). reflexivity. Qed.

Lemma useEffect_jumperSuggestion (key : option jsstring) (w : App.World) :
  App.jumperSuggestion (App.ui (App.useEffect_chat key w))
  = App.jumperSuggestion (App.ui w).
Proof. destruct (useEffect_ui key w) as (c & ->). reflexivity. Qed.

Ltac handle_cases a :=
  destruct a;
  cbn [App.handle App.ui App.analysis_requests App.chat_requests
       App.report_requests App.revoked App.fresh].

Lemma handle_chatHistory (w : App.World) (a : App.action) :
  let h := App.chatHistory (App.ui w) in
  let h' := App.chatHistory (App.ui (App.handle w a)) in
  match a with
  | App.Upload _ | App.StartOver => h' = []
  | _ => h' = h \/ exists m, h' = h ++ [m]
  end.
Proof.
  cbv zeta. handle_cases a; try (left; reflexivity); try reflexivity.
  - destruct (App.is_pending request (App.analysis_requests w)); left;
      [destruct outcome|]; reflexivity.
  - unfold App.handleSendMessage_begin.
    destruct (App.chat (App.ui w)); [|now left].
    destruct (App.isChatLoading (App.ui w)); [now left|].
    right. eexists. reflexivity.
  - destruct (App.is_pending request (App.chat_requests w)); [|now left].
    right. unfold App.handleSendMessage_settled.
    destruct outcome as [?|reply]; cbn; [eexists; reflexivity|].
    destruct (App.jumper_of_reply reply); eexists; reflexivity.
  - unfold App.handleGenerateReport_begin.
    destruct (App.analysis (App.ui w)); [|now left].
    destruct (App.imageUrl (App.ui w)); now left.
  - destruct (App.is_pending request (App.report_requests w)); [|now left].
    left. unfold App.handleGenerateReport_settled.
    destruct outcome as [[m|]|?]; cbn; try destruct (jsstring_eqb m _); reflexivity.
Qed.

(** X18. An event that resets the session (an upload, Start Over)
    empties the transcript; any other event leaves it as it is or adds one
    message at its end. *)
Theorem transcript_grows (key : option jsstring) (w : App.World) (e : Page.event) :
  let h := App.chatHistory (App.ui w) in
  let h' := App.chatHistory (App.ui (Page.handle key w e)) in
  if Page.is_reset e then h' = []
  else h' = h \/ exists m, h' = h ++ [m].
Proof.
  cbv zeta. destruct e as [a|files|message|alt|]; cbn [Page.handle Page.is_reset].
  - unfold App.step. rewrite useEffect_chatHistory.
    pose proof (handle_chatHistory w a) as H. cbv zeta in H.
    destruct a; exact H.
  - destruct files as [|file files]; [now left|].
    unfold App.step. rewrite useEffect_chatHistory.
    exact (handle_chatHistory w (App.Upload file)).
  - destruct (PanelItems.handleSend message) as [text|]; [|now left].
    unfold App.step. rewrite useEffect_chatHistory.
    exact (handle_chatHistory w (App.Send text)).
  - destruct (App.analysis (App.ui w)); [|now left].
    rewrite useEffect_chatHistory. now left.
  - rewrite useEffect_chatHistory. now left.
Qed.


Lemma handle_jumperSuggestion (w : App.World) (a : App.action) :
  App.jumperSuggestion (App.ui (App.handle w a)) =
  match a with
  | App.Upload _ | App.StartOver => None
  | _ =>
      match is_reply w (Page.Handler a) with
      | Some reply =>
          match App.jumper_of_reply reply with
          | Some j => Some j
          | None => App.jumperSuggestion (App.ui w)
          end
      | None => App.jumperSuggestion (App.ui w)
      end
  end.
Proof.
  handle_cases a; cbn [is_reply]; try reflexivity.
  - destruct (App.is_pending request (App.analysis_requests w));
      [destruct outcome|]; reflexivity.
  - unfold App.handleSendMessage_begin.
    destruct (App.chat (App.ui w)); [|reflexivity].
    destruct (App.isChatLoading (App.ui w)); reflexivity.
  - destruct outcome as [?|reply];
      destruct (App.is_pending request (App.chat_requests w)); try reflexivity.
    unfold App.handleSendMessage_settled. cbn.
    destruct (App.jumper_of_reply reply); reflexivity.
  - unfold App.handleGenerateReport_begin.
    destruct (App.analysis (App.ui w)); [|reflexivity].
    destruct (App.imageUrl (App.ui w)); reflexivity.
  - destruct (App.is_pending request (App.report_requests w)); [|reflexivity].
    unfold App.handleGenerateReport_settled.
    destruct outcome as [[m|]|?]; cbn; try destruct (jsstring_eqb m _); reflexivity.
Qed.

(** X19. The jumper suggestion is cleared by a reset; a reply of the
    model to a pending chat request replaces it when the reply carries a
    jumper, and every other event, a reply without jumper and a failed
    request among them, leaves the suggestion as it is. *)
Theorem jumper_suggestion_persists (key : option jsstring) (w : App.World)
    (e : Page.event) :
  App.jumperSuggestion (App.ui (Page.handle key w e)) =
  if Page.is_reset e then None
  else
    match is_reply w e with
    | Some reply =>
        match App.jumper_of_reply reply with
        | Some j => Some j
        | None => App.jumperSuggestion (App.ui w)
        end
    | None => App.jumperSuggestion (App.ui w)
    end.
Proof.
  destruct e as [a|files|message|alt|]; cbn [Page.handle Page.is_reset].
  - unfold App.step. rewrite useEffect_jumperSuggestion, handle_jumperSuggestion.
    destruct a; reflexivity.
  - destruct files as [|file files]; [reflexivity|].
    unfold App.step. rewrite useEffect_jumperSuggestion, handle_jumperSuggestion.
    reflexivity.
  - destruct (PanelItems.handleSend message) as [text|]; [|reflexivity].
    unfold App.step. rewrite useEffect_jumperSuggestion, handle_jumperSuggestion.
    reflexivity.
  - destruct (App.analysis (App.ui w)); [|reflexivity].
    rewrite useEffect_jumperSuggestion. reflexivity.
  - rewrite useEffect_jumperSuggestion. reflexivity.
Qed.


(** ** Runs of what the page offers *)


Lemma Inv_offered_useEffect (key : option jsstring) (w : App.World) :
  Inv_offered w -> Inv_offered (App.useEffect_chat key w).
Proof.
  destruct (useEffect_cases key w) as [E|(c & _ & _ & _ & E)]; rewrite E;
    [tauto|].
  unfold Inv_offered. destruct w as [s ar cr rr rv n]. destruct s. cbn. tauto.
Qed.

Lemma Inv_offered_handle (w : App.World) (a : App.action) :
  Inv_offered w -> App.offered w a = true -> Inv_offered (App.handle w a).
Proof.
  unfold Inv_offered. destruct w as [s ar cr rr rv n]. destruct s.
  intros H O. cbn in H, O. handle_cases a.
  - revert H. cbn. intuition congruence.
  - revert H. cbn. intuition congruence.
  - destruct (App.is_pending request ar); [|exact H].
    revert H. destruct outcome; cbn; intuition congruence.
  - unfold App.handleSendMessage_begin. cbn.
    destruct chat; [|exact H]. destruct isChatLoading; exact H.
  - destruct (App.is_pending request cr); [|exact H].
    unfold App.handleSendMessage_settled. revert H.
    destruct outcome as [?|reply]; cbn;
      [|destruct (App.jumper_of_reply reply); cbn]; intuition congruence.
  - unfold App.handleGenerateReport_begin. cbn.
    destruct analysis; [|exact H]. destruct imageUrl; [|exact H].
    destruct isReporting; [discriminate|].
    destruct H as (H1 & H2 & H3). destruct rr; [|discriminate].
    cbn. intuition (try congruence; try lia).
  - destruct (App.is_pending request rr) eqn:P; [|exact H].
    destruct H as (H1 & H2 & H3).
    cbn [App.ui App.report_requests]. rewrite (settle_single _ _ H2 P).
    unfold App.handleGenerateReport_settled.
    destruct outcome as [[m|]|?]; cbn; try destruct (jsstring_eqb m _); cbn;
      intuition (try congruence; try lia).
  - destruct analysis; [|discriminate]. revert H. cbn. intuition congruence.
  - destruct analysis; [|discriminate]. revert H. cbn. intuition congruence.
  - destruct analysis; [|discriminate]. revert H. cbn. intuition congruence.
  - revert H. cbn. intuition congruence.
Qed.

Lemma Inv_offered_selection (w : App.World) (sel : option jsstring) :
  (App.analysis (App.ui w) = None -> sel = None) ->
  Inv_offered w -> Inv_offered (App.with_ui w (App.setSelectedId sel (App.ui w))).
Proof.
  unfold Inv_offered. destruct w as [s ar cr rr rv n]. destruct s. cbn. tauto.
Qed.

Lemma Inv_offered_page (key : option jsstring) (w : App.World) (e : Page.event) :
  Inv_offered w -> Page.offered w e = true -> Inv_offered (Page.handle key w e).
Proof.
  intros H O. destruct e as [a|files|message|alt|]; cbn [Page.handle].
  - apply Inv_offered_useEffect, Inv_offered_handle; [exact H|].
    destruct a; try exact O; discriminate.
  - destruct files as [|file files]; [exact H|].
    apply Inv_offered_useEffect, Inv_offered_handle; [exact H|exact O].
  - destruct (PanelItems.handleSend message) as [text|]; [|exact H].
    apply Inv_offered_useEffect, Inv_offered_handle; [exact H|exact O].
  - destruct (App.analysis (App.ui w)) eqn:A; [|exact H].
    apply Inv_offered_useEffect, Inv_offered_selection; [|exact H].
    rewrite A. discriminate.
  - apply Inv_offered_useEffect, Inv_offered_selection; [reflexivity|exact H].
Qed.

Lemma Inv_offered_run (key : option jsstring) (l : list Page.event) :
  forall w, Inv_offered w -> Page.all_offered key w l = true ->
  Inv_offered (Page.run key w l).
Proof.
  induction l as [|e l IH]; intros w H O; [exact H|].
  cbn in O. apply andb_true_iff in O as [O1 O2].
  cbn. apply IH; [apply Inv_offered_page; assumption|exact O2].
Qed.

Lemma Inv_offered_start : Inv_offered App.start.
Proof. unfold Inv_offered. cbn. intuition lia. Qed.

(** X20. After events the page offered, when there is no analysis
    nothing is selected, nothing hovered and no board voltage is set. *)
Theorem selection_needs_analysis (key : option jsstring) (l : list Page.event) :
  Page.all_offered key App.start l = true ->
  let s := App.ui (Page.run key App.start l) in
  App.analysis s = None ->
  App.selectedId s = None /\ App.hoveredId s = None /\ App.boardVoltage s = None.
Proof.
  intros O. cbv zeta. apply (Inv_offered_run key l App.start Inv_offered_start O).
Qed.

(** X21. After events the page offered, at most one report is being
    generated, and the report flag is set exactly when one is. *)
Theorem one_report_in_flight (key : option jsstring) (l : list Page.event) :
  Page.all_offered key App.start l = true ->
  let w := Page.run key App.start l in
  List.length (App.report_requests w) <= 1
  /\ (App.isReporting (App.ui w) = true <-> App.report_requests w <> []).
Proof.
  intros O. cbv zeta.
  destruct (Inv_offered_run key l App.start Inv_offered_start O) as (_ & H2 & H3).
  split; [exact H2|]. rewrite H3.
  destruct (App.report_requests _); cbn; split; congruence.
Qed.

(** ** Runs whose resets wait for the chat *)


Lemma alternates_app (l : list ChatMessage.t) (m : ChatMessage.t) :
  forall b,
  Page.alternates b (l ++ [m]) =
  Page.alternates b l && turn_matches (xorb b (Nat.odd (List.length l))) m.
Proof.
  induction l as [|x l IH]; intros b.
  - cbn. rewrite xorb_false_r. unfold turn_matches.
    destruct (ChatMessage.role m), b; reflexivity.
  - cbn [app Page.alternates List.length]. rewrite Nat.odd_succ, <- Nat.negb_odd.
    destruct (ChatMessage.role x), b; cbn [andb]; try reflexivity;
      rewrite IH; destruct (Nat.odd (List.length l)); reflexivity.
Qed.


Lemma odd_app_one {A} (l : list A) (x : A) :
  Nat.odd (List.length (l ++ [x])) = negb (Nat.odd (List.length l)).
Proof.
  rewrite length_app. cbn. rewrite Nat.add_1_r, Nat.odd_succ, <- Nat.negb_odd.
  reflexivity.
Qed.

Lemma Inv_chat_handle (w : App.World) (a : App.action) :
  Inv w -> Inv_chat w ->
  match a with
  | App.Upload _ | App.StartOver => App.chat_requests w = []
  | _ => True
  end ->
  Inv_chat (App.handle w a).
Proof.
  unfold Inv_chat. intros HI (H1 & H2) Q.
  pose proof (proj1 HI) as B.
  handle_cases a.
  - rewrite Q in B. cbn in *. now rewrite B.
  - rewrite Q in B. cbn in *. now rewrite B.
  - destruct (App.is_pending request (App.analysis_requests w)); [|now split].
    destruct outcome; now split.
  - unfold App.handleSendMessage_begin.
    destruct (App.chat (App.ui w)); [|now split].
    case_eq (App.isChatLoading (App.ui w)); intros L; [now split|].
    cbn. rewrite alternates_app, odd_app_one, H1, <- H2, L. now split.
  - destruct (App.is_pending request (App.chat_requests w)) eqn:P; [|now split].
    assert (L : App.isChatLoading (App.ui w) = true).
    { rewrite B. destruct (App.chat_requests w); [discriminate|reflexivity]. }
    unfold App.handleSendMessage_settled.
    destruct outcome as [?|reply]; cbn;
      [|destruct (App.jumper_of_reply reply); cbn];
      rewrite alternates_app, odd_app_one, H1, <- H2, L; now split.
  - unfold App.handleGenerateReport_begin.
    destruct (App.analysis (App.ui w)); [|now split].
    destruct (App.imageUrl (App.ui w)); now split.
  - destruct (App.is_pending request (App.report_requests w)); [|now split].
    unfold App.handleGenerateReport_settled.
    destruct outcome as [[m|]|?]; cbn; try destruct (jsstring_eqb m _); now split.
  - now split.
  - now split.
  - now split.
  - now split.
Qed.

Lemma Inv_chat_useEffect (key : option jsstring) (w : App.World) :
  Inv_chat w -> Inv_chat (App.useEffect_chat key w).
Proof.
  unfold Inv_chat. destruct (useEffect_ui key w) as (c & ->). exact (fun H => H).
Qed.

Lemma Inv_chat_page (key : option jsstring) (w : App.World) (e : Page.event) :
  Inv w -> Inv_chat w ->
  (Page.is_reset e = true -> App.chat_requests w = []) ->
  Inv_chat (Page.handle key w e).
Proof.
  intros HI H Q. destruct e as [a|files|message|alt|]; cbn [Page.handle].
  - apply Inv_chat_useEffect, Inv_chat_handle; try assumption.
    destruct a; try exact I; apply Q; reflexivity.
  - destruct files as [|file files]; [exact H|].
    apply Inv_chat_useEffect, Inv_chat_handle; try assumption.
    apply Q. reflexivity.
  - destruct (PanelItems.handleSend message) as [text|]; [|exact H].
    apply Inv_chat_useEffect, Inv_chat_handle; try assumption. exact I.
  - destruct (App.analysis (App.ui w)); [|exact H].
    apply Inv_chat_useEffect. exact H.
  - apply Inv_chat_useEffect. exact H.
Qed.

Lemma Inv_chat_run (key : option jsstring) (l : list Page.event) :
  forall w, Inv w -> Inv_chat w -> Page.chat_quiet key w l = true ->
  Inv_chat (Page.run key w l).
Proof.
  induction l as [|e l IH]; intros w HI H Q; [exact H|].
  cbn in Q. apply andb_true_iff in Q as [Q1 Q2].
  cbn. apply IH; [now apply Inv_page| |exact Q2].
  apply Inv_chat_page; try assumption.
  intros R. rewrite R in Q1. cbn in Q1.
  destruct (App.chat_requests w); [reflexivity|discriminate].
Qed.

(** X22. When no reset is taken while a chat request is pending, the
    transcript alternates between [user] and [model], starting with
    [user], and the chat flag is set exactly when its length is odd. *)
Theorem transcript_alternates (key : option jsstring) (l : list Page.event) :
  Page.chat_quiet key App.start l = true ->
  let s := App.ui (Page.run key App.start l) in
  Page.alternates true (App.chatHistory s) = true
  /\ App.isChatLoading s = Nat.odd (List.length (App.chatHistory s)).
Proof.
  intros Q. cbv zeta.
  apply (Inv_chat_run key l App.start Inv_start); [|exact Q].
  split; reflexivity.
Qed.

(** ** Runs whose resets wait for the analysis *)


Lemma Inv_analysis_handle (w : App.World) (a : App.action) :
  Inv_analysis w ->
  match a with
  | App.Upload _ | App.StartOver => App.analysis_requests w = []
  | _ => True
  end ->
  Inv_analysis (App.handle w a).
Proof.
  unfold Inv_analysis. destruct w as [s ar cr rr rv n]. destruct s.
  intros H Q. cbn in H, Q. handle_cases a.
  - subst ar. cbn. intuition (try congruence; try lia).
  - subst ar. cbn. intuition (try congruence; try lia).
  - destruct (App.is_pending request ar) eqn:P; [|exact H].
    destruct H as (H1 & H2 & H3).
    cbn [App.ui App.analysis_requests]. rewrite (settle_single _ _ H1 P).
    destruct outcome; cbn; intuition (try congruence; try lia).
  - unfold App.handleSendMessage_begin. cbn.
    destruct chat; [|exact H]. destruct isChatLoading; exact H.
  - destruct (App.is_pending request cr); [|exact H].
    unfold App.handleSendMessage_settled. revert H.
    destruct outcome as [?|reply]; cbn;
      [|destruct (App.jumper_of_reply reply); cbn]; tauto.
  - unfold App.handleGenerateReport_begin. cbn.
    destruct analysis; [|exact H]. destruct imageUrl; exact H.
  - destruct (App.is_pending request rr); [|exact H].
    unfold App.handleGenerateReport_settled. revert H.
    destruct outcome as [[m|]|?]; cbn; try destruct (jsstring_eqb m _); cbn; tauto.
  - exact H.
  - exact H.
  - exact H.
  - exact H.
Qed.

Lemma Inv_analysis_useEffect (key : option jsstring) (w : App.World) :
  Inv_analysis w -> Inv_analysis (App.useEffect_chat key w).
Proof.
  destruct (useEffect_cases key w) as [E|(c & _ & _ & _ & E)]; rewrite E;
    [tauto|].
  unfold Inv_analysis. destruct w as [s ar cr rr rv n]. destruct s. cbn. tauto.
Qed.

Lemma Inv_analysis_selection (w : App.World) (sel : option jsstring) :
  Inv_analysis w ->
  Inv_analysis (App.with_ui w (App.setSelectedId sel (App.ui w))).
Proof.
  unfold Inv_analysis. destruct w as [s ar cr rr rv n]. destruct s. cbn. tauto.
Qed.

Lemma Inv_analysis_page (key : option jsstring) (w : App.World) (e : Page.event) :
  Inv_analysis w ->
  (Page.is_reset e = true -> App.analysis_requests w = []) ->
  Inv_analysis (Page.handle key w e).
Proof.
  intros H Q. destruct e as [a|files|message|alt|]; cbn [Page.handle].
  - apply Inv_analysis_useEffect, Inv_analysis_handle; [exact H|].
    destruct a; try exact I; apply Q; reflexivity.
  - destruct files as [|file files]; [exact H|].
    apply Inv_analysis_useEffect, Inv_analysis_handle; [exact H|].
    apply Q. reflexivity.
  - destruct (PanelItems.handleSend message) as [text|]; [|exact H].
    apply Inv_analysis_useEffect, Inv_analysis_handle; [exact H|exact I].
  - destruct (App.analysis (App.ui w)); [|exact H].
    apply Inv_analysis_useEffect, Inv_analysis_selection, H.
  - apply Inv_analysis_useEffect, Inv_analysis_selection, H.
Qed.

Lemma Inv_analysis_run (key : option jsstring) (l : list Page.event) :
  forall w, Inv_analysis w -> Page.analysis_quiet key w l = true ->
  Inv_analysis (Page.run key w l).
Proof.
  induction l as [|e l IH]; intros w H Q; [exact H|].
  cbn in Q. apply andb_true_iff in Q as [Q1 Q2].
  cbn. apply IH; [|exact Q2].
  apply Inv_analysis_page; [exact H|].
  intros R. rewrite R in Q1. cbn in Q1.
  destruct (App.analysis_requests w); [reflexivity|discriminate].
Qed.

(** X23. When no reset is taken while an analysis is pending, at most
    one analysis request is pending, the loading flag is set exactly when
    one is, and none is pending once an analysis is shown. *)
Theorem one_analysis_in_flight (key : option jsstring) (l : list Page.event) :
  Page.analysis_quiet key App.start l = true ->
  let w := Page.run key App.start l in
  List.length (App.analysis_requests w) <= 1
  /\ (App.isLoading (App.ui w) = true <-> App.analysis_requests w <> [])
  /\ (App.analysis (App.ui w) <> None -> App.analysis_requests w = []).
Proof.
  intros Q. cbv zeta.
  assert (H0 : Inv_analysis App.start).
  { unfold Inv_analysis. cbn. intuition (try congruence; try lia). }
  destruct (Inv_analysis_run key l App.start H0 Q) as (H1 & H2 & H3).
  split; [exact H1|]. split; [|exact H3]. rewrite H2.
  destruct (App.analysis_requests _); cbn; split; congruence.
Qed.

(** ** Object URLs *)


Lemma Inv_url_useEffect (key : option jsstring) (w : App.World) :
  Inv_url w -> Inv_url (App.useEffect_chat key w).
Proof.
  destruct (useEffect_cases key w) as [E|(c & _ & _ & _ & E)]; rewrite E;
    [tauto|].
  unfold Inv_url. destruct w as [s ar cr rr rv n]. destruct s. cbn.
  intros (H1 & H2 & H3). split; [exact H1|]. split.
  - intros u Hu. specialize (H2 u Hu). lia.
  - intros u Hu. destruct (H3 u Hu). split; [lia|assumption].
Qed.

Lemma Inv_url_mono (s s' : App.State) ar ar' cr cr' rr rr' rv n n' :
  App.imageUrl s' = App.imageUrl s -> n <= n' ->
  Inv_url {| App.ui := s; App.analysis_requests := ar; App.chat_requests := cr;
             App.report_requests := rr; App.revoked := rv; App.fresh := n |} ->
  Inv_url {| App.ui := s'; App.analysis_requests := ar'; App.chat_requests := cr';
             App.report_requests := rr'; App.revoked := rv; App.fresh := n' |}.
Proof.
  unfold Inv_url. cbn. intros E L (H1 & H2 & H3). rewrite E.
  split; [exact H1|]. split.
  - intros u Hu. specialize (H2 u Hu). lia.
  - intros u Hu. destruct (H3 u Hu). split; [lia|assumption].
Qed.

Lemma Inv_url_handle (w : App.World) (a : App.action) :
  Inv_url w -> Inv_url (App.handle w a).
Proof.
  destruct w as [s ar cr rr rv n]. intros H. handle_cases a.
  - unfold Inv_url in *. cbn in *. destruct H as (H1 & H2 & H3).
    rewrite app_nil_r. split; [exact H1|]. split.
    + intros u Hu. specialize (H2 u Hu). lia.
    + intros u [= <-]. split; [lia|]. intros Hu. specialize (H2 _ Hu). lia.
  - unfold Inv_url in *. cbn in *. destruct H as (H1 & H2 & H3).
    destruct (App.imageUrl s) as [u|]; cbn.
    + destruct (H3 u eq_refl) as (L & N).
      split; [|split].
      * apply NoDup_app; [exact H1|repeat constructor; intros []|].
        intros x Hx [<-|[]]. exact (N Hx).
      * intros x Hx. apply in_app_or in Hx as [Hx|[<-|[]]]; auto.
      * discriminate.
    + rewrite app_nil_r. split; [exact H1|]. split; [exact H2|discriminate].
  - destruct (App.is_pending request ar); [|exact H].
    revert H. apply Inv_url_mono; [|lia]. destruct outcome; reflexivity.
  - unfold App.handleSendMessage_begin.
    destruct (App.chat s); [|exact H]. destruct (App.isChatLoading s); [exact H|].
    revert H. apply Inv_url_mono; [reflexivity|lia].
  - destruct (App.is_pending request cr); [|exact H].
    revert H. apply Inv_url_mono; [|lia].
    unfold App.handleSendMessage_settled.
    destruct outcome as [?|reply]; cbn;
      [|destruct (App.jumper_of_reply reply)]; reflexivity.
  - unfold App.handleGenerateReport_begin.
    destruct (App.analysis s); [|exact H]. destruct (App.imageUrl s) eqn:U; [|exact H].
    revert H. apply Inv_url_mono; [cbn; now rewrite U|lia].
  - destruct (App.is_pending request rr); [|exact H].
    revert H. apply Inv_url_mono; [|lia].
    unfold App.handleGenerateReport_settled.
    destruct outcome as [[m|]|?]; cbn; try destruct (jsstring_eqb m _); reflexivity.
  - revert H. apply Inv_url_mono; [reflexivity|cbn; lia].
  - revert H. apply Inv_url_mono; [reflexivity|cbn; lia].
  - revert H. apply Inv_url_mono; [reflexivity|cbn; lia].
  - revert H. apply Inv_url_mono; [reflexivity|cbn; lia].
Qed.

Lemma Inv_url_selection (w : App.World) (sel : option jsstring) :
  Inv_url w -> Inv_url (App.with_ui w (App.setSelectedId sel (App.ui w))).
Proof.
  destruct w as [s ar cr rr rv n]. apply Inv_url_mono; [reflexivity|cbn; lia].
Qed.

Lemma Inv_url_page (key : option jsstring) (w : App.World) (e : Page.event) :
  Inv_url w -> Inv_url (Page.handle key w e).
Proof.
  intros H. destruct e as [a|files|message|alt|]; cbn [Page.handle].
  - apply Inv_url_useEffect, Inv_url_handle, H.
  - destruct files; [exact H|apply Inv_url_useEffect, Inv_url_handle, H].
  - destruct (PanelItems.handleSend message);
      [apply Inv_url_useEffect, Inv_url_handle, H|exact H].
  - destruct (App.analysis (App.ui w)); [|exact H].
    apply Inv_url_useEffect, Inv_url_selection, H.
  - apply Inv_url_useEffect, Inv_url_selection, H.
Qed.

(** X24. After any events, no object URL has been revoked twice, and the
    URL of the image shown has not been revoked. *)
Theorem shown_url_not_revoked (key : option jsstring) (l : list Page.event) :
  let w := Page.run key App.start l in
  NoDup (App.revoked w)
  /\ (forall u, App.imageUrl (App.ui w) = Some u -> ~ In u (App.revoked w)).
Proof.
  cbv zeta.
  assert (H : Inv_url (Page.run key App.start l)).
  { apply run_invariant; [apply Inv_url_page|].
    unfold Inv_url. cbn. split; [constructor|]. split; [intros u []|discriminate]. }
  destruct H as (H1 & _ & H3). split; [exact H1|].
  intros u Hu. apply (H3 u Hu).
Qed.

End PageInvariants.

Section Outcomes.
Import Js Json Types GeminiService.

(** X25. When [analyzePcbImage] fails, [handleImageUpload] shows the
    message of the error, clears the loading flag and leaves the analysis
    as it was; the error is the configuration error (no key), or with a key
    the rejection of the service, or the invalid-data error for a reply
    [analyze_reply] rejects. *)
Theorem analysis_failure_on_page (API_KEY : option jsstring) (service : Service)
    (file : File) (s : App.State) (e : exn) :
  snd (analyzePcbImage API_KEY service file) = inl e ->
  let request :=
    analysis_request {| data := file_base64 file; mimeType := file_type file |} in
  let s' := App.handleImageUpload_settled s (inl e) in
  App.error s' = Some (App.error_text e)
  /\ App.isLoading s' = false
  /\ App.analysis s' = App.analysis s
  /\ (key_truthy API_KEY = false /\ e = ConfigurationError
      \/ key_truthy API_KEY = true
         /\ (service request = inl e
             \/ e = MalformedResponse
                /\ exists reply, service request = inr reply
                                 /\ analyze_reply reply = inl MalformedResponse)).
Proof.
  intros H. cbv zeta. split; [reflexivity|]. split; [reflexivity|].
  split; [reflexivity|]. revert H. unfold analyzePcbImage.
  destruct (key_truthy API_KEY) eqn:K; cbn -[analysis_request].
  - intros H. right. split; [reflexivity|].
    destruct (service _) as [e'|reply] eqn:S; cbn in H.
    + left. congruence.
    + right. unfold analyze_reply.
      destruct (validate_reply (trim reply)) as [e'|v] eqn:V; cbn in H;
        [|discriminate].
      assert (e' = MalformedResponse).
      { unfold validate_reply in V.
        destruct (parse_and_check (trim reply)); congruence. }
      subst e'. split; [congruence|]. exists reply. now split.
  - intros [= <-]. left. now split.
Qed.

(** X26. Starting a report and the settling of one change nothing of
    the page but the report flag and the error: no analysis or chat
    request, no revoked URL; and the error changes only by being cleared
    at the start or set by a failed report. *)
Theorem report_leaves_session (w : App.World) (request : nat)
    (outcome : exn + unit) (a : App.action) :
  a = App.GenerateReport \/ a = App.ReportSettles request outcome ->
  let w' := App.handle w a in
  (exists err flag,
     App.ui w' = App.setError err (App.setIsReporting flag (App.ui w)))
  /\ App.analysis_requests w' = App.analysis_requests w
  /\ App.chat_requests w' = App.chat_requests w
  /\ App.revoked w' = App.revoked w
  /\ (App.error (App.ui w') <> App.error (App.ui w) ->
      App.error (App.ui w') = None /\ a = App.GenerateReport
      \/ exists e, outcome = inl e /\ a = App.ReportSettles request outcome).
Proof.
  destruct w as [s ar cr rr rv n]. destruct s.
  intros [-> | ->]; cbn [App.handle App.ui App.report_requests].
  - unfold App.handleGenerateReport_begin. cbn.
    destruct analysis; [destruct imageUrl|]; cbn.
    + repeat split; [do 2 eexists; reflexivity|]. now left.
    + repeat split; [exists error, isReporting; reflexivity|]. congruence.
    + repeat split; [exists error, isReporting; reflexivity|]. congruence.
  - destruct (App.is_pending request rr); cbn.
    + unfold App.handleGenerateReport_settled.
      destruct outcome as [e|?]; cbn.
      * destruct e as [m|]; [destruct (jsstring_eqb m _)|]; cbn;
          (repeat split; [do 2 eexists; reflexivity|]); intros _; right;
          eexists; split; reflexivity.
      * repeat split; [exists error, false; reflexivity|]. congruence.
    + repeat split; [exists error, isReporting; reflexivity|]. congruence.
Qed.

End Outcomes.

Section SampleRuns.
Import Js Json Types Predicates Samples.



Lemma no_key_no_chat_witness :
  GeminiService.key_truthy None = false
  /\ App.chatHistory (App.ui (Page.run None App.start sample_run)) = [].
Proof.
  split; [reflexivity|].
  apply (no_key_no_chat None sample_run). reflexivity.
Defined.

Lemma selection_needs_analysis_witness :
  Page.all_offered the_key App.start sample_run_over = true
  /\ App.analysis (App.ui (Page.run the_key App.start sample_run_over)) = None
  /\ App.selectedId (App.ui (Page.run the_key App.start sample_run_over)) = None.
Proof.
  split; [vm_compute; reflexivity|]. split; [vm_compute; reflexivity|].
  apply (selection_needs_analysis the_key sample_run_over);
    vm_compute; reflexivity.
Defined.

Lemma one_report_in_flight_witness :
  Page.all_offered the_key App.start sample_run = true
  /\ List.length
       (App.report_requests (Page.run the_key App.start sample_run)) <= 1.
Proof.
  split; [vm_compute; reflexivity|].
  apply (one_report_in_flight the_key sample_run). vm_compute; reflexivity.
Defined.

Lemma transcript_alternates_witness :
  Page.chat_quiet the_key App.start sample_run = true
  /\ Page.alternates true
       (App.chatHistory (App.ui (Page.run the_key App.start sample_run))) = true.
Proof.
  split; [vm_compute; reflexivity|].
  apply (transcript_alternates the_key sample_run). vm_compute; reflexivity.
Defined.

Lemma one_analysis_in_flight_witness :
  Page.analysis_quiet the_key App.start sample_run_over = true
  /\ List.length
       (App.analysis_requests (Page.run the_key App.start sample_run_over)) <= 1.
Proof.
  split; [vm_compute; reflexivity|].
  apply (one_analysis_in_flight the_key sample_run_over). vm_compute; reflexivity.
Defined.

Lemma analysis_failure_on_page_witness :
  snd (GeminiService.analyzePcbImage the_key (fun _ => inr (qq "{'components':[]}"))
         sample_file) = inl GeminiService.MalformedResponse
  /\ App.error (App.handleImageUpload_settled App.initial
                  (inl GeminiService.MalformedResponse))
     = Some (str "AI returned invalid data format. Please try again.").
Proof.
  split; [vm_compute; reflexivity|].
  apply (analysis_failure_on_page the_key (fun _ => inr (qq "{'components':[]}"))
           sample_file App.initial GeminiService.MalformedResponse).
  vm_compute; reflexivity.
Defined.

Lemma report_leaves_session_witness :
  App.chat_requests
    (App.handle (Page.run the_key App.start sample_run)
       (App.ReportSettles 4 (inl (GeminiService.Error (str "SCREENSHOT_FAILED")))))
  = App.chat_requests (Page.run the_key App.start sample_run).
Proof.
  apply (report_leaves_session (Page.run the_key App.start sample_run) 4
           (inl (GeminiService.Error (str "SCREENSHOT_FAILED")))
           (App.ReportSettles 4 (inl (GeminiService.Error (str "SCREENSHOT_FAILED"))))).
  right. reflexivity.
Defined.

End SampleRuns.
